(** * ResumeParser: extraction, scoring and suitability analysis

    A shallow embedding of [src/ResumeParser/src/utils/resumeParser.ts]
    (class [ResumeParser]: [parseResume], [scoreResume],
    [analyzeSuitability]) together with the JavaScript built-ins the class
    calls, its callers ([handleResumeUpload] of [App.tsx], the handlers of
    the [JobRequirements] form) and the properties the specification states
    about it.

    Conventions of the embedding.
    - A JavaScript string is a [string]: a sequence of code units, here the
      code units below 256 (Latin-1), on which [toLowerCase], [\s] and [\d]
      are written out in full.  Beyond Latin-1 the [i] flag of a regular
      expression identifies letters that [toLowerCase] keeps apart; what
      is proved of matching is proved of Latin-1 strings.
    - A JavaScript Number is a binary64 [float] ([PrimFloat]); [NaN],
      infinities and signed zeros are the primitive ones.
    - A thrown exception is the [Throw] outcome of the [Outcome] monad.
    - [new RegExp] and [match] are written out for a fragment of the
      pattern syntax ([RegExp]); outside it the outcome is [Unmodelled].
      The range and the monotonicity of the score are proved for every
      engine ([AnyEngine]), so for every pattern.
    - The objects that outlive a call (the instance, the analyzer, the
      [RegExp] objects) are kept in a store in [Session], where
      determinism is proved.
    - The [compromise] tagger ([nlp]) is a third-party library: it is a
      parameter, the class [TextAnalyzer]; the match expressions the source
      applies to its documents are written out over a document model of
      sentences and tagged terms. *)

From Stdlib Require Import String Ascii List Bool Arith ZArith Lia Floats.
From Stdlib Require Import Permutation.
From Stdlib Require Import Uint63 DecimalString.
From Stdlib Require Import Reals Lra.
Import ListNotations.

#[local] Set Warnings "-inexact-float".

Local Open Scope string_scope.
Local Open Scope list_scope.
Local Open Scope nat_scope.

(** ** JavaScript strings *)

Module JSString.

(** Code unit of a character, as a natural number below 256. *)
Definition code (c : ascii) : nat := nat_of_ascii c.

(** [String.prototype.toLowerCase] on one code unit: A-Z, and the Latin-1
    capitals U+00C0..U+00DE other than the multiplication sign U+00D7,
    move up by 32; every other code unit below 256 is unchanged. *)
Definition toLowerChar (c : ascii) : ascii :=
  let n := code c in
  if ((65 <=? n) && (n <=? 90)) ||
     ((192 <=? n) && (n <=? 222) && negb (n =? 215))
  then ascii_of_nat (n + 32)
  else c.

Fixpoint toLowerCase (s : string) : string :=
  match s with
  | EmptyString => EmptyString
  | String c s' => String (toLowerChar c) (toLowerCase s')
  end.

(** [s.startsWith(p)]. *)
Fixpoint startsWith (p s : string) : bool :=
  match p, s with
  | EmptyString, _ => true
  | String _ _, EmptyString => false
  | String a p', String b s' => Ascii.eqb a b && startsWith p' s'
  end.

(** [s.includes(p)]: [p] occurs in [s] as a substring. *)
Fixpoint includes (s p : string) : bool :=
  startsWith p s ||
  match s with
  | EmptyString => false
  | String _ s' => includes s' p
  end.

(** White space of the regular-expression class [\s], among the code
    units below 256: TAB, LF, VT, FF, CR, SPACE and NO-BREAK SPACE. *)
Definition isWhiteSpace (c : ascii) : bool :=
  let n := code c in
  ((9 <=? n) && (n <=? 13)) || (n =? 32) || (n =? 160).

(** The class [[\s,\.]] of the tokenizer. *)
Definition isSeparator (c : ascii) : bool :=
  isWhiteSpace c || (code c =? 44) || (code c =? 46).

(** [s.split(/[\s,\.]+/)]: the pieces between maximal runs of
    separators; a separator at either end leaves an empty piece there,
    and the empty string splits into one empty piece.  [cur] is the piece
    being read, [inSep] tells that the previous code unit was a
    separator. *)
Fixpoint splitFrom (s : string) (cur : string) (inSep : bool) : list string :=
  match s with
  | EmptyString => [cur]
  | String c s' =>
      if isSeparator c
      then (if inSep then splitFrom s' EmptyString true
            else cur :: splitFrom s' EmptyString true)
      else splitFrom s' (cur ++ String c EmptyString)%string false
  end.

Definition split (s : string) : list string := splitFrom s EmptyString false.

(** [arr.join(sep)]. *)
Fixpoint join (sep : string) (l : list string) : string :=
  match l with
  | [] => EmptyString
  | [x] => x
  | x :: rest => (x ++ sep ++ join sep rest)%string
  end.

(** [\d]: the ten ASCII digits. *)
Definition isDigit (c : ascii) : bool :=
  (48 <=? code c) && (code c <=? 57).

End JSString.

(** ** JavaScript arrays and sets of strings *)

Module JSArray.

(** [arr.includes(x)] on an array of strings. *)
Fixpoint includes (l : list string) (x : string) : bool :=
  match l with
  | [] => false
  | y :: l' => String.eqb y x || includes l' x
  end.

End JSArray.

Module JSSet.

(** A [Set<string>]: its elements in insertion order, each once. *)
Definition t := list string.

Definition empty : t := [].

Definition has (s : t) (x : string) : bool := JSArray.includes s x.

(** [s.add(x)] appends [x] unless it is already there. *)
Definition add (s : t) (x : string) : t :=
  if has s x then s else s ++ [x].

(** [new Set(arr)]. *)
Definition ofList (l : list string) : t := fold_left add l empty.

(** [Array.from(s)]. *)
Definition toArray (s : t) : list string := s.

End JSSet.

(** ** JavaScript Numbers *)

Module JSNumber.

(** The Number of an array length (or any natural number below 2^63;
    array lengths are below 2^32). *)
Definition ofNat (n : nat) : float := of_uint63 (Uint63.of_Z (Z.of_nat n)).

(** [Math.min(a, b)]: NaN if either argument is NaN, otherwise the
    smaller one, -0 counting as smaller than +0. *)
Definition Math_min (a b : float) : float :=
  if is_nan a || is_nan b then nan
  else if PrimFloat.ltb a b then a
  else if PrimFloat.ltb b a then b
  else if get_sign a then a else b.

(** [Math.round(x)]: the integer nearest to [x], the one towards
    +infinity at a tie; NaN, infinities and zeros are returned as they
    are, and a result that is zero keeps the sign of [x].  A finite
    [x = (-1)^s * m * 2^e] with [0 <= e] is an integer already; with
    [e < 0] its magnitude is below 2^53 and the rounded integer
    [floor (x + 1/2)] is computed exactly on [Z]. *)
Definition Math_round (x : float) : float :=
  match Prim2SF x with
  | S754_finite s m e =>
      if (0 <=? e)%Z then x
      else
        let h := (2 ^ (- e))%Z in
        if s
        then PrimFloat.opp (of_uint63 (of_Z (- ((h - 2 * Zpos m) / (2 * h)))))
        else of_uint63 (of_Z ((2 * Zpos m + h) / (2 * h)))
  | _ => x
  end.

(** [Number.isInteger(x)], read on the sign, mantissa and exponent of
    [x]: a zero, or a finite [m * 2^e] with [0 <= e] or [2^(-e)]
    dividing [m]. *)
Definition integerSF (x : spec_float) : bool :=
  match x with
  | S754_zero _ => true
  | S754_finite _ m e => (0 <=? e)%Z || (Zpos m mod 2 ^ (- e) =? 0)%Z
  | _ => false
  end.

Definition isInteger (x : float) : bool := integerSF (Prim2SF x).

(** [a <= b] and [a >= b] on Numbers (false when NaN is involved). *)
Definition le (a b : float) : bool := PrimFloat.leb a b.
Definition ge (a b : float) : bool := PrimFloat.leb b a.

End JSNumber.

(** ** Regular expressions: [new RegExp(source, 'gi')]

    The fragment of the pattern syntax modelled here: a sequence of
    single-character atoms (a literal code unit, or [.]), each optionally
    followed by one greedy quantifier [*], [+] or [?].  A quantifier with
    nothing to repeat is the [SyntaxError] the constructor throws.  A
    pattern that uses any other syntax character (anchors, groups, classes,
    braces, alternation, escapes, lazy quantifiers) is
    [OutsideFragment]: the model does not say what it does. *)

Module RegExp.

Inductive Atom := Lit (c : ascii) | Dot.
Inductive Quantifier := One | Star | Plus | Opt.
Definition Pattern := list (Atom * Quantifier).

Inductive Compiled :=
| Regex (p : Pattern)
| SyntaxError
| OutsideFragment.

Definition isQuantifierChar (c : ascii) : bool :=
  Ascii.eqb c "*" || Ascii.eqb c "+" || Ascii.eqb c "?".

(** The remaining syntax characters: [^ $ \ ( ) [ ] { } |]. *)
Definition isOtherSyntaxChar (c : ascii) : bool :=
  existsb (Ascii.eqb c) ["^"; "$"; "\"; "("; ")"; "["; "]"; "{"; "}"; "|"]%char.

Definition isSyntaxChar (c : ascii) : bool :=
  isQuantifierChar c || isOtherSyntaxChar c || Ascii.eqb c ".".

Definition quantifierOf (c : ascii) : Quantifier :=
  if Ascii.eqb c "*" then Star else if Ascii.eqb c "+" then Plus else Opt.

Definition atomOf (c : ascii) : Atom :=
  if Ascii.eqb c "." then Dot else Lit c.

Definition consItem (i : Atom * Quantifier) (r : Compiled) : Compiled :=
  match r with
  | Regex p => Regex (i :: p)
  | other => other
  end.

(** The pattern parser, left to right; the leftmost offending character
    decides between [SyntaxError] and [OutsideFragment]. *)
Fixpoint compile (source : string) : Compiled :=
  match source with
  | EmptyString => Regex []
  | String c rest =>
      if isQuantifierChar c then SyntaxError
      else if isOtherSyntaxChar c then OutsideFragment
      else
        match rest with
        | String q rest' =>
            if isQuantifierChar q
            then match rest' with
                 | String l _ =>
                     if Ascii.eqb l "?" then OutsideFragment
                     else consItem (atomOf c, quantifierOf q) (compile rest')
                 | EmptyString => Regex [(atomOf c, quantifierOf q)]
                 end
            else consItem (atomOf c, One) (compile rest)
        | EmptyString => Regex [(atomOf c, One)]
        end
  end.

(** Line terminators below 256: LF and CR; [.] matches anything else. *)
Definition isLineTerminator (c : ascii) : bool :=
  (JSString.code c =? 10) || (JSString.code c =? 13).

(** One atom against one code unit, under the [i] flag: two code units
    below 256 are equal up to case exactly when their lower-case forms
    are equal. *)
Definition atomMatches (a : Atom) (c : ascii) : bool :=
  match a with
  | Lit l => Ascii.eqb (JSString.toLowerChar l) (JSString.toLowerChar c)
  | Dot => negb (isLineTerminator c)
  end.

(** Greedy repetition of one atom, then the continuation [k]; on failure
    of [k] one repetition is given back. *)
Fixpoint greedyStar (a : Atom) (k : string -> option string) (s : string)
  : option string :=
  match s with
  | String c s' =>
      if atomMatches a c
      then match greedyStar a k s' with
           | Some r => Some r
           | None => k s
           end
      else k s
  | EmptyString => k s
  end.

(** [matchHere p s]: the input left after the first match of [p] at the
    start of [s], in the backtracking order of the language, if any. *)
Fixpoint matchHere (p : Pattern) : string -> option string :=
  match p with
  | [] => fun s => Some s
  | (a, q) :: p' =>
      let k := matchHere p' in
      match q with
      | One => fun s =>
          match s with
          | String c s' => if atomMatches a c then k s' else None
          | EmptyString => None
          end
      | Opt => fun s =>
          match s with
          | String c s' =>
              if atomMatches a c
              then match k s' with Some r => Some r | None => k s end
              else k s
          | EmptyString => k s
          end
      | Star => greedyStar a k
      | Plus => fun s =>
          match s with
          | String c s' => if atomMatches a c then greedyStar a k s' else None
          | EmptyString => None
          end
      end
  end.

(** [s.match(re)] for a global [re], counted: the scan of
    [RegExp.prototype[Symbol.match]].  At each position the pattern is
    tried; a match of [n] code units is counted and the scan resumes
    after it, one code unit further when [n = 0].  [skip] is the number
    of code units of the last match still to pass. *)
Fixpoint countMatches (p : Pattern) (s : string) (skip : nat) : nat :=
  match skip with
  | S k =>
      match s with
      | String _ s' => countMatches p s' k
      | EmptyString => 0
      end
  | 0 =>
      match matchHere p s with
      | Some r =>
          1 + match s with
              | String _ s' =>
                  countMatches p s' (Nat.pred (String.length s - String.length r))
              | EmptyString => 0
              end
      | None =>
          match s with
          | String _ s' => countMatches p s' 0
          | EmptyString => 0
          end
      end
  end.

(** [(s.match(re) || []).length]. *)
Definition matchCount (p : Pattern) (s : string) : nat := countMatches p s 0.

End RegExp.

(** ** Outcomes of a call: a value, or a thrown exception *)

Inductive Error :=
| RegExpSyntaxError (source : string).

(** [Return v]: the call returns [v].  [Throw e]: it throws [e].
    [Unmodelled]: the call reaches a regular expression outside the
    fragment of [RegExp]; the model says nothing about it. *)
Inductive Outcome (A : Type) :=
| Return (v : A)
| Throw (e : Error)
| Unmodelled.

Arguments Return {A} v.
Arguments Throw {A} e.
Arguments Unmodelled {A}.

Definition bind {A B : Type} (m : Outcome A) (f : A -> Outcome B) : Outcome B :=
  match m with
  | Return v => f v
  | Throw e => Throw e
  | Unmodelled => Unmodelled
  end.

Notation "x <- m ;; k" := (bind m (fun x => k))
  (at level 61, m at next level, right associativity).

(** [arr.forEach(f)] threading an accumulator through a callback that may
    throw: the first exception ends the loop. *)
Fixpoint forEachM {A S : Type} (f : S -> A -> Outcome S) (l : list A) (acc : S)
  : Outcome S :=
  match l with
  | [] => Return acc
  | x :: l' => acc' <- f acc x ;; forEachM f l' acc'
  end.

(** ** Documents of the text analyzer

    The part of a [compromise] document the source reads: sentences, each
    with its text (what [out('array')] lists) and its terms; a term with
    the text [text()] returns for it, the normalised word that word
    patterns are compared with, and its tags. *)

Module Compromise.

Inductive Tag :=
| Noun | ProperNoun | Person | Place | Organization | Value
| OtherTag (name : string).

Definition Tag_eqb (a b : Tag) : bool :=
  match a, b with
  | Noun, Noun | ProperNoun, ProperNoun | Person, Person | Place, Place
  | Organization, Organization | Value, Value => true
  | OtherTag x, OtherTag y => String.eqb x y
  | _, _ => false
  end.

Record Term := mkTerm {
  termText : string;
  normal : string;
  tags : list Tag
}.

Record Sentence := mkSentence {
  sentenceText : string;
  terms : list Term
}.

Definition Document := list Sentence.

(** One token of a match expression: [#Tag], or a word or a group
    [(w1|w2|...)] of words. *)
Inductive Token :=
| HasTag (t : Tag)
| Words (ws : list string).

Definition tokenMatches (k : Token) (t : Term) : bool :=
  match k with
  | HasTag g => existsb (Tag_eqb g) (tags t)
  | Words ws => JSArray.includes ws (normal t)
  end.

(** A sequence of tokens matches at the head of a list of terms. *)
Fixpoint matchesAt (pat : list Token) (ts : list Term) : bool :=
  match pat, ts with
  | [], _ => true
  | _ :: _, [] => false
  | k :: pat', t :: ts' => tokenMatches k t && matchesAt pat' ts'
  end.

(** [sentence.has(pat)]: the sequence matches somewhere in the sentence. *)
Fixpoint has (pat : list Token) (ts : list Term) : bool :=
  matchesAt pat ts ||
  match ts with
  | [] => false
  | _ :: ts' => has pat ts'
  end.

(** [doc.match(tok)] for a one-token expression: every matching term, in
    document order, each a match of its own. *)
Definition matchTerms (k : Token) (d : Document) : list Term :=
  filter (tokenMatches k) (flat_map terms d).

(** [m.match(tok)] and [m.not(tok)] on one-term matches. *)
Definition keep (k : Token) (m : list Term) : list Term :=
  filter (tokenMatches k) m.
Definition not (k : Token) (m : list Term) : list Term :=
  filter (fun t => negb (tokenMatches k t)) m.

(** [doc.sentences()], [s.if(pat)], [s.out('array')]. *)
Definition sentences (d : Document) : list Sentence := d.
Definition if_ (pat : list Token) (ss : list Sentence) : list Sentence :=
  filter (fun s => has pat (terms s)) ss.
Definition outArray (ss : list Sentence) : list string :=
  map sentenceText ss.

End Compromise.

(** The analyzer itself, [nlp]: any function from texts to documents. *)
Class TextAnalyzer := { nlp : string -> Compromise.Document }.

(** ** The class [ResumeParser] *)

Module ResumeParser.

Import Compromise.

(** The instance state: the private field [commonTechTerms].  No method
    assigns to it, so methods take the instance and return no new one. *)
Record t := mk { commonTechTerms : JSSet.t }.

(** [new ResumeParser()]. *)
Definition new : t :=
  mk (JSSet.ofList
    [ "javascript"; "typescript"; "python"; "java"; "c++"; "ruby"; "php";
      "react"; "angular"; "vue"; "node"; "express"; "django"; "flask";
      "mongodb"; "postgresql"; "mysql"; "redis"; "aws"; "azure"; "gcp";
      "docker"; "kubernetes"; "git"; "ci/cd"; "agile"; "scrum";
      "html"; "css"; "sass"; "less"; "webpack"; "babel"; "rest"; "graphql";
      "linux"; "windows"; "macos"; "ios"; "android"; "swift"; "kotlin" ]).

Record Profile := mkProfile {
  skills : list string;
  experience : list string;
  education : list string
}.

Record Verdict := mkVerdict {
  strengths : list string;
  gaps : list string;
  recommendation : string
}.

Definition cueWords : list string :=
  [ "cloud"; "stack"; "framework"; "language"; "database"; "platform";
    "system"; "api"; "service" ].

Definition educationWords : list string :=
  [ "degree"; "bachelor"; "master"; "phd"; "diploma" ].

Section Methods.

Context {TA : TextAnalyzer}.
Variable this : t.

(** Lines 24-29: dictionary words among the tokens. *)
Definition addDictionaryWords (content : string) (skills : JSSet.t) : JSSet.t :=
  fold_left
    (fun acc word =>
       if JSSet.has (commonTechTerms this) word then JSSet.add acc word else acc)
    (JSString.split (JSString.toLowerCase content)) skills.

(** Lines 32-35: nouns that are cue words. *)
Definition addTechTerms (doc : Document) (skills : JSSet.t) : JSSet.t :=
  fold_left
    (fun acc term => JSSet.add acc (JSString.toLowerCase (termText term)))
    (keep (Words cueWords) (matchTerms (HasTag Noun) doc)) skills.

(** Lines 38-44: proper nouns that are neither persons, places nor
    organizations, when the dictionary has them. *)
Definition addCapitalizedTerms (doc : Document) (skills : JSSet.t) : JSSet.t :=
  fold_left
    (fun acc term =>
       let text := JSString.toLowerCase (termText term) in
       if JSSet.has (commonTechTerms this) text then JSSet.add acc text else acc)
    (not (HasTag Organization)
       (not (HasTag Place)
          (not (HasTag Person) (matchTerms (HasTag ProperNoun) doc))))
    skills.

(** Lines 47-50. *)
Definition experienceSentences (doc : Document) : list string :=
  outArray
    (if_ [Words ["experience"]]
       (if_ [HasTag Value; Words ["years"]] (sentences doc))).

(** Lines 55-57. *)
Definition educationSentences (doc : Document) : list string :=
  outArray (if_ [Words educationWords] (sentences doc)).

Definition parseResume (content : string) : Outcome Profile :=
  let doc := nlp (JSString.toLowerCase content) in
  let skills := JSSet.empty in
  let skills := addDictionaryWords content skills in
  let skills := addTechTerms doc skills in
  let skills := addCapitalizedTerms doc skills in
  let experience := [] ++ experienceSentences doc in
  let education := [] ++ educationSentences doc in
  Return (mkProfile (JSSet.toArray skills) experience education).

(** Lines 146-149: the filter callback of [matchedSkills]. *)
Definition isMatched (skills : list string) (normalizedContent skill : string)
  : bool :=
  JSArray.includes skills (JSString.toLowerCase skill) ||
  JSString.includes normalizedContent (JSString.toLowerCase skill).

(** Lines 153-163: the [forEach] callback, on the running [score]. *)
Definition addBonuses (normalizedContent : string) (score : float)
  (skill : string) : Outcome float :=
  match RegExp.compile (JSString.toLowerCase skill) with
  | RegExp.SyntaxError =>
      Throw (RegExpSyntaxError (JSString.toLowerCase skill))
  | RegExp.OutsideFragment => Unmodelled
  | RegExp.Regex skillRegex =>
      let matches := RegExp.matchCount skillRegex normalizedContent in
      let score := if 1 <? matches then (score + 0.2)%float else score in
      let score :=
        if JSString.includes normalizedContent
             ("experience in " ++ JSString.toLowerCase skill)%string
        then (score + 0.3)%float else score in
      Return score
  end.

Definition scoreResume (content : string) (requiredSkills : list string)
  : Outcome float :=
  profile <- parseResume content ;;
  let skills := skills profile in
  let normalizedContent := JSString.toLowerCase content in
  let score := 0%float in
  let matchedSkills :=
    filter (isMatched skills normalizedContent) requiredSkills in
  let score :=
    (score + (JSNumber.ofNat (length matchedSkills)
              / JSNumber.ofNat (length requiredSkills)) * 7)%float in
  score <- forEachM (addBonuses normalizedContent) requiredSkills score ;;
  Return (JSNumber.Math_min (JSNumber.Math_round (score * 10) / 10) 10)%float.

(** [exp.match(/\d+/)?.[0]]: the first maximal run of digits. *)
Fixpoint takeDigits (s : string) : string :=
  match s with
  | String c s' => if JSString.isDigit c then String c (takeDigits s') else EmptyString
  | EmptyString => EmptyString
  end.

Fixpoint firstDigits (s : string) : option string :=
  match s with
  | String c s' => if JSString.isDigit c then Some (takeDigits s) else firstDigits s'
  | EmptyString => None
  end.

(** [parseInt] of a string of digits, as the integer the digits denote.
    This is the Number of the source for integers below 2^53, which a
    Number holds exactly; from 2^53 on the source has the nearest double
    and this definition does not follow it. *)
Definition parseInt (digits : string) : Z :=
  fold_left (fun acc c => (10 * acc + Z.of_nat (JSString.code c - 48))%Z)
    (list_ascii_of_string digits) 0%Z.

(** The template substitution [`${n}`] of an integer that is not negative
    and below 2^53: its decimal digits.  (From 2^53 on the source prints
    the rounded Number, from 10^21 on in exponent form.) *)
Definition showInt (n : Z) : string :=
  NilZero.string_of_uint (N.to_uint (Z.to_N n)).

(** Lines 100-103. *)
Definition yearsOfExperience (experience : list string) : Z :=
  fold_left
    (fun max exp =>
       let years :=
         parseInt (match firstDigits exp with Some d => d | None => "0" end) in
       Z.max max years)
    experience 0%Z.

Definition mentions (word : string) (edu : string) : bool :=
  JSString.includes (JSString.toLowerCase edu) word.

Definition analyzeSuitability (content : string) (requiredSkills : list string)
  (jobDescription : string) : Outcome Verdict :=
  profile <- parseResume content ;;
  score <- scoreResume content requiredSkills ;;
  let skills := skills profile in
  let strengths := [] in
  let gaps := [] in
  let matchedSkills :=
    filter (fun skill => JSArray.includes skills (JSString.toLowerCase skill))
      requiredSkills in
  let missingSkills :=
    filter (fun skill => negb (JSArray.includes skills (JSString.toLowerCase skill)))
      requiredSkills in
  let strengths :=
    if 0 <? length matchedSkills
    then strengths ++
         [("Strong match in key skills: " ++ JSString.join ", " matchedSkills)%string]
    else strengths in
  let gaps :=
    if 0 <? length missingSkills
    then gaps ++
         [("Missing required skills: " ++ JSString.join ", " missingSkills)%string]
    else gaps in
  let yearsExp := yearsOfExperience (experience profile) in
  let '(strengths, gaps) :=
    if (5 <=? yearsExp)%Z
    then (strengths ++
          [("Strong industry experience with " ++ showInt yearsExp ++ " years")%string],
          gaps)
    else if (2 <=? yearsExp)%Z
    then (strengths ++
          [("Relevant experience with " ++ showInt yearsExp
            ++ " years in the field")%string],
          gaps)
    else (strengths, gaps ++ ["Limited professional experience"]) in
  let '(strengths, gaps) :=
    if 0 <? length (education profile)
    then
      if existsb (fun edu => mentions "master" edu || mentions "phd" edu)
           (education profile)
      then (strengths ++ ["Advanced academic qualifications"], gaps)
      else if existsb (mentions "bachelor") (education profile)
      then (strengths ++ ["Relevant academic background"], gaps)
      else (strengths, gaps)
    else (strengths, gaps ++ ["No formal education details found"]) in
  let recommendation :=
    if JSNumber.ge score 7
    then "Highly recommended for the position. The candidate shows strong alignment with job requirements and brings valuable experience."
    else if JSNumber.ge score 5
    then "Consider for interview. While there are some gaps, the candidate shows potential and could be a good fit with some training."
    else "Not recommended for this position. The candidate's profile doesn't align well with the job requirements." in
  Return (mkVerdict strengths gaps recommendation).

End Methods.

End ResumeParser.

(** ** The score over any regular-expression engine

    Lines 154-155 ask the engine of the host for
    [(normalizedContent.match(new RegExp(source, 'gi')) || []).length]:
    a number of matches, or the exception of the constructor.  Here the
    engine is a parameter, so that what is proved of the score holds for
    every pattern, also those outside the fragment of [RegExp];
    [fragmentEngine] is the engine of [RegExp], and with it the two
    functions below are [ResumeParser.addBonuses] and
    [ResumeParser.scoreResume]. *)

Module AnyEngine.

Definition RegExpEngine := string -> string -> Outcome nat.

Definition fragmentEngine : RegExpEngine :=
  fun source subject =>
    match RegExp.compile source with
    | RegExp.Regex skillRegex => Return (RegExp.matchCount skillRegex subject)
    | RegExp.SyntaxError => Throw (RegExpSyntaxError source)
    | RegExp.OutsideFragment => Unmodelled
    end.

(** Lines 153-163: the [forEach] callback, on the running [score]. *)
Definition addBonuses (engine : RegExpEngine) (normalizedContent : string)
  (score : float) (skill : string) : Outcome float :=
  matches <- engine (JSString.toLowerCase skill) normalizedContent ;;
  let score := if 1 <? matches then (score + 0.2)%float else score in
  let score :=
    if JSString.includes normalizedContent
         ("experience in " ++ JSString.toLowerCase skill)%string
    then (score + 0.3)%float else score in
  Return score.

Definition scoreResume {TA : TextAnalyzer} (engine : RegExpEngine)
  (this : ResumeParser.t) (content : string) (requiredSkills : list string)
  : Outcome float :=
  profile <- ResumeParser.parseResume this content ;;
  let skills := ResumeParser.skills profile in
  let normalizedContent := JSString.toLowerCase content in
  let score := 0%float in
  let matchedSkills :=
    filter (ResumeParser.isMatched skills normalizedContent) requiredSkills in
  let score :=
    (score + (JSNumber.ofNat (length matchedSkills)
              / JSNumber.ofNat (length requiredSkills)) * 7)%float in
  score <- forEachM (addBonuses engine normalizedContent) requiredSkills score ;;
  Return (JSNumber.Math_min (JSNumber.Math_round (score * 10) / 10) 10)%float.

End AnyEngine.

(** ** A rule-based analyzer

    A small instance of [TextAnalyzer], used to run the class on concrete
    resumes: a sentence ends at a full stop, terms are the words between
    white space, commas and full stops, a term made of digits is a [Value]
    and any other term a [Noun]. *)

Module WordAnalyzer.

Import Compromise.

Fixpoint sentenceTexts (s : string) (cur : string) : list string :=
  match s with
  | EmptyString => if String.eqb cur EmptyString then [] else [cur]
  | String c s' =>
      if Ascii.eqb c "."
      then (cur ++ String c EmptyString)%string :: sentenceTexts s' EmptyString
      else if JSString.isWhiteSpace c && String.eqb cur EmptyString
      then sentenceTexts s' cur
      else sentenceTexts s' (cur ++ String c EmptyString)%string
  end.

Definition allDigits (w : string) : bool :=
  forallb JSString.isDigit (list_ascii_of_string w).

Definition termOf (w : string) : Term :=
  mkTerm w w (if allDigits w then [Value] else [Noun]).

Definition sentenceOf (text : string) : Sentence :=
  mkSentence text
    (map termOf
       (filter (fun w => negb (String.eqb w EmptyString)) (JSString.split text))).

Definition analyze (text : string) : Document :=
  map sentenceOf (sentenceTexts text EmptyString).

End WordAnalyzer.

#[export] Instance wordAnalyzer : TextAnalyzer := {| nlp := WordAnalyzer.analyze |}.

(** ** What the specification says, written from its words

    Definitions used only to compare the specification's wording with the
    source. *)

Module Spec.

Import Compromise.

(** "a sentence contains a numeric value token". *)
Definition hasValueToken (s : Sentence) : bool :=
  existsb (fun t => existsb (Tag_eqb Value) (tags t)) (terms s).

(** "a sentence contains the literal word [w]". *)
Definition hasWord (w : string) (s : Sentence) : bool :=
  existsb (fun t => String.eqb w (normal t)) (terms s).

(** "sentences that contain both a numeric value token and the literal
    word experience, in document order". *)
Definition experienceMentions (d : Document) : list string :=
  map sentenceText
    (filter (fun s => hasValueToken s && hasWord "experience" s) d).

(** What the source asks of the value token in addition: the next term
    is the word [years]. *)
Fixpoint hasValueThenYears (ts : list Term) : bool :=
  match ts with
  | t :: ((u :: _) as ts') =>
      (existsb (Tag_eqb Value) (tags t) && String.eqb "years" (normal u))
      || hasValueThenYears ts'
  | _ => false
  end.

(** A skill with no syntax character of regular expressions in it. *)
Definition plainSkill (skill : string) : bool :=
  forallb (fun c => negb (RegExp.isSyntaxChar c)) (list_ascii_of_string skill).

End Spec.

(** The invariant of a skill set: no element twice, every element in
    lower case. *)
Definition lowerSet (s : JSSet.t) : Prop :=
  NoDup s /\ Forall (fun x => JSString.toLowerCase x = x) s.

(** The pattern of a plain string: its code units, each once. *)
Definition literalPattern (s : string) : RegExp.Pattern :=
  map (fun c => (RegExp.Lit c, RegExp.One)) (list_ascii_of_string s).

(** Signs of binary64 values: zero, positive or +infinity; and finite
    and positive. *)
Definition nonnegSF (x : spec_float) : bool :=
  match x with
  | S754_zero _ | S754_infinity false | S754_finite false _ _ => true
  | _ => false
  end.

Definition positiveFiniteSF (x : spec_float) : bool :=
  match x with
  | S754_finite false _ _ => true
  | _ => false
  end.

Definition nonneg (x : float) : Prop := nonnegSF (Prim2SF x) = true.
Definition positiveFinite (x : float) : Prop := positiveFiniteSF (Prim2SF x) = true.

(** ** The records of [types.ts] *)

Module Types.

Inductive RequirementStatus := Incomplete | Processing | RequirementComplete.

Inductive UploadStatus := Uploading | Analyzing | Complete | UploadError.

Record JobRequirement := mkJobRequirement {
  title : string;
  requiredSkills : list string;
  description : string;
  status : RequirementStatus
}.

Record Resume := mkResume {
  id : string;
  content : string;
  score : float;
  skills : list string;
  jobTitle : string;
  experience : list string;
  education : list string;
  uploadStatus : UploadStatus;
  suitabilityAnalysis : ResumeParser.Verdict
}.

End Types.

(** ** The component [JobRequirements]: the state of the form and its
    handlers [addSkill], [removeSkill] and [handleSubmit] *)

Module JobRequirementsForm.

(** [s.trim()]: white space and line terminators removed at both ends
    (below 256 these are the code units of [\s]). *)
Fixpoint trimStart (s : string) : string :=
  match s with
  | String c s' => if JSString.isWhiteSpace c then trimStart s' else s
  | EmptyString => EmptyString
  end.

Fixpoint trimEnd (s : string) : string :=
  match s with
  | String c s' =>
      let t := trimEnd s' in
      if JSString.isWhiteSpace c && String.eqb t EmptyString
      then EmptyString
      else String c t
  | EmptyString => EmptyString
  end.

Definition trim (s : string) : string := trimEnd (trimStart s).

(** The [useState] cells of the component. *)
Record State := mkState {
  title : string;
  skill : string;
  skills : list string;
  description : string;
  status : Types.RequirementStatus
}.

Definition initial : State := mkState "" "" [] "" Types.Incomplete.

(** [addSkill]: a skill that is not blank is appended, trimmed, and the
    input is cleared; the empty string is the falsy one. *)
Definition addSkill (st : State) : State :=
  if negb (String.eqb (trim (skill st)) EmptyString)
  then mkState (title st) "" (skills st ++ [trim (skill st)])
         (description st) (status st)
  else st.

(** [skills.filter((_, i) => i !== index)], [i] counting from [from]. *)
Fixpoint removeAt (from index : nat) (l : list string) : list string :=
  match l with
  | [] => []
  | x :: l' =>
      if from =? index then removeAt (S from) index l'
      else x :: removeAt (S from) index l'
  end.

Definition removeSkill (index : nat) (st : State) : State :=
  mkState (title st) (skill st) (removeAt 0 index (skills st))
    (description st) (status st).

(** The record [handleSubmit] hands to [onRequirementsChange] once its
    timer fires. *)
Definition submitted (st : State) : Types.JobRequirement :=
  Types.mkJobRequirement (title st) (skills st) (description st)
    Types.RequirementComplete.

End JobRequirementsForm.

(** ** The component [App]: [handleResumeUpload] and the score badge *)

Module App.

Record State := mkState {
  jobRequirements : option Types.JobRequirement;
  resumes : list Types.Resume
}.

(** What a call of [handleResumeUpload] does to the page: an alert, or a
    new list given to [setResumes]. *)
Inductive Effect :=
| Alert (message : string)
| SetResumes (resumes : list Types.Resume).

(** [handleResumeUpload(content)], for the state of the render that
    created the handler; [now] is [Date.now().toString()]. *)
Definition handleResumeUpload {TA : TextAnalyzer} (st : State) (now : string)
  (content : string) : Outcome Effect :=
  let parser := ResumeParser.new in
  match jobRequirements st with
  | None => Return (Alert "Please set job requirements first")
  | Some jobRequirements =>
      profile <- ResumeParser.parseResume parser content ;;
      score <- ResumeParser.scoreResume parser content
                 (Types.requiredSkills jobRequirements) ;;
      suitabilityAnalysis <-
        ResumeParser.analyzeSuitability parser content
          (Types.requiredSkills jobRequirements)
          (Types.description jobRequirements) ;;
      let resume :=
        Types.mkResume now content score
          (ResumeParser.skills profile)
          (Types.title jobRequirements)
          (ResumeParser.experience profile)
          (ResumeParser.education profile)
          Types.Complete suitabilityAnalysis in
      Return (SetResumes (resumes st ++ [resume]))
  end.

(** The classes of the score badge (lines 88-95). *)
Definition scoreBadge (score : float) : string :=
  if JSNumber.ge score 7 then "bg-green-100 text-green-800"
  else if JSNumber.ge score 4 then "bg-yellow-100 text-yellow-800"
  else "bg-red-100 text-red-800".

End App.

(** ** More of the specification's vocabulary *)

(** The messages of the verdict. *)
Definition highlyRecommended : string :=
  "Highly recommended for the position. The candidate shows strong alignment with job requirements and brings valuable experience.".
Definition considerForInterview : string :=
  "Consider for interview. While there are some gaps, the candidate shows potential and could be a good fit with some training.".
Definition notRecommended : string :=
  "Not recommended for this position. The candidate's profile doesn't align well with the job requirements.".

(** [s] holds two occurrences of [p] that do not overlap. *)
Definition occursTwice (p s : string) : Prop :=
  exists a b c : string, s = (a ++ p ++ b ++ p ++ c)%string.

(** [hasTag g t]: the term [t] carries the tag [g]. *)
Definition hasTag (g : Compromise.Tag) (t : Compromise.Term) : bool :=
  Compromise.tokenMatches (Compromise.HasTag g) t.

(** A token with no white space, comma or full stop. *)
Definition separatorFree (w : string) : bool :=
  forallb (fun c => negb (JSString.isSeparator c)) (list_ascii_of_string w).

(** A string that is its own lower-casing. *)
Definition lowerString (s : string) : Prop := JSString.toLowerCase s = s.

(** [s] without its first [k] code units. *)
Fixpoint skipString (k : nat) (s : string) : string :=
  match k, s with
  | S k', String _ s' => skipString k' s'
  | _, _ => s
  end.

(** The recommendation chosen for a score (lines 125-132). *)
Definition recommendationFor (score : float) : string :=
  if JSNumber.ge score 7 then highlyRecommended
  else if JSNumber.ge score 5 then considerForInterview
  else notRecommended.

(** The [RegExp] constructor accepts, or rejects, the lower-cased skill. *)
Definition compiles (skill : string) : Prop :=
  exists re, RegExp.compile (JSString.toLowerCase skill) = RegExp.Regex re.

Definition rejected (skill : string) : Prop :=
  RegExp.compile (JSString.toLowerCase skill) = RegExp.SyntaxError.

(** ** The events of the job requirements form *)

Module FormEvents.
Import JobRequirementsForm.

(** What the user can do to the form: type in one of the three inputs,
    press the add button, press the remove button of a skill. *)
Inductive Event :=
| TypeTitle (text : string)
| TypeSkill (text : string)
| TypeDescription (text : string)
| AddSkill
| RemoveSkill (index : nat).

Definition handle (st : State) (ev : Event) : State :=
  match ev with
  | TypeTitle text => mkState text (skill st) (skills st) (description st) (status st)
  | TypeSkill text => mkState (title st) text (skills st) (description st) (status st)
  | TypeDescription text => mkState (title st) (skill st) (skills st) text (status st)
  | AddSkill => addSkill st
  | RemoveSkill index => removeSkill index st
  end.

Definition run (events : list Event) : State := fold_left handle events initial.

(** A skill as the form keeps it: not empty, no white space at its ends. *)
Definition trimmed (skill : string) : Prop :=
  skill <> EmptyString /\ trim skill = skill.

End FormEvents.

(** ** Sample inputs of the concrete runs *)

Definition resume1 : string := "React developer. 1 years experience.".

Definition resume2 : string :=
  "Master degree in computing. 5 years experience with java and java.".

Definition job1 : Types.JobRequirement :=
  Types.mkJobRequirement "Web developer" ["react"; "docker"] "Builds web pages"
    Types.RequirementComplete.

(** An engine that answers for a pattern outside the fragment of
    [RegExp]: the skill "node (lts)" is a group pattern that matches
    "node lts"; asked anything else it is the engine of [RegExp]. *)
Definition groupEngine : AnyEngine.RegExpEngine :=
  fun source subject =>
    if String.eqb source "node (lts)"
    then Return (if JSString.includes subject "node lts" then 1 else 0)
    else AnyEngine.fragmentEngine source subject.

(** ** The calls of a session, with the state they share

    The same methods once more, this time with the objects that outlive a
    call kept in a store that every call receives and hands on: the
    [ResumeParser] instance with its field [commonTechTerms], the
    analyzer, whose state [nlp] may read and change, and the [RegExp]
    objects allocated so far, each with its [lastIndex].  The sets and
    arrays a method fills and its running [score] are bound to [const]
    and [let] names of the call and are values here. *)

Module Session.

(** The analyzer as an object with a state of its own. *)
Class StatefulAnalyzer := {
  AnalyzerState : Type;
  nlpCall : AnalyzerState -> string -> Compromise.Document * AnalyzerState
}.

Section Calls.

Context {SA : StatefulAnalyzer}.

(** A [RegExp] object with the flags [gi]: its pattern and its
    [lastIndex]. *)
Record RegExpObject := mkRegExp {
  pattern : RegExp.Pattern;
  lastIndex : nat
}.

(** A reference to a [RegExp] object is its index in [regExps]. *)
Record Store := mkStore {
  instance : ResumeParser.t;
  analyzer : AnalyzerState;
  regExps : list RegExpObject
}.

(** A computation on the store; an exception leaves the store as it was
    when thrown. *)
Definition M (A : Type) : Type := Store -> Outcome A * Store.

Definition ret {A : Type} (v : A) : M A := fun s => (Return v, s).

Definition bindM {A B : Type} (m : M A) (f : A -> M B) : M B :=
  fun s =>
    match m s with
    | (Return v, s') => f v s'
    | (Throw e, s') => (Throw e, s')
    | (Unmodelled, s') => (Unmodelled, s')
    end.

(** [this.commonTechTerms]. *)
Definition readCommonTechTerms : M JSSet.t :=
  fun s => (Return (ResumeParser.commonTechTerms (instance s)), s).

(** [nlp(text)]. *)
Definition callNlp (text : string) : M Compromise.Document :=
  fun s =>
    let (doc, a) := nlpCall (analyzer s) text in
    (Return doc, mkStore (instance s) a (regExps s)).

(** [new RegExp(source, 'gi')]: a new object, [lastIndex] 0, unless the
    constructor throws. *)
Definition newRegExp (source : string) : M nat :=
  fun s =>
    match RegExp.compile source with
    | RegExp.Regex p =>
        (Return (length (regExps s)),
         mkStore (instance s) (analyzer s) (regExps s ++ [mkRegExp p 0]))
    | RegExp.SyntaxError => (Throw (RegExpSyntaxError source), s)
    | RegExp.OutsideFragment => (Unmodelled, s)
    end.

Fixpoint setLastIndex (l : list RegExpObject) (ref index : nat)
  : list RegExpObject :=
  match l, ref with
  | [], _ => []
  | re :: l', 0 => mkRegExp (pattern re) index :: l'
  | re :: l', S ref' => re :: setLastIndex l' ref' index
  end.

(** The matches that calls of [RegExp.prototype.exec] find one after the
    other, the first call starting at the [lastIndex] of the object:
    none when [lastIndex] is beyond the end of the subject. *)
Definition execAll (re : RegExpObject) (subject : string) : nat :=
  if String.length subject <? lastIndex re then 0
  else RegExp.countMatches (pattern re) (skipString (lastIndex re) subject) 0.

(** [(subject.match(re) || []).length] for a global [re]:
    [RegExp.prototype[Symbol.match]] sets [lastIndex] to 0, calls [exec]
    until it fails, and the failing call sets [lastIndex] to 0 again. *)
Definition stringMatch (subject : string) (ref : nat) : M nat :=
  fun s =>
    match nth_error (regExps s) ref with
    | Some re =>
        let re := mkRegExp (pattern re) 0 in
        (Return (execAll re subject),
         mkStore (instance s) (analyzer s) (setLastIndex (regExps s) ref 0))
    | None => (Unmodelled, s)
    end.

(** [arr.forEach(f)] on the store. *)
Fixpoint forEachS {A S : Type} (f : S -> A -> M S) (l : list A) (acc : S) : M S :=
  match l with
  | [] => ret acc
  | x :: l' => bindM (f acc x) (fun acc' => forEachS f l' acc')
  end.

Definition parseResume (content : string) : M ResumeParser.Profile :=
  bindM (callNlp (JSString.toLowerCase content)) (fun doc =>
  bindM (forEachS
           (fun skills word =>
              bindM readCommonTechTerms (fun terms =>
              ret (if JSSet.has terms word then JSSet.add skills word else skills)))
           (JSString.split (JSString.toLowerCase content)) JSSet.empty)
        (fun skills =>
  bindM (forEachS
           (fun skills term =>
              ret (JSSet.add skills
                     (JSString.toLowerCase (Compromise.termText term))))
           (Compromise.keep (Compromise.Words ResumeParser.cueWords)
              (Compromise.matchTerms (Compromise.HasTag Compromise.Noun) doc))
           skills)
        (fun skills =>
  bindM (forEachS
           (fun skills term =>
              let text := JSString.toLowerCase (Compromise.termText term) in
              bindM readCommonTechTerms (fun terms =>
              ret (if JSSet.has terms text then JSSet.add skills text else skills)))
           (Compromise.not (Compromise.HasTag Compromise.Organization)
              (Compromise.not (Compromise.HasTag Compromise.Place)
                 (Compromise.not (Compromise.HasTag Compromise.Person)
                    (Compromise.matchTerms
                       (Compromise.HasTag Compromise.ProperNoun) doc))))
           skills)
        (fun skills =>
  let experience := [] ++ ResumeParser.experienceSentences doc in
  let education := [] ++ ResumeParser.educationSentences doc in
  ret (ResumeParser.mkProfile (JSSet.toArray skills) experience education))))).

(** Lines 153-163: the [forEach] callback, on the running [score]. *)
Definition addBonuses (normalizedContent : string) (score : float)
  (skill : string) : M float :=
  bindM (newRegExp (JSString.toLowerCase skill)) (fun skillRegex =>
  bindM (stringMatch normalizedContent skillRegex) (fun matches =>
  let score := if 1 <? matches then (score + 0.2)%float else score in
  let score :=
    if JSString.includes normalizedContent
         ("experience in " ++ JSString.toLowerCase skill)%string
    then (score + 0.3)%float else score in
  ret score)).

Definition scoreResume (content : string) (requiredSkills : list string) : M float :=
  bindM (parseResume content) (fun profile =>
  let skills := ResumeParser.skills profile in
  let normalizedContent := JSString.toLowerCase content in
  let score := 0%float in
  let matchedSkills :=
    filter (ResumeParser.isMatched skills normalizedContent) requiredSkills in
  let score :=
    (score + (JSNumber.ofNat (length matchedSkills)
              / JSNumber.ofNat (length requiredSkills)) * 7)%float in
  bindM (forEachS (addBonuses normalizedContent) requiredSkills score)
        (fun score =>
  ret (JSNumber.Math_min (JSNumber.Math_round (score * 10) / 10) 10)%float)).

(** The calls a page makes on the instance, and the store they leave. *)
Inductive Call :=
| ParseResume (content : string)
| ScoreResume (content : string) (requiredSkills : list string).

Definition storeAfter (call : Call) (s : Store) : Store :=
  match call with
  | ParseResume content => snd (parseResume content s)
  | ScoreResume content requiredSkills => snd (scoreResume content requiredSkills s)
  end.

Definition after (history : list Call) (s : Store) : Store :=
  fold_left (fun s call => storeAfter call s) history s.

End Calls.

End Session.

(** An analyzer with a state: it counts its calls. *)
#[export] Instance countingAnalyzer : Session.StatefulAnalyzer := {|
  Session.AnalyzerState := nat;
  Session.nlpCall := fun calls text => (WordAnalyzer.analyze text, S calls)
|}.

(** ** Rounding to nearest, ties to even

    The vocabulary of the monotonicity of binary64 arithmetic: the place
    of a real number between two multiples of a power of 2, as
    [binary_round_aux] keeps track of it, and the float a real number
    rounds to. *)

Section NearestEven.

Local Open Scope Z_scope.

Definition bpow (e : Z) : R := powerRZ 2 e.

(** The real [v] lies where [(m, e, l)] says: at [m * 2^e], or in the
    lower half, the middle or the upper half of the interval up to
    [(m + 1) * 2^e]. *)
Definition located (m e : Z) (l : location) (v : R) : Prop :=
  match l with
  | loc_Exact => v = (IZR m * bpow e)%R
  | loc_Inexact Lt => (IZR m * bpow e < v < (IZR m + / 2) * bpow e)%R
  | loc_Inexact Eq => v = ((IZR m + / 2) * bpow e)%R
  | loc_Inexact Gt => ((IZR m + / 2) * bpow e < v < (IZR m + 1) * bpow e)%R
  end.

Definition locatedRecord (mrs : shr_record) (e : Z) (v : R) : Prop :=
  0 <= shr_m mrs /\ located (shr_m mrs) e (loc_of_shr_record mrs) v.

(** The float [binary_round_aux] builds from the rounded mantissa [n] at
    the exponent [E]. *)
Definition pack (n E : Z) : spec_float :=
  if n =? 0 then S754_zero false
  else if n <? 2 ^ prec
  then if E <=? emax - prec
       then S754_finite false (Z.to_pos n) E else S754_infinity false
  else if E + 1 <=? emax - prec
       then S754_finite false (Z.to_pos (2 ^ (prec - 1))) (E + 1)
       else S754_infinity false.

(** [r] is [v] rounded to nearest, ties to even: [E] is the exponent of
    the format at [v], [m] the integer part of [v / 2^E] and [l] the place
    of the rest. *)
Definition rounds (r : spec_float) (v : R) : Prop :=
  exists (E m : Z) (l : location),
    0 <= m /\ located m E l v /\
    SpecFloat.emin prec emax <= E /\
    (v < bpow (E + prec))%R /\
    (SpecFloat.emin prec emax < E -> (bpow (E + prec - 1) <= v)%R) /\
    r = pack (round_nearest_even m l) E.

(** The place of a float that is not negative in the order of [SFcompare]:
    its class, then its exponent, then its mantissa. *)
Definition rank (x : spec_float) : Z * Z * Z :=
  match x with
  | S754_finite _ m e => (1, e, Zpos m)
  | S754_infinity _ => (2, 0, 0)
  | _ => (0, 0, 0)
  end.

Definition rankLe (a b : Z * Z * Z) : Prop :=
  let '(a1, a2, a3) := a in
  let '(b1, b2, b3) := b in
  a1 < b1 \/ (a1 = b1 /\ (a2 < b2 \/ (a2 = b2 /\ a3 <= b3))).

End NearestEven.

(** ** The score and the number of matched skills *)

(** The number of required skills that [scoreResume] counts as matched
    (lines 146-149), given the skills of the profile. *)
Definition matchedCount (skills : list string) (content : string)
  (requiredSkills : list string) : nat :=
  length
    (filter (ResumeParser.isMatched skills (JSString.toLowerCase content))
       requiredSkills).

(** Two required skills earn the same bonus terms: the callback of the
    bonus loop does the same to every running score. *)
Definition sameBonuses (engine : AnyEngine.RegExpEngine) (content : string)
  (skill1 skill2 : string) : Prop :=
  forall score : float,
    AnyEngine.addBonuses engine (JSString.toLowerCase content) score skill1
    = AnyEngine.addBonuses engine (JSString.toLowerCase content) score skill2.

(** * Properties *)

(** ** Strings and sets *)

Lemma toLowerChar_idempotent (c : ascii) :
  JSString.toLowerChar (JSString.toLowerChar c) = JSString.toLowerChar c.
Proof. destruct c as [[] [] [] [] [] [] [] []]; reflexivity. Qed.

Lemma toLowerCase_idempotent (s : string) :
  JSString.toLowerCase (JSString.toLowerCase s) = JSString.toLowerCase s.
Proof.
  induction s as [|c s IH]; simpl; [reflexivity|].
  now rewrite toLowerChar_idempotent, IH.
Qed.

Lemma includes_In (l : list string) (x : string) :
  JSArray.includes l x = true <-> In x l.
Proof.
  induction l as [|y l IH]; simpl.
  - split; [discriminate | tauto].
  - rewrite orb_true_iff, IH, String.eqb_eq. tauto.
Qed.

Lemma lowerSet_empty : lowerSet JSSet.empty.
Proof. split; constructor. Qed.

Lemma lowerSet_add (s : JSSet.t) (x : string) :
  lowerSet s -> JSString.toLowerCase x = x -> lowerSet (JSSet.add s x).
Proof.
  intros [Hnd Hlow] Hx. unfold JSSet.add, JSSet.has.
  destruct (JSArray.includes s x) eqn:E; [now split|].
  assert (Hnotin : ~ In x s).
  { intro Hin. apply includes_In in Hin. congruence. }
  split.
  - apply NoDup_app; [assumption | repeat constructor; simpl; tauto |].
    intros y Hy [Hyx | []]. subst. contradiction.
  - apply Forall_app. split; [assumption | now repeat constructor].
Qed.

Lemma lowerSet_fold {A : Type} (f : JSSet.t -> A -> JSSet.t) (l : list A) :
  (forall s a, lowerSet s -> lowerSet (f s a)) ->
  forall s, lowerSet s -> lowerSet (fold_left f l s).
Proof.
  intros Hf. induction l as [|a l IH]; simpl; intros s Hs; [assumption|].
  apply IH, Hf, Hs.
Qed.

Lemma dictionary_lower (w : string) :
  JSSet.has (ResumeParser.commonTechTerms ResumeParser.new) w = true ->
  JSString.toLowerCase w = w.
Proof.
  unfold JSSet.has. rewrite includes_In. intros Hin.
  assert (Hall : forallb (fun x => String.eqb (JSString.toLowerCase x) x)
                   (ResumeParser.commonTechTerms ResumeParser.new) = true).
  { vm_compute. reflexivity. }
  rewrite forallb_forall in Hall. apply String.eqb_eq, Hall, Hin.
Qed.

(** ** The extraction [parseResume] *)

Section Extraction.

Context {TA : TextAnalyzer}.
Import ResumeParser Compromise.

Lemma addDictionaryWords_lower (content : string) (s : JSSet.t) :
  lowerSet s -> lowerSet (addDictionaryWords new content s).
Proof.
  unfold addDictionaryWords. apply lowerSet_fold. intros acc w Hacc.
  destruct (JSSet.has (commonTechTerms new) w) eqn:E; [|assumption].
  apply lowerSet_add; [assumption | now apply dictionary_lower].
Qed.

Lemma addTechTerms_lower (doc : Document) (s : JSSet.t) :
  lowerSet s -> lowerSet (addTechTerms doc s).
Proof.
  unfold addTechTerms. apply lowerSet_fold. intros acc term Hacc.
  apply lowerSet_add; [assumption | apply toLowerCase_idempotent].
Qed.

Lemma addCapitalizedTerms_lower (doc : Document) (s : JSSet.t) :
  lowerSet s -> lowerSet (addCapitalizedTerms new doc s).
Proof.
  unfold addCapitalizedTerms. apply lowerSet_fold. intros acc term Hacc.
  destruct (JSSet.has _ _) eqn:E; [|assumption].
  apply lowerSet_add; [assumption | apply toLowerCase_idempotent].
Qed.

(** C8. For every content string the skills of [parseResume] are in
    lower case (each equals its own lower-casing) and no string occurs
    twice among them. *)
Theorem parseResume_skills_lower_nodup (content : string) :
  exists profile,
    parseResume new content = Return profile /\
    Forall (fun skill => JSString.toLowerCase skill = skill) (skills profile) /\
    NoDup (skills profile).
Proof.
  eexists. split; [reflexivity|]. simpl. unfold JSSet.toArray.
  assert (H : lowerSet
                (addCapitalizedTerms new (nlp (JSString.toLowerCase content))
                   (addTechTerms (nlp (JSString.toLowerCase content))
                      (addDictionaryWords new content JSSet.empty)))).
  { apply addCapitalizedTerms_lower, addTechTerms_lower,
      addDictionaryWords_lower, lowerSet_empty. }
  destruct H as [Hnd Hlow]. now split.
Qed.

Lemma filter_twice {A : Type} (f g : A -> bool) (l : list A) :
  filter f (filter g l) = filter (fun x => g x && f x) l.
Proof.
  induction l as [|x l IH]; simpl; [reflexivity|].
  destruct (g x); simpl; [destruct (f x)|]; now rewrite IH.
Qed.

Lemma has_word (w : string) (ts : list Term) :
  has [Words [w]] ts = existsb (fun t => String.eqb w (normal t)) ts.
Proof.
  induction ts as [|t ts IH]; [reflexivity|].
  cbn [has existsb]. rewrite IH. cbn.
  now rewrite orb_false_r, andb_true_r.
Qed.

Lemma has_value_years (ts : list Term) :
  has [HasTag Value; Words ["years"]] ts = Spec.hasValueThenYears ts.
Proof.
  induction ts as [|t ts IH]; [reflexivity|].
  cbn [has]. rewrite IH. destruct ts as [|u ts]; cbn.
  - now rewrite andb_false_r.
  - now rewrite orb_false_r, andb_true_r.
Qed.

(** C6, as the source has it.  The experience mentions of [parseResume]
    are, in document order, the sentences of the lower-cased content in
    which a numeric value token is immediately followed by the word
    "years" and which contain the word "experience". *)
Theorem parseResume_experience (this : t) (content : string) :
  exists profile,
    parseResume this content = Return profile /\
    experience profile =
      map sentenceText
        (filter (fun s => Spec.hasValueThenYears (terms s)
                          && Spec.hasWord "experience" s)
           (nlp (JSString.toLowerCase content))).
Proof.
  eexists. split; [reflexivity|]. cbn [experience app].
  unfold experienceSentences, outArray, if_, sentences.
  rewrite filter_twice. f_equal. apply filter_ext. intros s.
  unfold Spec.hasWord. now rewrite has_word, has_value_years.
Qed.

(** C7. [parseResume] returns a profile on every string, and for an
    analyzer that finds no sentence in the empty text the profile of the
    empty string has no skill, no experience mention and no education
    mention. *)
Theorem parseResume_total_and_empty (Hnlp : nlp "" = []) :
  (forall content, exists profile, parseResume new content = Return profile) /\
  parseResume new "" = Return (mkProfile [] [] []).
Proof.
  split; [intros content; eexists; reflexivity|].
  unfold parseResume. cbn [JSString.toLowerCase]. rewrite Hnlp. reflexivity.
Qed.

End Extraction.

(** The sentence "i have 3 projects of experience." has a numeric value
    token and the word "experience", and [parseResume] does not list it. *)
Lemma parseResume_experience_needs_years :
  exists profile,
    ResumeParser.parseResume (TA := wordAnalyzer) ResumeParser.new
      "I have 3 projects of experience." = Return profile /\
    Spec.experienceMentions
      (nlp (JSString.toLowerCase "I have 3 projects of experience."))
    = ["i have 3 projects of experience."] /\
    ResumeParser.experience profile = [] /\
    ResumeParser.experience profile <>
    Spec.experienceMentions
      (nlp (JSString.toLowerCase "I have 3 projects of experience.")).
Proof.
  eexists. split; [reflexivity|]. split; [reflexivity|]. split; [reflexivity|].
  vm_compute. discriminate.
Qed.

Lemma parseResume_total_and_empty_witness :
  (forall content,
      exists profile,
        ResumeParser.parseResume (TA := wordAnalyzer) ResumeParser.new content
        = Return profile) /\
  ResumeParser.parseResume (TA := wordAnalyzer) ResumeParser.new ""
  = Return (ResumeParser.mkProfile [] [] []).
Proof. apply (parseResume_total_and_empty (TA := wordAnalyzer)). reflexivity. Defined.

(** ** Regular expressions built from skills *)

Lemma isSyntaxChar_toLowerChar (c : ascii) :
  RegExp.isSyntaxChar (JSString.toLowerChar c) = RegExp.isSyntaxChar c.
Proof. destruct c as [[] [] [] [] [] [] [] []]; reflexivity. Qed.

Lemma plainSkill_toLowerCase (s : string) :
  Spec.plainSkill (JSString.toLowerCase s) = Spec.plainSkill s.
Proof.
  unfold Spec.plainSkill. induction s as [|c s IH]; [reflexivity|].
  cbn [JSString.toLowerCase list_ascii_of_string forallb].
  now rewrite isSyntaxChar_toLowerChar, IH.
Qed.

Lemma plain_char (c : ascii) :
  RegExp.isSyntaxChar c = false ->
  RegExp.isQuantifierChar c = false /\
  RegExp.isOtherSyntaxChar c = false /\
  RegExp.atomOf c = RegExp.Lit c.
Proof.
  unfold RegExp.isSyntaxChar, RegExp.atomOf. intros H.
  apply orb_false_iff in H as [H Hdot].
  apply orb_false_iff in H as [Hq Ho].
  now rewrite Hdot.
Qed.

Lemma compile_plain (s : string) :
  Spec.plainSkill s = true -> RegExp.compile s = RegExp.Regex (literalPattern s).
Proof.
  unfold Spec.plainSkill, literalPattern.
  induction s as [|c s IH]; [reflexivity|].
  cbn [list_ascii_of_string forallb map]. intros H.
  apply andb_true_iff in H as [Hc Hs].
  apply negb_true_iff, plain_char in Hc as (Hq & Ho & Ha).
  cbn [RegExp.compile]. rewrite Hq, Ho, Ha.
  destruct s as [|q s']; [reflexivity|].
  assert (Hq' : RegExp.isQuantifierChar q = false).
  { cbn [list_ascii_of_string forallb] in Hs.
    apply andb_true_iff in Hs as [Hs _].
    now apply negb_true_iff, plain_char in Hs. }
  rewrite Hq'. now rewrite (IH Hs).
Qed.

(** ** The score [scoreResume] and the verdict [analyzeSuitability] *)

Section Scoring.

Context {TA : TextAnalyzer}.
Variable this : ResumeParser.t.
Import ResumeParser.

Lemma addBonuses_plain (normalizedContent : string) (score : float) (skill : string) :
  Spec.plainSkill skill = true ->
  exists score', addBonuses normalizedContent score skill = Return score'.
Proof.
  intros H. unfold addBonuses.
  rewrite compile_plain by now rewrite plainSkill_toLowerCase.
  eexists. reflexivity.
Qed.

Lemma forEach_addBonuses_plain (normalizedContent : string) (skills : list string) :
  forallb Spec.plainSkill skills = true ->
  forall score,
  exists score', forEachM (addBonuses normalizedContent) skills score = Return score'.
Proof.
  induction skills as [|skill skills IH]; intros H score.
  - eexists. reflexivity.
  - cbn [forallb] in H. apply andb_true_iff in H as [Hs Hrest].
    destruct (addBonuses_plain normalizedContent score skill Hs) as [s1 E].
    cbn [forEachM]. rewrite E. cbn [bind]. apply IH, Hrest.
Qed.

Lemma scoreResume_plain (content : string) (requiredSkills : list string) :
  forallb Spec.plainSkill requiredSkills = true ->
  exists score, scoreResume this content requiredSkills = Return score.
Proof.
  intros H. unfold scoreResume, parseResume. cbn [bind].
  match goal with
  | |- context [forEachM ?f ?l ?a] =>
      destruct (forEach_addBonuses_plain (JSString.toLowerCase content) l H a)
        as [s E]; rewrite E
  end.
  eexists. reflexivity.
Qed.

Lemma analyzeSuitability_returns
  (content : string) (requiredSkills : list string) (jobDescription : string) :
  (exists score, scoreResume this content requiredSkills = Return score) ->
  exists verdict,
    analyzeSuitability this content requiredSkills jobDescription = Return verdict.
Proof.
  intros [score E]. unfold analyzeSuitability. rewrite E.
  cbn [parseResume bind].
  repeat match goal with
         | |- context [if ?c then (_, _) else _] => destruct c
         end;
    eexists; reflexivity.
Qed.

(** C1, as the source has it.  For every content string, [scoreResume]
    with an empty [requiredSkills] throws nothing: it returns NaN, the
    ratio 0/0 carried through the rounding and the clamp. *)
Theorem scoreResume_empty_requiredSkills (content : string) :
  scoreResume this content [] = Return nan.
Proof. reflexivity. Qed.

(** C3, at the failing input.  For every content string, [scoreResume]
    with the required skill "c++" throws the syntax error of
    [new RegExp("c++", "gi")] and returns no score. *)
Theorem scoreResume_throws_on_cpp (content : string) :
  scoreResume this content ["c++"] = Throw (RegExpSyntaxError "c++").
Proof. reflexivity. Qed.

(** C4, as the source has it.  [parseResume] returns on every input;
    [scoreResume] and [analyzeSuitability] return whenever no required
    skill contains a syntax character of regular expressions, and in
    particular on an empty [requiredSkills], for which the source has no
    guard. *)
Theorem no_error_on_plain_skills
  (content : string) (requiredSkills : list string) (jobDescription : string)
  (Hplain : forallb Spec.plainSkill requiredSkills = true) :
  (exists profile, parseResume this content = Return profile) /\
  (exists score, scoreResume this content requiredSkills = Return score) /\
  (exists verdict,
      analyzeSuitability this content requiredSkills jobDescription
      = Return verdict) /\
  (exists score, scoreResume this content [] = Return score) /\
  (exists verdict,
      analyzeSuitability this content [] jobDescription = Return verdict).
Proof.
  split; [eexists; reflexivity|].
  split; [now apply scoreResume_plain|].
  split; [now apply analyzeSuitability_returns, scoreResume_plain|].
  split; [eexists; reflexivity|].
  apply analyzeSuitability_returns. eexists. reflexivity.
Qed.

(** C10. The outcome of [analyzeSuitability] (strengths, gaps and
    recommendation, or the exception) is the same for any two job
    descriptions. *)
Theorem analyzeSuitability_ignores_jobDescription
  (content : string) (requiredSkills : list string)
  (jobDescription1 jobDescription2 : string) :
  analyzeSuitability this content requiredSkills jobDescription1
  = analyzeSuitability this content requiredSkills jobDescription2.
Proof. reflexivity. Qed.

End Scoring.

(** ** Binary64 arithmetic: signs and integers *)

Section Binary64.

Local Open Scope Z_scope.

Lemma iter_pos_invariant {A : Type} (f : A -> A) (Inv : A -> Prop) :
(forall x, Inv x -> Inv (f x)) ->
forall n x, Inv x -> Inv (SpecFloat.iter_pos f n x).
Proof.
intros Hf. induction n as [n IH|n IH|]; intros x Hx; simpl; auto.
Qed.

Lemma shr_1_nonneg mrs : 0 <= shr_m mrs -> 0 <= shr_m (shr_1 mrs).
Proof.
destruct mrs as [m r s]. simpl. destruct m as [|[p|p|]|[p|p|]]; simpl; lia.
Qed.

Lemma shr_nonneg mrs e n : 0 <= shr_m mrs -> 0 <= shr_m (fst (shr mrs e n)).
Proof.
intros H. destruct n; simpl; try assumption.
now apply iter_pos_invariant; [apply shr_1_nonneg|].
Qed.

Lemma shr_record_of_loc_m m l : shr_m (shr_record_of_loc m l) = m.
Proof. destruct l as [|[]]; reflexivity. Qed.

Lemma shr_fexp_nonneg m e l :
0 <= m -> 0 <= shr_m (fst (shr_fexp prec emax m e l)).
Proof.
intros H. unfold shr_fexp. apply shr_nonneg. now rewrite shr_record_of_loc_m.
Qed.

Lemma round_nearest_even_nonneg m l : 0 <= m -> 0 <= round_nearest_even m l.
Proof.
intros H. destruct l as [|[]]; simpl; try lia. destruct (Z.even m); lia.
Qed.

Lemma binary_round_aux_nonneg m e l :
0 <= m -> nonnegSF (binary_round_aux prec emax false m e l) = true.
Proof.
intros H. unfold binary_round_aux.
pose proof (shr_fexp_nonneg m e l H) as H1.
destruct (shr_fexp prec emax m e l) as [mrs' e']. simpl in H1.
pose proof (shr_fexp_nonneg _ e' loc_Exact
              (round_nearest_even_nonneg _ (loc_of_shr_record mrs') H1)) as H2.
destruct (shr_fexp prec emax _ e' loc_Exact) as [mrs'' e'']. simpl in H2.
destruct (shr_m mrs''); try reflexivity; [|lia].
now destruct (e'' <=? emax - prec).
Qed.

Lemma binary_normalize_nonneg z e :
0 <= z -> nonnegSF (binary_normalize prec emax z e false) = true.
Proof.
intros H. destruct z as [|p|p]; [reflexivity| |lia].
unfold binary_normalize, binary_round.
destruct (shl_align p e _) as [mz ez]. now apply binary_round_aux_nonneg.
Qed.

Lemma SFadd_nonneg x y :
nonnegSF x = true -> nonnegSF y = true -> nonnegSF (SFadd prec emax x y) = true.
Proof.
destruct x as [sx|[]| |[] mx ex]; destruct y as [sy|[]| |[] my ey];
  try discriminate; intros _ _; try reflexivity.
- now destruct sx, sy.
- unfold SFadd. cbn [cond_Zopp]. now apply binary_normalize_nonneg.
Qed.

Lemma SFmul_nonneg x y :
nonnegSF x = true -> positiveFiniteSF y = true ->
nonnegSF (SFmul prec emax x y) = true.
Proof.
destruct x as [sx|[]| |[] mx ex]; destruct y as [sy|[]| |[] my ey];
  try discriminate; intros _ _; try reflexivity.
unfold SFmul. now apply binary_round_aux_nonneg.
Qed.

Lemma SFdiv_nonneg x y :
nonnegSF x = true -> positiveFiniteSF y = true ->
nonnegSF (SFdiv prec emax x y) = true.
Proof.
destruct x as [sx|[]| |[] mx ex]; destruct y as [sy|[]| |[] my ey];
  try discriminate; intros _ _; try reflexivity.
unfold SFdiv, SFdiv_core_binary.
set (m' := match _ - _ with Z0 => Z.pos mx | Zpos _ => _ | Zneg _ => 0 end).
assert (Hm' : 0 <= m').
{ subst m'. destruct (_ - _); try lia. apply Z.shiftl_nonneg. lia. }
pose proof (Z_div_mod m' (Z.pos my) ltac:(lia)) as Hdiv.
destruct (Z.div_eucl m' (Z.pos my)) as [q r].
apply binary_round_aux_nonneg. nia.
Qed.

Lemma digits2_pos_size p : digits2_pos p = Pos.size p.
Proof. induction p; simpl; congruence. Qed.

Lemma digits2_pos_gt p : Zpos p < 2 ^ Zpos (digits2_pos p).
Proof.
rewrite digits2_pos_size. pose proof (Pos.size_gt p) as H.
apply Pos2Z.pos_lt_pos in H. now rewrite Pos2Z.inj_pow in H.
Qed.

Lemma digits2_pos_le p : 2 ^ Zpos (digits2_pos p) <= 2 * Zpos p.
Proof.
rewrite digits2_pos_size. pose proof (Pos.size_le p) as H.
apply Pos2Z.pos_le_pos in H. now rewrite Pos2Z.inj_pow in H.
Qed.

Lemma iter_xO_mul p k : Zpos (Pos.iter xO p k) = Zpos p * 2 ^ Zpos k.
Proof.
induction k as [|k IH] using Pos.peano_ind.
- simpl. lia.
- rewrite Pos.iter_succ, Pos2Z.inj_succ, Z.pow_succ_r by lia.
  rewrite Pos2Z.inj_xO, IH. lia.
Qed.

Lemma digits2_pos_iter_xO p k :
digits2_pos (Pos.iter xO p k) = (digits2_pos p + k)%positive.
Proof.
induction k as [|k IH] using Pos.peano_ind.
- simpl. lia.
- rewrite Pos.iter_succ. simpl. rewrite IH. lia.
Qed.

Lemma binary_round_aux_canonical s m e :
digits2_pos m = 53%positive -> -1074 <= e <= 971 ->
binary_round_aux prec emax s (Zpos m) e loc_Exact = S754_finite s m e.
Proof.
intros Hd He. unfold binary_round_aux, shr_fexp.
cbn [Zdigits2 shr_record_of_loc]. rewrite Hd.
assert (Hf : fexp prec emax (53 + e) - e = 0).
{ unfold fexp, SpecFloat.emin, prec, emax. lia. }
rewrite Hf. cbn [shr shr_m loc_of_shr_record round_nearest_even Zdigits2].
rewrite Hd, Hf. cbn [shr shr_m].
replace (e <=? emax - prec) with true; [reflexivity|].
symmetry. apply Z.leb_le. unfold prec, emax. lia.
Qed.

Lemma shr_exponent mrs e n : e <= snd (shr mrs e n).
Proof. destruct n; simpl; lia. Qed.

Lemma binary_round_aux_exponent s m e l s' m' e' :
binary_round_aux prec emax s m e l = S754_finite s' m' e' -> e <= e'.
Proof.
unfold binary_round_aux, shr_fexp.
match goal with |- context [shr ?a e ?n] =>
  pose proof (shr_exponent a e n) as H1; destruct (shr a e n) as [mrs1 e1] end.
match goal with |- context [shr ?a e1 ?n] =>
  pose proof (shr_exponent a e1 n) as H2; destruct (shr a e1 n) as [mrs2 e2] end.
simpl in H1, H2.
destruct (shr_m mrs2); try discriminate.
destruct (e2 <=? emax - prec); try discriminate.
intros [= _ _ <-]. lia.
Qed.

(** Rounding a positive integer: the cases of [binary_round s p 0]. *)
Lemma binary_round_small s p :
Zpos p < 2 ^ 53 ->
exists m e, binary_round prec emax s p 0 = S754_finite s m e /\
            -52 <= e <= 0 /\ Zpos m = Zpos p * 2 ^ (- e).
Proof.
intros Hp. pose proof (digits2_pos_le p) as Hle.
assert (Hd : Zpos (digits2_pos p) <= 53).
{ destruct (Z_le_gt_dec (Zpos (digits2_pos p)) 53) as [|Hgt]; [assumption|].
  assert (2 ^ 54 <= 2 ^ Zpos (digits2_pos p)) by (apply Z.pow_le_mono_r; lia).
  lia. }
unfold binary_round.
assert (Hf : fexp prec emax (Zpos (digits2_pos p) + 0) = Zpos (digits2_pos p) - 53).
{ unfold fexp, SpecFloat.emin, prec, emax. lia. }
rewrite Hf. unfold shl_align.
destruct (Zpos (digits2_pos p) - 53 - 0) as [|k|k] eqn:Ek; try lia.
- exists p, 0. split; [|split; [lia|simpl; lia]].
  apply binary_round_aux_canonical; [lia|lia].
- exists (Pos.iter xO p k), (Zpos (digits2_pos p) - 53).
  split; [|split; [lia|]].
  + apply binary_round_aux_canonical; [|lia].
    rewrite digits2_pos_iter_xO. lia.
  + rewrite iter_xO_mul. f_equal. f_equal. lia.
Qed.

Lemma binary_round_integer s p :
let r := binary_round prec emax s p 0 in
match r with
| S754_finite _ _ _ => JSNumber.integerSF r = true
| _ => True
end.
Proof.
destruct (Z_lt_le_dec (Zpos p) (2 ^ 53)) as [Hsmall|Hbig].
- destruct (binary_round_small s p Hsmall) as (m & e & E & He & Hm).
  cbv zeta. rewrite E. unfold JSNumber.integerSF. rewrite Hm.
  rewrite Z_mod_mult. now rewrite orb_true_r.
- cbv zeta. unfold binary_round.
  assert (Hd : 53 < Zpos (digits2_pos p)).
  { pose proof (digits2_pos_gt p).
    destruct (Z_lt_le_dec 53 (Zpos (digits2_pos p))) as [|Hle]; [assumption|].
    assert (2 ^ Zpos (digits2_pos p) <= 2 ^ 53) by (apply Z.pow_le_mono_r; lia).
    lia. }
  assert (Hf : fexp prec emax (Zpos (digits2_pos p) + 0) = Zpos (digits2_pos p) - 53).
  { unfold fexp, SpecFloat.emin, prec, emax. lia. }
  rewrite Hf. unfold shl_align.
  destruct (Zpos (digits2_pos p) - 53 - 0) as [|k|k] eqn:Ek; try lia.
  destruct (binary_round_aux prec emax s (Zpos p) 0 loc_Exact) eqn:E; trivial.
  apply binary_round_aux_exponent in E. unfold JSNumber.integerSF.
  replace (0 <=? e) with true; [reflexivity|]. symmetry. now apply Z.leb_le.
Qed.

Lemma nonneg_add (x y : float) : nonneg x -> nonneg y -> nonneg (x + y)%float.
Proof. unfold nonneg. rewrite FloatAxioms.add_spec. apply SFadd_nonneg. Qed.

Lemma nonneg_mul (x y : float) :
nonneg x -> positiveFinite y -> nonneg (x * y)%float.
Proof. unfold nonneg, positiveFinite. rewrite FloatAxioms.mul_spec. apply SFmul_nonneg. Qed.

Lemma nonneg_div (x y : float) :
nonneg x -> positiveFinite y -> nonneg (x / y)%float.
Proof. unfold nonneg, positiveFinite. rewrite FloatAxioms.div_spec. apply SFdiv_nonneg. Qed.

Lemma nonneg_of_uint63 (i : int) : nonneg (of_uint63 i).
Proof.
unfold nonneg. rewrite of_uint63_spec. apply binary_normalize_nonneg.
apply (proj1 (Uint63.to_Z_bounded i)).
Qed.

Lemma to_Z_of_nat (n : nat) :
Z.of_nat n < 2 ^ 32 -> Uint63.to_Z (Uint63.of_Z (Z.of_nat n)) = Z.of_nat n.
Proof.
intros H. rewrite Uint63.of_Z_spec. apply Z.mod_small.
change wB with (2 ^ 63). lia.
Qed.

Lemma positiveFinite_ofNat (n : nat) :
(0 < n)%nat -> Z.of_nat n < 2 ^ 32 -> positiveFinite (JSNumber.ofNat n).
Proof.
intros Hpos Hlt. unfold positiveFinite, JSNumber.ofNat.
rewrite of_uint63_spec, to_Z_of_nat by assumption.
destruct (Z.of_nat n) as [|p|p] eqn:E; try lia.
cbn [binary_normalize].
destruct (binary_round_small false p) as (m & e & Er & _); [lia|].
now rewrite Er.
Qed.

Lemma integer_of_uint63 (i : int) :
JSNumber.isInteger (of_uint63 i) = true \/
Prim2SF (of_uint63 i) = S754_infinity false.
Proof.
unfold JSNumber.isInteger. rewrite of_uint63_spec.
pose proof (proj1 (Uint63.to_Z_bounded i)) as Hi.
destruct (Uint63.to_Z i) as [|p|p]; [now left| |lia].
cbn [binary_normalize].
pose proof (binary_round_integer false p) as Hint.
pose proof (binary_normalize_nonneg (Zpos p) 0 ltac:(lia)) as Hsign.
cbn [binary_normalize] in Hsign. cbv zeta in Hint.
destruct (binary_round prec emax false p 0) as [s|[]| |s m e];
  try discriminate; auto.
Qed.

(** [Math.round] of a value that is not negative: not negative, and an
  integer unless it is +infinity. *)
Lemma Math_round_nonneg (x : float) :
nonneg x ->
nonneg (JSNumber.Math_round x) /\
(JSNumber.isInteger (JSNumber.Math_round x) = true \/
 Prim2SF (JSNumber.Math_round x) = S754_infinity false).
Proof.
unfold nonneg, JSNumber.Math_round, JSNumber.isInteger. intros Hx.
destruct (Prim2SF x) as [s|[]| |[] m e] eqn:Ex; try discriminate;
  cbv beta iota.
- rewrite Ex. split; [reflexivity | now left].
- rewrite Ex. split; [reflexivity | now right].
- destruct (0 <=? e) eqn:He.
  + rewrite Ex. split; [reflexivity|]. left. cbn. now rewrite He.
  + split; [apply nonneg_of_uint63 | apply integer_of_uint63].
Qed.

Lemma compare_refl_nonneg x :
nonnegSF x = true -> SFcompare x x = Some Eq.
Proof.
destruct x as [s|[]| |[] m e]; try discriminate; intros _; try reflexivity.
cbn. now rewrite Z.compare_refl, Pcompare_refl.
Qed.

Lemma is_nan_nonneg (x : float) : nonneg x -> is_nan x = false.
Proof.
unfold nonneg, is_nan. intros H. rewrite FloatAxioms.eqb_spec. unfold SFeqb.
now rewrite compare_refl_nonneg.
Qed.

Lemma le_zero_nonneg (x : float) : nonneg x -> JSNumber.le 0 x = true.
Proof.
unfold nonneg, JSNumber.le. rewrite FloatAxioms.leb_spec.
change (Prim2SF 0) with (S754_zero false).
now destruct (Prim2SF x) as [s|[]| |[] m e].
Qed.

Lemma ltb_leb (x y : float) : PrimFloat.ltb x y = true -> PrimFloat.leb x y = true.
Proof.
rewrite FloatAxioms.ltb_spec, FloatAxioms.leb_spec. unfold SFltb, SFleb.
now destruct (SFcompare _ _) as [[]|].
Qed.

Lemma SFltb_total_finite (x : spec_float) (m : positive) (e : Z) :
nonnegSF x = true ->
SFltb x (S754_finite false m e) = false ->
SFltb (S754_finite false m e) x = false ->
x = S754_finite false m e.
Proof.
unfold SFltb.
destruct x as [s|[]| |[] mx ex]; try discriminate; intros _.
cbn [SFcompare].
destruct (ex ?= e) eqn:Ee; try discriminate.
- apply Z.compare_eq in Ee. subst ex. rewrite Z.compare_refl.
  destruct (Pos.compare_cont Eq mx m) eqn:Em; try discriminate.
  + apply Pcompare_Eq_eq in Em. now subst mx.
  + intros _. rewrite ZC4, Em. discriminate.
- intros _. rewrite Z.compare_antisym, Ee. discriminate.
Qed.

(** [Math.min(x, 10)] for [x] not negative is [x] when [x < 10], and 10
  otherwise. *)
Lemma Math_min_ten (x : float) :
nonneg x ->
(PrimFloat.ltb x 10 = true /\ JSNumber.Math_min x 10 = x) \/
JSNumber.Math_min x 10 = 10%float.
Proof.
intros Hx. unfold JSNumber.Math_min.
rewrite (is_nan_nonneg x Hx). change (is_nan 10) with false. cbn [orb].
destruct (PrimFloat.ltb x 10) eqn:E1; [now left|]. right.
destruct (PrimFloat.ltb 10 x) eqn:E2; [reflexivity|].
destruct (get_sign x) eqn:E3; [|reflexivity].
apply Prim2SF_inj.
rewrite FloatAxioms.ltb_spec in E1, E2.
assert (E10 : Prim2SF 10 = S754_finite false 5629499534213120 (-49))
  by (vm_compute; reflexivity).
rewrite E10 in *. now apply SFltb_total_finite.
Qed.

End Binary64.

(** ** Binary64 arithmetic is monotone

    Every operation of [SpecFloat] on floats that are not negative rounds
    the exact result to nearest, and rounding is monotone. *)

Section Powers.

Local Open Scope Z_scope.

Lemma bpow_pos e : (0 < bpow e)%R.
Proof. apply powerRZ_lt. lra. Qed.

Lemma bpow_add a b : bpow (a + b) = (bpow a * bpow b)%R.
Proof. apply powerRZ_add. lra. Qed.

Lemma bpow_succ e : bpow (e + 1) = (2 * bpow e)%R.
Proof. rewrite bpow_add. unfold bpow at 2. rewrite powerRZ_1. lra. Qed.

Lemma bpow_IZR n : 0 <= n -> bpow n = IZR (2 ^ n).
Proof.
  intros H. unfold bpow. rewrite <- (Z2Nat.id n H) at 1.
  rewrite <- pow_powerRZ, pow_IZR. now rewrite Z2Nat.id.
Qed.

Lemma bpow_le a b : a <= b -> (bpow a <= bpow b)%R.
Proof.
  intros H. replace b with (a + (b - a)) by lia. rewrite bpow_add.
  rewrite (bpow_IZR (b - a)) by lia.
  assert (H1 : 1 <= 2 ^ (b - a)) by (apply Z.lt_pred_le, Z.pow_pos_nonneg; lia).
  apply IZR_le in H1. pose proof (bpow_pos a). nra.
Qed.

Lemma bpow_lt a b : a < b -> (bpow a < bpow b)%R.
Proof.
  intros H. apply Rlt_le_trans with (bpow (a + 1)); [|apply bpow_le; lia].
  rewrite bpow_succ. pose proof (bpow_pos a). lra.
Qed.

Lemma bpow_lt_inv a b : (bpow a < bpow b)%R -> a < b.
Proof.
  intros H. destruct (Z_lt_le_dec a b) as [|Hle]; [assumption|].
  apply bpow_le in Hle. lra.
Qed.

End Powers.

Section Shifts.

Local Open Scope Z_scope.

Lemma IZR_xO p : IZR (Zpos p~0) = (IZR (Zpos p) + IZR (Zpos p))%R.
Proof. rewrite <- plus_IZR. f_equal. lia. Qed.

Lemma IZR_xI p : IZR (Zpos p~1) = (IZR (Zpos p) + IZR (Zpos p) + 1)%R.
Proof. rewrite <- !plus_IZR. f_equal. lia. Qed.

Lemma located_shr_1 (mrs : shr_record) (e : Z) (v : R) :
  0 <= shr_m mrs ->
  located (shr_m mrs) e (loc_of_shr_record mrs) v ->
  located (shr_m (shr_1 mrs)) (e + 1) (loc_of_shr_record (shr_1 mrs)) v.
Proof.
  destruct mrs as [m r s]. cbn [shr_m]. intros Hm.
  pose proof (bpow_pos e) as Hb.
  destruct m as [|[p|p|]|p]; [| | | |lia];
    cbn [shr_1 shr_m];
    destruct r, s; cbn [located loc_of_shr_record orb];
    rewrite bpow_succ, ?(IZR_xO p), ?(IZR_xI p);
    set (b := bpow e) in *; try set (P := IZR (Zpos p));
    intros H; try split; lra.
Qed.

Lemma locatedRecord_shr_1 mrs e v :
  locatedRecord mrs e v -> locatedRecord (shr_1 mrs) (e + 1) v.
Proof.
  intros [Hm Hl]. split; [now apply shr_1_nonneg | now apply located_shr_1].
Qed.

Lemma locatedRecord_iter p :
  forall mrs e v,
    locatedRecord mrs e v -> locatedRecord (SpecFloat.iter_pos shr_1 p mrs) (e + Zpos p) v.
Proof.
  induction p as [p IH|p IH|]; intros mrs e v H; cbn [SpecFloat.iter_pos].
  - replace (e + Zpos p~1) with (e + 1 + Zpos p + Zpos p) by lia.
    now apply IH, IH, locatedRecord_shr_1.
  - replace (e + Zpos p~0) with (e + Zpos p + Zpos p) by lia.
    now apply IH, IH.
  - now apply locatedRecord_shr_1.
Qed.

Lemma loc_of_shr_record_of_loc m l :
  loc_of_shr_record (shr_record_of_loc m l) = l.
Proof. now destruct l as [|[]]. Qed.

(** Shifting to a larger exponent keeps the place of [v]. *)
Lemma located_shr m e l n v :
  0 <= m -> located m e l v ->
  locatedRecord (fst (shr (shr_record_of_loc m l) e n))
    (snd (shr (shr_record_of_loc m l) e n)) v /\
  snd (shr (shr_record_of_loc m l) e n) = e + Z.max n 0.
Proof.
  intros Hm Hl.
  assert (H0 : locatedRecord (shr_record_of_loc m l) e v).
  { split; [now rewrite shr_record_of_loc_m|].
    now rewrite shr_record_of_loc_m, loc_of_shr_record_of_loc. }
  destruct n as [|p|p]; cbn [shr fst snd].
  - split; [assumption | lia].
  - split; [now apply locatedRecord_iter | lia].
  - split; [assumption | lia].
Qed.

(** What is known of [v] from its place. *)
Lemma located_bounds m e l v :
  located m e l v -> (IZR m * bpow e <= v < (IZR m + 1) * bpow e)%R.
Proof.
  pose proof (bpow_pos e). destruct l as [|[]]; cbn [located]; lra.
Qed.

End Shifts.

Section Rounds.

Local Open Scope Z_scope.

Lemma Zdigits2_bounds m :
  0 < m -> 2 ^ (Zdigits2 m - 1) <= m < 2 ^ Zdigits2 m.
Proof.
  destruct m as [|p|p]; try lia. intros _. cbn [Zdigits2].
  pose proof (digits2_pos_gt p). pose proof (digits2_pos_le p).
  split; [|assumption].
  assert (2 ^ Zpos (digits2_pos p) = 2 * 2 ^ (Zpos (digits2_pos p) - 1)).
  { rewrite <- Z.pow_succ_r by lia. f_equal. lia. }
  lia.
Qed.

Lemma Zdigits2_le m k : 0 <= k -> 0 <= m < 2 ^ k -> Zdigits2 m <= k.
Proof.
  intros Hk [H0 Hm]. destruct (Z.eq_dec m 0) as [->|Hne]; [cbn; lia|].
  destruct (Zdigits2_bounds m) as [Hlo _]; [lia|].
  destruct (Z_le_gt_dec (Zdigits2 m) k) as [|Hgt]; [assumption|].
  assert (2 ^ k <= 2 ^ (Zdigits2 m - 1)) by (apply Z.pow_le_mono_r; lia).
  lia.
Qed.

Lemma IZR_bpow_lt m k e :
  0 <= k -> (IZR m * bpow e < bpow (e + k))%R -> m < 2 ^ k.
Proof.
  intros Hk H. rewrite bpow_add, (bpow_IZR k Hk) in H.
  pose proof (bpow_pos e). apply lt_IZR. nra.
Qed.

Lemma round_nearest_even_bounds m l :
  m <= round_nearest_even m l <= m + 1.
Proof. destruct l as [|[]]; cbn; try destruct (Z.even m); lia. Qed.

(** The second shift of [binary_round_aux]: the rounded mantissa fits, or
    is 2^53 and is shifted once. *)
Lemma binary_round_aux_pack n E :
  SpecFloat.emin prec emax <= E -> 0 <= n <= 2 ^ prec ->
  match shr_m (fst (shr_fexp prec emax n E loc_Exact)) with
  | 0 => S754_zero false
  | Zpos m =>
      if snd (shr_fexp prec emax n E loc_Exact) <=? emax - prec
      then S754_finite false m (snd (shr_fexp prec emax n E loc_Exact))
      else S754_infinity false
  | Zneg _ => S754_nan
  end = pack n E.
Proof.
  intros HE Hn. unfold shr_fexp, pack.
  destruct (Z.eqb_spec n 0) as [->|Hn0].
  - cbn [Zdigits2 Z.add].
    assert (Hs : fexp prec emax E - E <= 0) by (unfold fexp, prec in *; lia).
    destruct (fexp prec emax E - E); try lia; reflexivity.
  - destruct (Z.ltb_spec n (2 ^ prec)) as [Hlt|Hge].
    + assert (Hd : Zdigits2 n <= prec)
        by (apply Zdigits2_le; [unfold prec|]; lia).
      assert (Hs : fexp prec emax (Zdigits2 n + E) - E <= 0)
        by (unfold fexp in *; lia).
      destruct (fexp prec emax (Zdigits2 n + E) - E) eqn:Es; try lia;
        cbn [shr fst snd shr_record_of_loc shr_m];
        destruct n; try lia; reflexivity.
    + assert (n = 2 ^ prec) as -> by lia.
      change (Zdigits2 (2 ^ prec)) with 54.
      assert (Hs : fexp prec emax (54 + E) - E = 1)
        by (unfold fexp, prec in *; lia).
      rewrite Hs. reflexivity.
Qed.

Lemma binary_round_aux_rounds m e l v :
  0 <= m -> located m e l v ->
  e <= fexp prec emax (Zdigits2 m + e) ->
  rounds (binary_round_aux prec emax false m e l) v.
Proof.
  intros Hm Hl He. unfold binary_round_aux.
  set (n := fexp prec emax (Zdigits2 m + e) - e).
  destruct (located_shr m e l n v Hm Hl) as [[Hm' Hl'] HE].
  unfold shr_fexp at 1. fold n.
  destruct (shr (shr_record_of_loc m l) e n) as [mrs' E]. cbn [fst snd] in *.
  assert (EE : E = fexp prec emax (Zdigits2 m + e)) by (unfold n in HE; lia).
  clear HE. pose proof (located_bounds _ _ _ _ Hl) as [Hlo Hhi].
  pose proof (bpow_pos e) as Hbe.
  assert (Hmin : SpecFloat.emin prec emax <= E)
    by (rewrite EE; unfold fexp; lia).
  assert (Hup : (v < bpow (E + prec))%R).
  { destruct (Z.eq_dec m 0) as [->|Hne].
    - apply Rlt_le_trans with (bpow e); [lra|].
      apply bpow_le. unfold prec. lia.
    - destruct (Zdigits2_bounds m) as [_ Hd]; [lia|].
      apply Rlt_le_trans with (bpow (Zdigits2 m + e)).
      + rewrite Z.add_comm, bpow_add.
        assert (Hd0 : 0 <= Zdigits2 m) by (destruct m; cbn [Zdigits2]; lia).
        rewrite (bpow_IZR _ Hd0).
        assert (IZR m + 1 <= IZR (2 ^ Zdigits2 m))%R
          by (rewrite <- plus_IZR; apply IZR_le; lia).
        nra.
      + apply bpow_le. rewrite EE. unfold fexp. lia. }
  assert (Hdown : SpecFloat.emin prec emax < E -> (bpow (E + prec - 1) <= v)%R).
  { intros HE.
    destruct (Z.eq_dec m 0) as [->|Hne].
    - exfalso. clear - EE He HE. change (Zdigits2 0 + e) with e in *.
      unfold fexp, prec in *. lia.
    - destruct (Zdigits2_bounds m) as [Hd _]; [lia|].
      assert (Hd1 : 0 <= Zdigits2 m - 1) by (destruct m; cbn [Zdigits2]; lia).
      replace (E + prec - 1) with (e + (Zdigits2 m - 1))
        by (rewrite EE in *; unfold fexp in *; lia).
      rewrite bpow_add, (bpow_IZR _ Hd1).
      apply IZR_le in Hd. nra. }
  exists E, (shr_m mrs'), (loc_of_shr_record mrs').
  repeat (split; [assumption|]).
  set (n' := round_nearest_even (shr_m mrs') (loc_of_shr_record mrs')).
  assert (Hn' : 0 <= n' <= 2 ^ prec).
  { pose proof (round_nearest_even_bounds (shr_m mrs') (loc_of_shr_record mrs')).
    pose proof (located_bounds _ _ _ _ Hl') as [Hlo' _].
    assert (shr_m mrs' < 2 ^ prec).
    { apply (IZR_bpow_lt _ _ E); [unfold prec; lia | lra]. }
    fold n' in H. lia. }
  rewrite <- (binary_round_aux_pack n' E Hmin Hn').
  destruct (shr_fexp prec emax n' E loc_Exact) as [mrs'' e'']. reflexivity.
Qed.

End Rounds.

Section Monotone.

Local Open Scope Z_scope.

Lemma located_round_mono m1 m2 E l1 l2 v1 v2 :
  located m1 E l1 v1 -> located m2 E l2 v2 -> (v1 <= v2)%R ->
  round_nearest_even m1 l1 <= round_nearest_even m2 l2.
Proof.
  intros H1 H2 Hv.
  pose proof (located_bounds _ _ _ _ H1) as [Hlo1 _].
  pose proof (located_bounds _ _ _ _ H2) as [_ Hhi2].
  pose proof (bpow_pos E) as Hb.
  assert (Hm : m1 < m2 + 1).
  { apply lt_IZR. rewrite plus_IZR. nra. }
  pose proof (round_nearest_even_bounds m1 l1).
  pose proof (round_nearest_even_bounds m2 l2).
  destruct (Z.eq_dec m1 m2) as [->|Hne]; [|lia].
  clear - H1 H2 Hv Hb.
  destruct l1 as [|[]], l2 as [|[]]; cbn [located round_nearest_even] in *;
    try destruct (Z.even m2); try lia; exfalso; lra.
Qed.

Lemma pack_mono_same n1 n2 E :
  0 <= n1 -> n1 <= n2 -> n2 <= 2 ^ prec ->
  SFleb (pack n1 E) (pack n2 E) = true.
Proof.
  intros H0 H12 H2. unfold pack.
  assert (Hp : 0 < 2 ^ (prec - 1) < 2 ^ prec) by (vm_compute; split; reflexivity).
  set (P := 2 ^ prec) in *. set (Q := 2 ^ (prec - 1)) in *.
  destruct (Z.eqb_spec n1 0) as [->|Hn1].
  - destruct (Z.eqb_spec n2 0); [reflexivity|].
    destruct (n2 <? P);
      [destruct (E <=? emax - prec) | destruct (E + 1 <=? emax - prec)];
      reflexivity.
  - destruct (Z.eqb_spec n2 0) as [->|Hn2]; [lia|].
    destruct (Z.ltb_spec n1 P) as [Hl1|Hl1];
      destruct (Z.ltb_spec n2 P) as [Hl2|Hl2]; try lia.
    + destruct (E <=? emax - prec); [|reflexivity].
      unfold SFleb, SFcompare. rewrite Z.compare_refl.
      rewrite Pos.compare_cont_spec. cbn [Pos.switch_Eq].
      rewrite <- Z2Pos.inj_compare by lia.
      destruct (Z.compare_spec n1 n2); try reflexivity; lia.
    + destruct (Z.leb_spec (E + 1) (emax - prec)) as [HE|HE].
      * replace (E <=? emax - prec) with true by (symmetry; apply Z.leb_le; lia).
        unfold SFleb, SFcompare.
        replace (E ?= E + 1) with Lt by (symmetry; apply Z.compare_lt_iff; lia).
        reflexivity.
      * destruct (E <=? emax - prec); reflexivity.
    + destruct (E + 1 <=? emax - prec); [|reflexivity].
      unfold SFleb, SFcompare. rewrite Z.compare_refl.
      rewrite Pos.compare_cont_spec. cbn [Pos.switch_Eq].
      now rewrite Pos.compare_refl.
Qed.

Lemma pack_mono_lt n1 n2 E1 E2 :
  E1 < E2 -> 0 <= n1 <= 2 ^ prec -> 2 ^ (prec - 1) <= n2 <= 2 ^ prec ->
  SFleb (pack n1 E1) (pack n2 E2) = true.
Proof.
  intros HE H1 H2. unfold pack.
  assert (Hp : 0 < 2 ^ (prec - 1) < 2 ^ prec) by (vm_compute; split; reflexivity).
  set (P := 2 ^ prec) in *. set (Q := 2 ^ (prec - 1)) in *.
  destruct (Z.eqb_spec n2 0) as [->|Hn2]; [lia|].
  destruct (Z.eqb_spec n1 0) as [->|Hn1].
  - destruct (n2 <? P);
      [destruct (E2 <=? emax - prec) | destruct (E2 + 1 <=? emax - prec)];
      reflexivity.
  - destruct (Z.ltb_spec n1 P) as [Hl1|Hl1];
      destruct (Z.ltb_spec n2 P) as [Hl2|Hl2].
    + destruct (Z.leb_spec E2 (emax - prec)) as [HE2|HE2].
      * replace (E1 <=? emax - prec) with true by (symmetry; apply Z.leb_le; lia).
        unfold SFleb, SFcompare.
        replace (E1 ?= E2) with Lt by (symmetry; apply Z.compare_lt_iff; lia).
        reflexivity.
      * destruct (E1 <=? emax - prec); reflexivity.
    + destruct (Z.leb_spec (E2 + 1) (emax - prec)) as [HE2|HE2].
      * replace (E1 <=? emax - prec) with true by (symmetry; apply Z.leb_le; lia).
        unfold SFleb, SFcompare.
        replace (E1 ?= E2 + 1) with Lt by (symmetry; apply Z.compare_lt_iff; lia).
        reflexivity.
      * destruct (E1 <=? emax - prec); reflexivity.
    + destruct (Z.leb_spec E2 (emax - prec)) as [HE2|HE2].
      * replace (E1 + 1 <=? emax - prec) with true
          by (symmetry; apply Z.leb_le; lia).
        unfold SFleb, SFcompare.
        destruct (Z.compare_spec (E1 + 1) E2) as [Heq|Hlt|Hgt];
          [|reflexivity|lia].
        rewrite Pos.compare_cont_spec. cbn [Pos.switch_Eq].
        rewrite <- Z2Pos.inj_compare by lia.
        destruct (Z.compare_spec Q n2); try reflexivity; lia.
      * destruct (E1 + 1 <=? emax - prec); reflexivity.
    + destruct (Z.leb_spec (E2 + 1) (emax - prec)) as [HE2|HE2].
      * replace (E1 + 1 <=? emax - prec) with true
          by (symmetry; apply Z.leb_le; lia).
        unfold SFleb, SFcompare.
        replace (E1 + 1 ?= E2 + 1) with Lt
          by (symmetry; apply Z.compare_lt_iff; lia).
        reflexivity.
      * destruct (E1 + 1 <=? emax - prec); reflexivity.
Qed.

Lemma rounds_mantissa E m l v :
  0 <= m -> located m E l v -> (v < bpow (E + prec))%R ->
  0 <= round_nearest_even m l <= 2 ^ prec.
Proof.
  intros Hm Hl Hv.
  pose proof (round_nearest_even_bounds m l).
  pose proof (located_bounds _ _ _ _ Hl) as [Hlo _].
  assert (m < 2 ^ prec).
  { apply (IZR_bpow_lt _ _ E); [unfold prec; lia | lra]. }
  lia.
Qed.

(** Rounding is monotone. *)
Theorem rounds_mono r1 r2 v1 v2 :
  rounds r1 v1 -> rounds r2 v2 -> (v1 <= v2)%R -> SFleb r1 r2 = true.
Proof.
  intros (E1 & m1 & l1 & Hm1 & Hl1 & Hmin1 & Hup1 & Hdown1 & ->)
         (E2 & m2 & l2 & Hm2 & Hl2 & Hmin2 & Hup2 & Hdown2 & ->) Hv.
  pose proof (rounds_mantissa _ _ _ _ Hm1 Hl1 Hup1) as Hn1.
  pose proof (rounds_mantissa _ _ _ _ Hm2 Hl2 Hup2) as Hn2.
  assert (HE : E1 <= E2).
  { destruct (Z_le_gt_dec E1 E2) as [|Hgt]; [assumption|].
    assert (Hlt : (bpow (E1 + prec - 1) < bpow (E2 + prec))%R).
    { apply Rle_lt_trans with v1; [apply Hdown1; lia|]. lra. }
    apply bpow_lt_inv in Hlt. lia. }
  destruct (Z.eq_dec E1 E2) as [->|Hne].
  - apply pack_mono_same; try lia.
    now apply (located_round_mono _ _ E2 _ _ v1 v2).
  - apply pack_mono_lt; try lia.
    split; [|lia].
    pose proof (round_nearest_even_bounds m2 l2).
    pose proof (located_bounds _ _ _ _ Hl2) as [_ Hhi].
    assert (Hd : (bpow (E2 + prec - 1) <= v2)%R) by (apply Hdown2; lia).
    assert (2 ^ (prec - 1) < m2 + 1); [|lia].
    apply lt_IZR. rewrite plus_IZR.
    replace (E2 + prec - 1) with (E2 + (prec - 1)) in Hd by lia.
    rewrite bpow_add, (bpow_IZR (prec - 1)) in Hd by (unfold prec; lia).
    pose proof (bpow_pos E2). nra.
Qed.

(** What rounds is not NaN and not negative. *)
Lemma rounds_nonneg r v : rounds r v -> nonnegSF r = true.
Proof.
  intros (E & m & l & _ & _ & _ & _ & _ & ->). unfold pack.
  repeat match goal with |- context [if ?c then _ else _] => destruct c end;
    reflexivity.
Qed.

End Monotone.

Section Operations.

Local Open Scope Z_scope.

Lemma bounded_facts m e :
  SpecFloat.bounded prec emax m e = true ->
  SpecFloat.emin prec emax <= e <= emax - prec /\
  Zpos (digits2_pos m) <= prec /\
  (Zpos (digits2_pos m) = prec \/ e = SpecFloat.emin prec emax).
Proof.
  unfold SpecFloat.bounded, canonical_mantissa. rewrite andb_true_iff.
  intros [Hc He]. apply Z.eqb_eq in Hc. apply Z.leb_le in He.
  unfold fexp in Hc. lia.
Qed.

(** A float of the format is its own rounding. *)
Lemma bounded_rounds m e :
  SpecFloat.bounded prec emax m e = true ->
  rounds (S754_finite false m e) (IZR (Zpos m) * bpow e).
Proof.
  intros Hb. destruct (bounded_facts m e Hb) as ([Hmin Hmax] & Hd & Hn).
  pose proof (digits2_pos_gt m) as Hgt. pose proof (digits2_pos_le m) as Hle.
  pose proof (bpow_pos e) as Hbe.
  assert (Hm : Zpos m < 2 ^ prec).
  { apply Z.lt_le_trans with (2 ^ Zpos (digits2_pos m)); [assumption|].
    apply Z.pow_le_mono_r; lia. }
  exists e, (Zpos m), loc_Exact. split; [lia|]. split; [reflexivity|].
  split; [assumption|]. split; [|split].
  - rewrite bpow_add, (bpow_IZR prec) by (unfold prec; lia).
    apply IZR_lt in Hm. nra.
  - intros He. assert (Hp : Zpos (digits2_pos m) = prec) by lia.
    rewrite Hp in Hle.
    replace (e + prec - 1) with (e + (prec - 1)) by lia.
    rewrite bpow_add, (bpow_IZR (prec - 1)) by (unfold prec; lia).
    assert (H2 : 2 ^ (prec - 1) <= Zpos m).
    { change (2 ^ prec) with (2 * 2 ^ (prec - 1)) in Hle. lia. }
    apply IZR_le in H2. nra.
  - cbn [round_nearest_even]. unfold pack.
    replace (Zpos m <? 2 ^ prec) with true by (symmetry; apply Z.ltb_lt; lia).
    replace (e <=? emax - prec) with true by (symmetry; apply Z.leb_le; lia).
    reflexivity.
Qed.

Lemma IZR_iter_xO m d e :
  (IZR (Zpos (Pos.iter xO m d)) * bpow (e - Zpos d) = IZR (Zpos m) * bpow e)%R.
Proof.
  rewrite iter_xO_mul, mult_IZR, <- (bpow_IZR (Zpos d)) by lia.
  replace e with (Zpos d + (e - Zpos d)) at 2 by lia.
  rewrite bpow_add. ring.
Qed.

Lemma binary_round_rounds m e :
  rounds (binary_round prec emax false m e) (IZR (Zpos m) * bpow e).
Proof.
  unfold binary_round, shl_align.
  set (E0 := fexp prec emax (Zpos (digits2_pos m) + e)).
  destruct (E0 - e) as [|d|d] eqn:Ed.
  - apply binary_round_aux_rounds; [lia | reflexivity|].
    cbn [Zdigits2]. fold E0. lia.
  - apply binary_round_aux_rounds; [lia | reflexivity|].
    cbn [Zdigits2]. fold E0. lia.
  - apply binary_round_aux_rounds; [lia | |].
    + cbn [located]. replace E0 with (e - Zpos d) by lia.
      symmetry. apply IZR_iter_xO.
    + cbn [Zdigits2]. rewrite digits2_pos_iter_xO.
      replace (Zpos (digits2_pos m + d) + E0)
        with (Zpos (digits2_pos m) + e) by lia.
      fold E0. lia.
Qed.

Lemma shl_align_value m e ez :
  ez <= e ->
  (IZR (Zpos (fst (shl_align m e ez))) * bpow ez = IZR (Zpos m) * bpow e)%R.
Proof.
  intros H. unfold shl_align.
  destruct (ez - e) as [|d|d] eqn:Ed; cbn [fst]; try lia.
  - now replace ez with e by lia.
  - replace ez with (e - Zpos d) by lia. apply IZR_iter_xO.
Qed.

Lemma SFadd_rounds mx ex my ey :
  rounds (SFadd prec emax (S754_finite false mx ex) (S754_finite false my ey))
    (IZR (Zpos mx) * bpow ex + IZR (Zpos my) * bpow ey).
Proof.
  cbn [SFadd cond_Zopp]. set (ez := Z.min ex ey).
  rewrite <- (shl_align_value mx ex ez), <- (shl_align_value my ey ez)
    by (unfold ez; lia).
  rewrite <- Rmult_plus_distr_r, <- plus_IZR.
  cbn [Z.add binary_normalize]. apply binary_round_rounds.
Qed.

Lemma Zdigits2_lower m k : 0 <= k -> 2 ^ k <= m -> k < Zdigits2 m.
Proof.
  intros Hk Hm.
  assert (0 < m) by (pose proof (Z.pow_pos_nonneg 2 k); lia).
  destruct (Zdigits2_bounds m) as [_ Hd]; [assumption|].
  apply (Z.pow_lt_mono_r_iff 2); [lia | destruct m; cbn [Zdigits2]; lia | lia].
Qed.

Lemma SFmul_rounds mx ex my ey :
  SpecFloat.bounded prec emax mx ex = true -> SpecFloat.bounded prec emax my ey = true ->
  rounds (SFmul prec emax (S754_finite false mx ex) (S754_finite false my ey))
    ((IZR (Zpos mx) * bpow ex) * (IZR (Zpos my) * bpow ey)).
Proof.
  intros Hx Hy. cbn [SFmul xorb].
  destruct (bounded_facts _ _ Hx) as ([Hminx _] & Hdx & Hnx).
  destruct (bounded_facts _ _ Hy) as ([Hminy _] & Hdy & Hny).
  apply binary_round_aux_rounds; [lia | |].
  - cbn [located]. rewrite Pos2Z.inj_mul, mult_IZR, bpow_add. ring.
  - assert (Hd : Zpos (digits2_pos mx) + Zpos (digits2_pos my) - 2
                 < Zdigits2 (Zpos (mx * my))).
    { apply Zdigits2_lower; [lia|].
      destruct (Zdigits2_bounds (Zpos mx)) as [Hlx _]; [lia|].
      destruct (Zdigits2_bounds (Zpos my)) as [Hly _]; [lia|].
      cbn [Zdigits2] in Hlx, Hly.
      replace (Zpos (digits2_pos mx) + Zpos (digits2_pos my) - 2)
        with ((Zpos (digits2_pos mx) - 1) + (Zpos (digits2_pos my) - 1)) by lia.
      rewrite Z.pow_add_r, Pos2Z.inj_mul by lia.
      apply Z.mul_le_mono_nonneg; try assumption;
        apply Z.pow_nonneg; lia. }
    unfold fexp, SpecFloat.emin, prec, emax in *. lia.
Qed.

Lemma new_location_located (q r d e : Z) :
  0 < d -> 0 <= r < d ->
  located q e (new_location d r)
    ((IZR q + IZR r / IZR d) * bpow e).
Proof.
  intros Hd Hr. pose proof (bpow_pos e) as Hb.
  assert (Hd' : (0 < IZR d)%R) by now apply IZR_lt.
  assert (Hr0 : (0 <= IZR r)%R) by (apply IZR_le; lia).
  assert (Hhalf : forall c : comparison,
             (2 * r ?= d) = c ->
             match c with
             | Lt => (IZR r / IZR d < / 2)%R
             | Eq => (IZR r / IZR d = / 2)%R
             | Gt => (/ 2 < IZR r / IZR d)%R
             end).
  { intros c Hc. destruct c.
    - apply Z.compare_eq in Hc. rewrite <- Hc, mult_IZR. field.
      rewrite <- Hc, mult_IZR in Hd'. lra.
    - rewrite Z.compare_lt_iff in Hc. apply IZR_lt in Hc.
      rewrite mult_IZR in Hc.
      apply Rmult_lt_reg_r with (IZR d); [assumption|].
      unfold Rdiv. rewrite Rmult_assoc, Rinv_l by lra. lra.
    - rewrite Z.compare_gt_iff in Hc. apply IZR_lt in Hc.
      rewrite mult_IZR in Hc.
      apply Rmult_lt_reg_r with (IZR d); [assumption|].
      unfold Rdiv. rewrite Rmult_assoc, Rinv_l by lra. lra. }
  assert (Hone : (IZR r / IZR d < 1)%R).
  { apply Rmult_lt_reg_r with (IZR d); [assumption|].
    unfold Rdiv. rewrite Rmult_assoc, Rinv_l by lra.
    assert (IZR r < IZR d)%R by (apply IZR_lt; lia). lra. }
  assert (Hpos : r <> 0 -> (0 < IZR r / IZR d)%R).
  { intros Hne. apply Rdiv_lt_0_compat; [|assumption].
    apply IZR_lt. lia. }
  unfold new_location, new_location_even, new_location_odd.
  destruct (Z.even d) eqn:Hev.
  - destruct (Z.eqb_spec r 0) as [->|Hne].
    + cbn [located]. unfold Rdiv. rewrite Rmult_0_l. ring.
    + specialize (Hpos Hne). specialize (Hhalf _ eq_refl).
      destruct (2 * r ?= d); cbn [located]; try split; nra.
  - destruct (Z.eqb_spec r 0) as [->|Hne].
    + cbn [located]. unfold Rdiv. rewrite Rmult_0_l. ring.
    + specialize (Hpos Hne). specialize (Hhalf _ eq_refl).
      assert (Hodd : 2 * r <> d).
      { intros <-. rewrite Z.even_mul in Hev. discriminate. }
      destruct (Z.compare_spec (2 * r + 1) d) as [H1|H1|H1];
        destruct (Z.compare_spec (2 * r) d) as [H2|H2|H2]; try lia;
        cbn [located]; try split; nra.
Qed.

Lemma SFdiv_rounds mx ex my ey :
  rounds (SFdiv prec emax (S754_finite false mx ex) (S754_finite false my ey))
    ((IZR (Zpos mx) * bpow ex) / (IZR (Zpos my) * bpow ey)).
Proof.
  cbn [SFdiv xorb]. unfold SFdiv_core_binary.
  set (d1 := Zdigits2 (Zpos mx)). set (d2 := Zdigits2 (Zpos my)).
  set (mu := d1 + ex - (d2 + ey)).
  set (e' := Z.min (fexp prec emax mu) (ex - ey)).
  set (s := ex - ey - e').
  assert (Hs : 0 <= s) by (unfold s, e'; lia).
  assert (Es : s = ex - ey - e') by reflexivity. clearbody s.
  set (m' := match s with
             | 0 => Zpos mx
             | Zpos _ => Z.shiftl (Zpos mx) s
             | Zneg _ => 0
             end).
  assert (Hm' : m' = Zpos mx * 2 ^ s).
  { unfold m'. clear Es. destruct s; [lia| |lia].
    apply Z.shiftl_mul_pow2. lia. }
  clearbody m'.
  pose proof (Z_div_mod m' (Zpos my) eq_refl) as Hdiv.
  destruct (Z.div_eucl m' (Zpos my)) as [q r]. destruct Hdiv as [Hqr Hr].
  assert (H2s : 0 < 2 ^ s) by (apply Z.pow_pos_nonneg; lia).
  assert (Hq : 0 <= q) by nia.
  apply binary_round_aux_rounds; [assumption | |].
  - replace ((IZR (Zpos mx) * bpow ex) / (IZR (Zpos my) * bpow ey))%R
      with ((IZR q + IZR r / IZR (Zpos my)) * bpow e')%R.
    + apply new_location_located; lia.
    + assert (Hex : ex = s + e' + ey) by lia.
      rewrite Hex at 1. rewrite !bpow_add, (bpow_IZR s Hs).
      assert (HR : (IZR (Zpos mx) * IZR (2 ^ s)
                    = IZR (Zpos my) * IZR q + IZR r)%R).
      { rewrite <- !mult_IZR, <- plus_IZR. f_equal. lia. }
      pose proof (bpow_pos ey). pose proof (bpow_pos e').
      assert (0 < IZR (Zpos my))%R by (apply IZR_lt; lia).
      field_simplify_eq; [|split; lra].
      transitivity (bpow e' * (IZR (Zpos mx) * IZR (2 ^ s)))%R;
        [rewrite HR|]; ring.
  - destruct (Zdigits2_bounds (Zpos mx)) as [Hl1 _]; [lia|].
    destruct (Zdigits2_bounds (Zpos my)) as [_ Hu2]; [lia|].
    fold d1 in Hl1. fold d2 in Hu2.
    assert (Hd1 : 1 <= d1) by (unfold d1; cbn [Zdigits2]; lia).
    assert (Hd2 : 1 <= d2) by (unfold d2; cbn [Zdigits2]; lia).
    destruct (Z_le_gt_dec 0 (d1 + s - d2 - 1)) as [Hk|Hk].
    + assert (Hlow : 2 ^ (d1 + s - d2 - 1) <= q).
      { assert (Hle : Zpos my * 2 ^ (d1 + s - d2 - 1) <= m').
        { rewrite Hm'.
          apply Z.le_trans with (2 ^ d2 * 2 ^ (d1 + s - d2 - 1)).
          - apply Z.mul_le_mono_nonneg_r; [apply Z.pow_nonneg|]; lia.
          - rewrite <- Z.pow_add_r by lia.
            replace (d2 + (d1 + s - d2 - 1)) with ((d1 - 1) + s) by lia.
            rewrite Z.pow_add_r by lia.
            apply Z.mul_le_mono_nonneg_r; lia. }
        apply Z.lt_succ_r, (Z.mul_lt_mono_pos_l (Zpos my)); lia. }
      apply Zdigits2_lower in Hlow; [|assumption].
      unfold e' at 1. unfold fexp, mu in *. lia.
    + assert (He' : e' <= SpecFloat.emin prec emax).
      { unfold e', fexp, mu, prec in *. lia. }
      unfold fexp. lia.
Qed.

End Operations.

Section Order.

Local Open Scope Z_scope.

Lemma SFleb_rank x y :
  nonnegSF x = true -> nonnegSF y = true ->
  (SFleb x y = true <-> rankLe (rank x) (rank y)).
Proof.
  unfold SFleb.
  destruct x as [sx|[]| |[] mx ex]; try discriminate;
    destruct y as [sy|[]| |[] my ey]; try discriminate; intros _ _;
    cbn [SFcompare rank rankLe]; try (split; [lia | reflexivity]);
    try (split; [discriminate | lia]).
  rewrite Pos.compare_cont_spec. cbn [Pos.switch_Eq].
  destruct (Z.compare_spec ex ey); [|split; [lia|reflexivity]|split; [discriminate|lia]].
  change (mx ?= my)%positive with (Zpos mx ?= Zpos my).
  destruct (Z.compare_spec (Zpos mx) (Zpos my));
    (split; [try discriminate; lia | try reflexivity; lia]).
Qed.

Lemma SFltb_rank x y :
  nonnegSF x = true -> nonnegSF y = true ->
  (SFltb x y = true <-> ~ rankLe (rank y) (rank x)).
Proof.
  unfold SFltb.
  destruct x as [sx|[]| |[] mx ex]; try discriminate;
    destruct y as [sy|[]| |[] my ey]; try discriminate; intros _ _;
    cbn [SFcompare rank rankLe]; try (split; [lia | reflexivity]);
    try (split; [discriminate | lia]).
  rewrite Pos.compare_cont_spec. cbn [Pos.switch_Eq].
  destruct (Z.compare_spec ex ey); [|split; [lia|reflexivity]|split; [discriminate|lia]].
  change (mx ?= my)%positive with (Zpos mx ?= Zpos my).
  destruct (Z.compare_spec (Zpos mx) (Zpos my));
    (split; [try discriminate; lia | try reflexivity; lia]).
Qed.

Lemma rankLe_dec a b : rankLe a b \/ ~ rankLe a b.
Proof. destruct a as [[a1 a2] a3], b as [[b1 b2] b3]. unfold rankLe. lia. Qed.

Lemma SFleb_refl_nonneg x : nonnegSF x = true -> SFleb x x = true.
Proof.
  intros H. apply SFleb_rank; try assumption.
  destruct (rank x) as [[a1 a2] a3]. unfold rankLe. lia.
Qed.

Lemma SFleb_trans_nonneg x y z :
  nonnegSF x = true -> nonnegSF y = true -> nonnegSF z = true ->
  SFleb x y = true -> SFleb y z = true -> SFleb x z = true.
Proof.
  intros Hx Hy Hz. rewrite !SFleb_rank by assumption.
  destruct (rank x) as [[a1 a2] a3], (rank y) as [[b1 b2] b3],
    (rank z) as [[c1 c2] c3].
  unfold rankLe. lia.
Qed.

Lemma SFleb_SFltb_trans x y z :
  nonnegSF x = true -> nonnegSF y = true -> nonnegSF z = true ->
  SFleb x y = true -> SFltb y z = true -> SFltb x z = true.
Proof.
  intros Hx Hy Hz. rewrite SFleb_rank, !SFltb_rank by assumption.
  destruct (rank x) as [[a1 a2] a3], (rank y) as [[b1 b2] b3],
    (rank z) as [[c1 c2] c3].
  unfold rankLe. lia.
Qed.

Lemma SFltb_false_SFleb x y :
  nonnegSF x = true -> nonnegSF y = true ->
  SFltb x y = false -> SFleb y x = true.
Proof.
  intros Hx Hy H. apply SFleb_rank; try assumption.
  destruct (rankLe_dec (rank y) (rank x)) as [|Hn]; [assumption|].
  apply SFltb_rank in Hn; try assumption. congruence.
Qed.

Lemma SFleb_zero s y : nonnegSF y = true -> SFleb (S754_zero s) y = true.
Proof. now destruct y as [sy|[]| |[] my ey]. Qed.

Lemma SFleb_infinity x : nonnegSF x = true -> SFleb x (S754_infinity false) = true.
Proof. now destruct x as [sx|[]| |[] mx ex]. Qed.

(** Between floats of the format the order is that of the values. *)
Lemma SFleb_value m1 e1 m2 e2 :
  SpecFloat.bounded prec emax m1 e1 = true ->
  SpecFloat.bounded prec emax m2 e2 = true ->
  SFleb (S754_finite false m1 e1) (S754_finite false m2 e2) = true ->
  (IZR (Zpos m1) * bpow e1 <= IZR (Zpos m2) * bpow e2)%R.
Proof.
  intros H1 H2 Hle.
  destruct (Rle_or_lt (IZR (Zpos m1) * bpow e1) (IZR (Zpos m2) * bpow e2))
    as [|Hlt]; [assumption|].
  assert (Hge : SFleb (S754_finite false m2 e2) (S754_finite false m1 e1) = true).
  { apply (rounds_mono _ _ _ _ (bounded_rounds _ _ H2) (bounded_rounds _ _ H1)).
    lra. }
  apply SFleb_rank in Hle, Hge; try reflexivity.
  cbn [rank rankLe] in Hle, Hge.
  assert (e1 = e2 /\ Zpos m1 = Zpos m2) as [-> Hm] by lia.
  rewrite Hm. lra.
Qed.

(** An operation that rounds a monotone function of the value, keeps
    +infinity and sends the zeros to zeros, or to the rounding of the
    function at 0, is monotone on the floats that are not negative. *)
Lemma rounded_operation_mono (f : spec_float -> spec_float) (g : R -> R) :
  (forall m e, SpecFloat.bounded prec emax m e = true ->
               rounds (f (S754_finite false m e)) (g (IZR (Zpos m) * bpow e)%R)) ->
  (forall v1 v2, (0 <= v1 <= v2)%R -> (g v1 <= g v2)%R) ->
  f (S754_infinity false) = S754_infinity false ->
  (forall s, exists s', f (S754_zero s) = S754_zero s') \/
  (forall s, rounds (f (S754_zero s)) (g 0%R)) ->
  forall x1 x2,
    valid_binary x1 = true -> valid_binary x2 = true ->
    nonnegSF x1 = true -> nonnegSF x2 = true ->
    SFleb x1 x2 = true -> SFleb (f x1) (f x2) = true.
Proof.
  intros Hfin Hg Hinf Hzero x1 x2 Hv1 Hv2 Hn1 Hn2 Hle.
  assert (Hpos : forall m e, (0 <= IZR (Zpos m) * bpow e)%R).
  { intros m e. pose proof (bpow_pos e).
    assert (0 < IZR (Zpos m))%R by (apply IZR_lt; lia). nra. }
  assert (Hnn : forall x, valid_binary x = true ->
                          nonnegSF x = true -> nonnegSF (f x) = true).
  { intros x Hv Hn. destruct x as [s|[]| |[] m e]; try discriminate.
    - destruct Hzero as [Hz|Hz]; [destruct (Hz s) as [s' ->]; reflexivity|].
      exact (rounds_nonneg _ _ (Hz s)).
    - now rewrite Hinf.
    - exact (rounds_nonneg _ _ (Hfin m e Hv)). }
  destruct x2 as [s2|[]| |[] m2 e2]; try discriminate.
  - destruct x1 as [s1|[]| |[] m1 e1]; try discriminate.
    destruct Hzero as [Hz|Hz].
    + destruct (Hz s1) as [s1' ->]. apply SFleb_zero. now apply Hnn.
    + apply (rounds_mono _ _ _ _ (Hz s1) (Hz s2)). lra.
  - rewrite Hinf. apply SFleb_infinity. now apply Hnn.
  - destruct x1 as [s1|[]| |[] m1 e1]; try discriminate.
    + destruct Hzero as [Hz|Hz].
      * destruct (Hz s1) as [s1' ->]. apply SFleb_zero. now apply Hnn.
      * apply (rounds_mono _ _ _ _ (Hz s1) (Hfin m2 e2 Hv2)).
        apply Hg. split; [lra | apply Hpos].
    + apply (rounds_mono _ _ _ _ (Hfin m1 e1 Hv1) (Hfin m2 e2 Hv2)).
      apply Hg. split; [apply Hpos|]. now apply SFleb_value.
Qed.

End Order.

Section MonotoneNumbers.

Local Open Scope Z_scope.

Lemma value_nonneg m e : (0 <= IZR (Zpos m) * bpow e)%R.
Proof.
  pose proof (bpow_pos e).
  assert (0 < IZR (Zpos m))%R by (apply IZR_lt; lia). nra.
Qed.

Lemma add_mono (x1 x2 c : float) :
  nonneg x1 -> nonneg x2 -> positiveFinite c ->
  PrimFloat.leb x1 x2 = true -> PrimFloat.leb (x1 + c) (x2 + c) = true.
Proof.
  unfold nonneg, positiveFinite.
  rewrite !FloatAxioms.leb_spec, !FloatAxioms.add_spec.
  intros H1 H2 Hc Hle. pose proof (Prim2SF_valid c) as Hvc.
  destruct (Prim2SF c) as [s|s| |[] mc ec]; try discriminate.
  apply (rounded_operation_mono
           (fun x => SF64add x (S754_finite false mc ec))
           (fun v => (v + IZR (Zpos mc) * bpow ec)%R));
    try assumption; try apply Prim2SF_valid.
  - intros m e _. apply SFadd_rounds.
  - intros v1 v2 Hv. lra.
  - reflexivity.
  - right. intros s. rewrite Rplus_0_l. apply bounded_rounds. exact Hvc.
Qed.

Lemma mul_mono (x1 x2 c : float) :
  nonneg x1 -> nonneg x2 -> positiveFinite c ->
  PrimFloat.leb x1 x2 = true -> PrimFloat.leb (x1 * c) (x2 * c) = true.
Proof.
  unfold nonneg, positiveFinite.
  rewrite !FloatAxioms.leb_spec, !FloatAxioms.mul_spec.
  intros H1 H2 Hc Hle. pose proof (Prim2SF_valid c) as Hvc.
  destruct (Prim2SF c) as [s|s| |[] mc ec]; try discriminate.
  apply (rounded_operation_mono
           (fun x => SF64mul x (S754_finite false mc ec))
           (fun v => (v * (IZR (Zpos mc) * bpow ec))%R));
    try assumption; try apply Prim2SF_valid.
  - intros m e Hb. now apply SFmul_rounds.
  - intros v1 v2 Hv. pose proof (value_nonneg mc ec). nra.
  - reflexivity.
  - left. intros s. eexists. reflexivity.
Qed.

Lemma div_mono (x1 x2 c : float) :
  nonneg x1 -> nonneg x2 -> positiveFinite c ->
  PrimFloat.leb x1 x2 = true -> PrimFloat.leb (x1 / c) (x2 / c) = true.
Proof.
  unfold nonneg, positiveFinite.
  rewrite !FloatAxioms.leb_spec, !FloatAxioms.div_spec.
  intros H1 H2 Hc Hle.
  destruct (Prim2SF c) as [s|s| |[] mc ec]; try discriminate.
  apply (rounded_operation_mono
           (fun x => SF64div x (S754_finite false mc ec))
           (fun v => (v / (IZR (Zpos mc) * bpow ec))%R));
    try assumption; try apply Prim2SF_valid.
  - intros m e _. apply SFdiv_rounds.
  - intros v1 v2 Hv. unfold Rdiv. apply Rmult_le_compat_r; [|lra].
    apply Rlt_le, Rinv_0_lt_compat.
    pose proof (bpow_pos ec).
    assert (0 < IZR (Zpos mc))%R by (apply IZR_lt; lia). nra.
  - reflexivity.
  - left. intros s. eexists. reflexivity.
Qed.

Lemma zero_add_mono (x1 x2 : float) :
  nonneg x1 -> nonneg x2 ->
  PrimFloat.leb x1 x2 = true -> PrimFloat.leb (0 + x1) (0 + x2) = true.
Proof.
  unfold nonneg.
  rewrite !FloatAxioms.leb_spec, !FloatAxioms.add_spec.
  change (Prim2SF 0) with (S754_zero false).
  destruct (Prim2SF x1) as [[]|[]| |[] m1 e1]; try discriminate;
    destruct (Prim2SF x2) as [[]|[]| |[] m2 e2]; try discriminate;
    intros _ _ H; exact H.
Qed.

Lemma ofNat_mono (n1 n2 : nat) :
  (n1 <= n2)%nat -> Z.of_nat n2 < 2 ^ 32 ->
  PrimFloat.leb (JSNumber.ofNat n1) (JSNumber.ofNat n2) = true.
Proof.
  intros Hle Hlt. unfold JSNumber.ofNat.
  rewrite FloatAxioms.leb_spec, !of_uint63_spec, !to_Z_of_nat by lia.
  destruct (Z.of_nat n1) as [|p1|p1] eqn:E1; try lia.
  - apply SFleb_zero. apply binary_normalize_nonneg. lia.
  - destruct (Z.of_nat n2) as [|p2|p2] eqn:E2; try lia.
    cbn [binary_normalize].
    apply (rounds_mono _ _ _ _ (binary_round_rounds p1 0) (binary_round_rounds p2 0)).
    assert (IZR (Zpos p1) <= IZR (Zpos p2))%R by (apply IZR_le; lia).
    pose proof (bpow_pos 0). nra.
Qed.

End MonotoneNumbers.

Section MonotoneRound.

Local Open Scope Z_scope.

(** [Math.round] of a positive finite Number is the rounding of the
    integer [K] with [K <= x + 1/2 < K + 1], a zero when [K] is 0. *)
Lemma Math_round_finite (x : float) (m : positive) (e : Z) :
  Prim2SF x = S754_finite false m e ->
  exists K : Z,
    0 <= K /\
    (IZR K <= IZR (Zpos m) * bpow e + / 2 < IZR K + 1)%R /\
    ((K = 0 /\ exists s, Prim2SF (JSNumber.Math_round x) = S754_zero s) \/
     (0 < K /\ rounds (Prim2SF (JSNumber.Math_round x)) (IZR K))).
Proof.
  intros Ex. pose proof (Prim2SF_valid x) as Hv. rewrite Ex in Hv.
  cbn [valid_binary SpecFloat.valid_binary] in Hv.
  unfold JSNumber.Math_round. rewrite Ex.
  destruct (Z.leb_spec 0 e) as [He|He].
  - exists (Zpos m * 2 ^ e).
    assert (H2 : 0 < 2 ^ e) by (apply Z.pow_pos_nonneg; lia).
    rewrite mult_IZR, <- (bpow_IZR e He).
    split; [lia|]. split; [lra|]. right. split; [lia|].
    rewrite Ex. now apply bounded_rounds.
  - set (h := 2 ^ (- e)).
    assert (Hh : 0 < h) by (apply Z.pow_pos_nonneg; lia).
    set (k := (2 * Zpos m + h) / (2 * h)).
    assert (Hk : 2 * h * k <= 2 * Zpos m + h < 2 * h * k + 2 * h).
    { unfold k. pose proof (Z.mul_div_le (2 * Zpos m + h) (2 * h)).
      pose proof (Z.mul_succ_div_gt (2 * Zpos m + h) (2 * h)). lia. }
    assert (Hk0 : 0 <= k) by (apply Z.div_pos; lia).
    assert (Hm : Zpos m < 2 ^ 53).
    { destruct (bounded_facts _ _ Hv) as (_ & Hd & _).
      apply Z.lt_le_trans with (2 ^ Zpos (digits2_pos m));
        [apply digits2_pos_gt | apply Z.pow_le_mono_r; unfold prec in Hd; lia]. }
    assert (Hkm : k <= Zpos m + 1) by nia.
    exists k. split; [assumption|]. split.
    + assert (Hb : (bpow e * IZR h = 1)%R).
      { unfold h. rewrite <- bpow_IZR by lia. rewrite <- bpow_add.
        replace (e + - e) with 0 by lia. reflexivity. }
      pose proof (bpow_pos e) as Hbe.
      assert (Hk1 : (2 * IZR h * IZR k <= 2 * IZR (Zpos m) + IZR h)%R).
      { rewrite <- !mult_IZR, <- plus_IZR. apply IZR_le. lia. }
      assert (Hk2 : (2 * IZR (Zpos m) + IZR h < 2 * IZR h * IZR k + 2 * IZR h)%R).
      { rewrite <- !mult_IZR, <- !plus_IZR. apply IZR_lt. lia. }
      set (M := IZR (Zpos m)) in *. set (H := IZR h) in *.
      set (K := IZR k) in *. set (b := bpow e) in *.
      assert (HK : (b * (2 * H * K) = 2 * K)%R)
        by (transitivity (2 * K * (b * H))%R; [ring | rewrite Hb; ring]).
      assert (HM : (b * (2 * M + H) = 2 * (M * b) + 1)%R)
        by (transitivity (2 * (M * b) + b * H)%R; [ring | rewrite Hb; ring]).
      assert (HH : (b * (2 * H * K + 2 * H) = 2 * K + 2)%R)
        by (transitivity (2 * K * (b * H) + 2 * (b * H))%R;
            [ring | rewrite Hb; ring]).
      assert (L1 : (b * (2 * H * K) <= b * (2 * M + H))%R)
        by (apply Rmult_le_compat_l; lra).
      assert (L2 : (b * (2 * M + H) < b * (2 * H * K + 2 * H))%R)
        by (apply Rmult_lt_compat_l; lra).
      lra.
    + assert (Ek : Uint63.to_Z (Uint63.of_Z k) = k).
      { rewrite Uint63.of_Z_spec. apply Z.mod_small.
        change wB with (2 ^ 63). lia. }
      rewrite of_uint63_spec, Ek.
      destruct k as [|p|p] eqn:E; [left|right|lia].
      * split; [reflexivity|]. now exists false.
      * split; [lia|]. cbn [binary_normalize].
        replace (IZR (Zpos p)) with (IZR (Zpos p) * bpow 0)%R
          by (change (bpow 0) with 1%R; ring).
        apply binary_round_rounds.
Qed.

Lemma Math_round_mono (x1 x2 : float) :
  nonneg x1 -> nonneg x2 ->
  PrimFloat.leb x1 x2 = true ->
  PrimFloat.leb (JSNumber.Math_round x1) (JSNumber.Math_round x2) = true.
Proof.
  intros H1 H2.
  pose proof (proj1 (Math_round_nonneg x1 H1)) as R1.
  pose proof (proj1 (Math_round_nonneg x2 H2)) as R2.
  unfold nonneg in *. rewrite !FloatAxioms.leb_spec.
  destruct (Prim2SF x1) as [s1|[]| |[] m1 e1] eqn:E1; try discriminate;
    destruct (Prim2SF x2) as [s2|[]| |[] m2 e2] eqn:E2; try discriminate;
    intros Hle; try discriminate.
  - replace (JSNumber.Math_round x1) with x1
      by (unfold JSNumber.Math_round; now rewrite E1).
    rewrite E1. now apply SFleb_zero.
  - replace (JSNumber.Math_round x1) with x1
      by (unfold JSNumber.Math_round; now rewrite E1).
    rewrite E1. now apply SFleb_zero.
  - replace (JSNumber.Math_round x1) with x1
      by (unfold JSNumber.Math_round; now rewrite E1).
    rewrite E1. now apply SFleb_zero.
  - replace (JSNumber.Math_round x1) with x1
      by (unfold JSNumber.Math_round; now rewrite E1).
    replace (JSNumber.Math_round x2) with x2
      by (unfold JSNumber.Math_round; now rewrite E2).
    now rewrite E1, E2.
  - replace (JSNumber.Math_round x2) with x2
      by (unfold JSNumber.Math_round; now rewrite E2).
    rewrite E2. now apply SFleb_infinity.
  - pose proof (Prim2SF_valid x1) as V1. pose proof (Prim2SF_valid x2) as V2.
    rewrite E1 in V1. rewrite E2 in V2.
    pose proof (SFleb_value _ _ _ _ V1 V2 Hle) as Hv.
    destruct (Math_round_finite x1 m1 e1 E1) as (K1 & HK1 & HB1 & HR1).
    destruct (Math_round_finite x2 m2 e2 E2) as (K2 & HK2 & HB2 & HR2).
    assert (HK : K1 < K2 + 1) by (apply lt_IZR; rewrite plus_IZR; lra).
    destruct HR1 as [[-> [s ->]]|[HP1 HR1]]; [now apply SFleb_zero|].
    destruct HR2 as [[-> _]|[HP2 HR2]]; [lia|].
    apply (rounds_mono _ _ _ _ HR1 HR2). apply IZR_le. lia.
Qed.

Lemma Math_min_ten_cases (x : float) :
  nonneg x ->
  (PrimFloat.ltb x 10 = true /\ JSNumber.Math_min x 10 = x) \/
  (PrimFloat.ltb x 10 = false /\ JSNumber.Math_min x 10 = 10%float).
Proof.
  intros Hx. destruct (PrimFloat.ltb x 10) eqn:E.
  - left. split; [reflexivity|]. unfold JSNumber.Math_min.
    rewrite (is_nan_nonneg x Hx), E. reflexivity.
  - right. split; [reflexivity|].
    destruct (Math_min_ten x Hx) as [[E' _]|H]; [congruence | assumption].
Qed.

Lemma Math_min_ten_mono (x1 x2 : float) :
  nonneg x1 -> nonneg x2 ->
  PrimFloat.leb x1 x2 = true ->
  PrimFloat.leb (JSNumber.Math_min x1 10) (JSNumber.Math_min x2 10) = true.
Proof.
  intros H1 H2 Hle.
  assert (H10 : nonnegSF (Prim2SF 10) = true) by reflexivity.
  destruct (Math_min_ten_cases x1 H1) as [[L1 ->]|[L1 ->]];
    destruct (Math_min_ten_cases x2 H2) as [[L2 ->]|[L2 ->]].
  - assumption.
  - now apply ltb_leb.
  - exfalso. unfold nonneg in *.
    rewrite FloatAxioms.ltb_spec in L1, L2. rewrite FloatAxioms.leb_spec in Hle.
    rewrite (SFleb_SFltb_trans _ _ _ H1 H2 H10 Hle L2) in L1. discriminate.
  - rewrite FloatAxioms.leb_spec. now apply SFleb_refl_nonneg.
Qed.

End MonotoneRound.

(** ** The range of the score *)

Section ScoreRange.

Context {TA : TextAnalyzer}.
Variable this : ResumeParser.t.
Import ResumeParser.

Lemma addBonuses_fragment (normalizedContent : string) (score : float)
  (skill : string) :
  addBonuses normalizedContent score skill
  = AnyEngine.addBonuses AnyEngine.fragmentEngine normalizedContent score skill.
Proof.
  unfold addBonuses, AnyEngine.addBonuses, AnyEngine.fragmentEngine.
  now destruct (RegExp.compile _).
Qed.

Lemma forEach_addBonuses_fragment (normalizedContent : string)
  (skills : list string) :
  forall score,
    forEachM (addBonuses normalizedContent) skills score
    = forEachM (AnyEngine.addBonuses AnyEngine.fragmentEngine normalizedContent)
        skills score.
Proof.
  induction skills as [|skill skills IH]; intros score; [reflexivity|].
  cbn [forEachM]. rewrite addBonuses_fragment.
  destruct (AnyEngine.addBonuses _ _ _ _); cbn [bind]; auto.
Qed.

(** With the engine of [RegExp], the score over any engine is
    [scoreResume]. *)
Lemma scoreResume_fragment (content : string) (requiredSkills : list string) :
  scoreResume this content requiredSkills
  = AnyEngine.scoreResume AnyEngine.fragmentEngine this content requiredSkills.
Proof.
  unfold scoreResume, AnyEngine.scoreResume. cbn [parseResume bind].
  now rewrite forEach_addBonuses_fragment.
Qed.

Lemma addBonuses_nonneg (engine : AnyEngine.RegExpEngine)
  (normalizedContent : string) (score : float)
  (skill : string) (score' : float) :
  nonneg score ->
  AnyEngine.addBonuses engine normalizedContent score skill = Return score' ->
  nonneg score'.
Proof.
  intros Hs. unfold AnyEngine.addBonuses.
  destruct (engine _ _) as [matches| |]; cbn [bind]; try discriminate.
  intros [= <-].
  assert (H2 : nonneg 0.2%float) by (vm_compute; reflexivity).
  assert (H3 : nonneg 0.3%float) by (vm_compute; reflexivity).
  destruct (1 <? _); destruct (JSString.includes _ _);
    auto using nonneg_add.
Qed.

Lemma forEach_addBonuses_nonneg (engine : AnyEngine.RegExpEngine)
  (normalizedContent : string) (skills : list string) :
  forall score score',
    nonneg score ->
    forEachM (AnyEngine.addBonuses engine normalizedContent) skills score
    = Return score' ->
    nonneg score'.
Proof.
  induction skills as [|skill skills IH]; intros score score' Hs.
  - now intros [= <-].
  - cbn [forEachM].
    destruct (AnyEngine.addBonuses engine normalizedContent score skill)
      as [s1| |] eqn:E; try discriminate.
    cbn [bind]. apply IH. eapply addBonuses_nonneg; eassumption.
Qed.

Lemma baseScore_nonneg (matched required : nat) :
  (0 < required)%nat -> (Z.of_nat required < 2 ^ 32)%Z ->
  nonneg (0 + JSNumber.ofNat matched / JSNumber.ofNat required * 7)%float.
Proof.
  intros Hpos Hlt.
  apply nonneg_add; [vm_compute; reflexivity|].
  apply nonneg_mul; [|vm_compute; reflexivity].
  apply nonneg_div; [apply nonneg_of_uint63|].
  now apply positiveFinite_ofNat.
Qed.

(** The last line of [scoreResume], for a sum that is not negative. *)
Lemma finalScore_range (score : float) :
  nonneg score ->
  let final := JSNumber.Math_min (JSNumber.Math_round (score * 10) / 10) 10 in
  JSNumber.le 0 final = true /\ JSNumber.le final 10 = true /\
  exists k : float, JSNumber.isInteger k = true /\ final = (k / 10)%float.
Proof.
  intros Hs final.
  assert (H10 : positiveFinite 10) by (vm_compute; reflexivity).
  destruct (Math_round_nonneg (score * 10)%float) as [Hr Hint];
    [now apply nonneg_mul|].
  set (r := JSNumber.Math_round (score * 10)) in *.
  assert (Hq : nonneg (r / 10)%float) by now apply nonneg_div.
  destruct (Math_min_ten (r / 10)%float Hq) as [[Hlt Hmin] | Hmin];
    subst final; rewrite Hmin.
  - split; [now apply le_zero_nonneg|].
    split; [now apply ltb_leb|].
    exists r. split; [|reflexivity].
    destruct Hint as [Hint | Hinf]; [assumption|].
    exfalso. revert Hlt. rewrite FloatAxioms.ltb_spec, FloatAxioms.div_spec, Hinf.
    vm_compute. discriminate.
  - split; [vm_compute; reflexivity|].
    split; [vm_compute; reflexivity|].
    exists 100%float. split; vm_compute; reflexivity.
Qed.

(** C2. For every content string and every non-empty [requiredSkills]
    (an array: fewer than 2^32 elements), a score returned by
    [scoreResume] lies between 0 and 10 and is the tenth [k / 10] of an
    integer [k]; this for every regular-expression engine, that is
    whatever number of matches the engine finds for each skill, so for
    every skill on which the source returns a score. *)
Theorem scoreResume_range
  (engine : AnyEngine.RegExpEngine)
  (content : string) (requiredSkills : list string) (score : float)
  (Hnonempty : requiredSkills <> [])
  (Hlength : (Z.of_nat (length requiredSkills) < 2 ^ 32)%Z)
  (Hreturn : AnyEngine.scoreResume engine this content requiredSkills
             = Return score) :
  JSNumber.le 0 score = true /\ JSNumber.le score 10 = true /\
  exists k : float, JSNumber.isInteger k = true /\ score = (k / 10)%float.
Proof.
  revert Hreturn. unfold AnyEngine.scoreResume. cbn [parseResume bind].
  match goal with
  | |- context [forEachM ?f ?l ?a] =>
      destruct (forEachM f l a) as [sum| |] eqn:E; try discriminate
  end.
  cbn [bind]. intros [= <-].
  apply finalScore_range.
  eapply forEach_addBonuses_nonneg; [|exact E].
  apply baseScore_nonneg; [|assumption].
  destruct requiredSkills; [contradiction | cbn; lia].
Qed.

End ScoreRange.

Lemma scoreResume_range_witness :
  JSNumber.le 0 7 = true /\ JSNumber.le 7 10 = true /\
  exists k : float, JSNumber.isInteger k = true /\ 7%float = (k / 10)%float.
Proof.
  apply (scoreResume_range (TA := wordAnalyzer) ResumeParser.new groupEngine
           "Runs Node (LTS) in production." ["node (lts)"]).
  - discriminate.
  - vm_compute. reflexivity.
  - vm_compute. reflexivity.
Defined.

(** ** The score grows with the number of matched skills *)

Section ScoreMonotone.

Context {TA : TextAnalyzer}.
Variable this : ResumeParser.t.
Import ResumeParser.

Lemma addBonuses_mono (engine : AnyEngine.RegExpEngine)
  (normalizedContent : string) (skill : string) (score1 score2 next1 next2 : float) :
  nonneg score1 -> nonneg score2 ->
  PrimFloat.leb score1 score2 = true ->
  AnyEngine.addBonuses engine normalizedContent score1 skill = Return next1 ->
  AnyEngine.addBonuses engine normalizedContent score2 skill = Return next2 ->
  PrimFloat.leb next1 next2 = true.
Proof.
  intros H1 H2 Hle. unfold AnyEngine.addBonuses.
  destruct (engine _ _) as [matches| |]; cbn [bind]; try discriminate.
  intros [= <-] [= <-].
  assert (P2 : positiveFinite 0.2%float) by (vm_compute; reflexivity).
  assert (P3 : positiveFinite 0.3%float) by (vm_compute; reflexivity).
  assert (N2 : nonneg 0.2%float) by (vm_compute; reflexivity).
  destruct (1 <? matches); destruct (JSString.includes _ _);
    auto using add_mono, nonneg_add.
Qed.

Lemma forEach_addBonuses_mono (engine : AnyEngine.RegExpEngine)
  (content : string) (requiredSkills1 requiredSkills2 : list string) :
  Forall2 (sameBonuses engine content) requiredSkills1 requiredSkills2 ->
  forall score1 score2 sum1 sum2,
    nonneg score1 -> nonneg score2 ->
    PrimFloat.leb score1 score2 = true ->
    forEachM (AnyEngine.addBonuses engine (JSString.toLowerCase content))
      requiredSkills1 score1 = Return sum1 ->
    forEachM (AnyEngine.addBonuses engine (JSString.toLowerCase content))
      requiredSkills2 score2 = Return sum2 ->
    PrimFloat.leb sum1 sum2 = true.
Proof.
  induction 1 as [|skill1 skill2 rest1 rest2 Hsame _ IH];
    intros score1 score2 sum1 sum2 H1 H2 Hle.
  - cbn [forEachM]. now intros [= <-] [= <-].
  - cbn [forEachM]. rewrite <- (Hsame score2).
    destruct (AnyEngine.addBonuses engine _ score1 skill1) as [next1| |] eqn:E1;
      try discriminate.
    destruct (AnyEngine.addBonuses engine _ score2 skill1) as [next2| |] eqn:E2;
      try discriminate.
    cbn [bind]. apply IH.
    + eapply addBonuses_nonneg; [exact H1 | exact E1].
    + eapply addBonuses_nonneg; [exact H2 | exact E2].
    + eapply addBonuses_mono; [exact H1 | exact H2 | exact Hle | exact E1 | exact E2].
Qed.

Lemma filter_length {A : Type} (f : A -> bool) (l : list A) :
  length (filter f l) <= length l.
Proof.
  induction l as [|x l IH]; cbn [filter length]; [lia|].
  destruct (f x); cbn [length]; lia.
Qed.

Lemma baseScore_mono (matched1 matched2 required : nat) :
  matched1 <= matched2 -> matched2 <= required -> 0 < required ->
  (Z.of_nat required < 2 ^ 32)%Z ->
  PrimFloat.leb
    (0 + JSNumber.ofNat matched1 / JSNumber.ofNat required * 7)%float
    (0 + JSNumber.ofNat matched2 / JSNumber.ofNat required * 7)%float = true.
Proof.
  intros H12 H2 Hpos Hlt.
  assert (P7 : positiveFinite 7) by (vm_compute; reflexivity).
  assert (Pr : positiveFinite (JSNumber.ofNat required))
    by now apply positiveFinite_ofNat.
  apply zero_add_mono;
    [apply nonneg_mul; [apply nonneg_div|]; try assumption; apply nonneg_of_uint63 ..|].
  apply mul_mono;
    [apply nonneg_div; try assumption; apply nonneg_of_uint63 ..| assumption |].
  apply div_mono; [apply nonneg_of_uint63 .. | assumption |].
  apply ofNat_mono; lia.
Qed.

Lemma finalScore_mono (sum1 sum2 : float) :
  nonneg sum1 -> nonneg sum2 -> PrimFloat.leb sum1 sum2 = true ->
  PrimFloat.leb
    (JSNumber.Math_min (JSNumber.Math_round (sum1 * 10) / 10) 10)
    (JSNumber.Math_min (JSNumber.Math_round (sum2 * 10) / 10) 10) = true.
Proof.
  intros H1 H2 Hle.
  assert (P10 : positiveFinite 10) by (vm_compute; reflexivity).
  assert (M1 : nonneg (sum1 * 10)%float) by now apply nonneg_mul.
  assert (M2 : nonneg (sum2 * 10)%float) by now apply nonneg_mul.
  pose proof (proj1 (Math_round_nonneg _ M1)) as R1.
  pose proof (proj1 (Math_round_nonneg _ M2)) as R2.
  apply Math_min_ten_mono; [now apply nonneg_div ..|].
  apply div_mono; try assumption.
  apply Math_round_mono; try assumption.
  now apply mul_mono.
Qed.

(** C9. With the content, the number of required skills and the bonus
    terms of every position held fixed, the score does not decrease when
    the number of matched skills grows: for two non-empty lists of
    required skills (fewer than 2^32) whose skills earn, position by
    position, the same bonuses, and of which the second has at least as
    many matched skills, the score returned for the first is at most the
    score returned for the second; this for every regular-expression
    engine. *)
Theorem scoreResume_monotone
  (engine : AnyEngine.RegExpEngine) (content : string)
  (requiredSkills1 requiredSkills2 : list string)
  (profile : Profile) (score1 score2 : float)
  (Hprofile : parseResume this content = Return profile)
  (Hnonempty : requiredSkills1 <> [])
  (Hlength : (Z.of_nat (length requiredSkills1) < 2 ^ 32)%Z)
  (Hbonuses : Forall2 (sameBonuses engine content)
                requiredSkills1 requiredSkills2)
  (Hmatched : matchedCount (skills profile) content requiredSkills1
              <= matchedCount (skills profile) content requiredSkills2)
  (Hscore1 : AnyEngine.scoreResume engine this content requiredSkills1
             = Return score1)
  (Hscore2 : AnyEngine.scoreResume engine this content requiredSkills2
             = Return score2) :
  JSNumber.le score1 score2 = true.
Proof.
  pose proof (Forall2_length Hbonuses) as Hlen.
  assert (Hpos : 0 < length requiredSkills1)
    by (destruct requiredSkills1; [contradiction | cbn; lia]).
  revert Hscore1 Hscore2. unfold AnyEngine.scoreResume.
  rewrite Hprofile. cbn [bind]. unfold matchedCount in Hmatched.
  set (matched1 := filter _ requiredSkills1) in *.
  set (matched2 := filter _ requiredSkills2) in *.
  destruct (forEachM _ requiredSkills1 _) as [sum1| |] eqn:E1; try discriminate.
  destruct (forEachM _ requiredSkills2 _) as [sum2| |] eqn:E2; try discriminate.
  cbn [bind]. intros [= <-] [= <-]. unfold JSNumber.le.
  assert (B1 : nonneg (0 + JSNumber.ofNat (length matched1)
                           / JSNumber.ofNat (length requiredSkills1) * 7)%float)
    by (apply baseScore_nonneg; assumption).
  assert (B2 : nonneg (0 + JSNumber.ofNat (length matched2)
                           / JSNumber.ofNat (length requiredSkills2) * 7)%float)
    by (apply baseScore_nonneg; rewrite <- Hlen; assumption).
  apply finalScore_mono.
  - eapply forEach_addBonuses_nonneg; [exact B1 | exact E1].
  - eapply forEach_addBonuses_nonneg; [exact B2 | exact E2].
  - eapply forEach_addBonuses_mono; [exact Hbonuses | exact B1 | exact B2 | | exact E1 | exact E2].
    rewrite <- Hlen. apply baseScore_mono; try assumption.
    rewrite Hlen. apply filter_length.
Qed.

End ScoreMonotone.

Lemma scoreResume_monotone_witness :
  AnyEngine.scoreResume (TA := wordAnalyzer) AnyEngine.fragmentEngine
    ResumeParser.new "React developer." ["docker"] = Return 0%float /\
  AnyEngine.scoreResume (TA := wordAnalyzer) AnyEngine.fragmentEngine
    ResumeParser.new "React developer." ["react"] = Return 7%float /\
  JSNumber.le 0 7 = true.
Proof.
  split; [vm_compute; reflexivity|]. split; [vm_compute; reflexivity|].
  eapply (scoreResume_monotone (TA := wordAnalyzer) ResumeParser.new
            AnyEngine.fragmentEngine "React developer." ["docker"] ["react"]).
  - reflexivity.
  - discriminate.
  - vm_compute. reflexivity.
  - constructor; [|constructor]. intros score. reflexivity.
  - vm_compute. repeat constructor.
  - vm_compute. reflexivity.
  - vm_compute. reflexivity.
Defined.

(** ** Sessions: what a call leaves behind *)

Section Sessions.

Context {SA : Session.StatefulAnalyzer} {TA : TextAnalyzer}.

(** The analyzer gives the document of a text whatever its state. *)
Hypothesis nlp_stable :
  forall (a : Session.AnalyzerState) (text : string),
    fst (Session.nlpCall a text) = nlp text.

(** A loop whose callback only reads the store computes a fold and
    leaves the store as it found it. *)
Lemma forEachS_reads {A S : Type} (f : S -> A -> Session.M S)
  (g : ResumeParser.t -> S -> A -> S) (l : list A) :
  (forall acc x s, f acc x s = (Return (g (Session.instance s) acc x), s)) ->
  forall acc s,
    Session.forEachS f l acc s
    = (Return (fold_left (g (Session.instance s)) l acc), s).
Proof.
  intros Hf. induction l as [|x l IH]; intros acc s; [reflexivity|].
  cbn [Session.forEachS fold_left]. unfold Session.bindM. rewrite Hf. apply IH.
Qed.

(** A loop whose callback has the outcome of a callback of the pure model
    and keeps the instance has the outcome of the pure loop and keeps the
    instance. *)
Lemma forEachS_outcome {A S : Type} (f : S -> A -> Session.M S)
  (h : S -> A -> Outcome S) (l : list A) :
  (forall acc x s,
      fst (f acc x s) = h acc x /\
      Session.instance (snd (f acc x s)) = Session.instance s) ->
  forall acc s,
    fst (Session.forEachS f l acc s) = forEachM h l acc /\
    Session.instance (snd (Session.forEachS f l acc s)) = Session.instance s.
Proof.
  intros Hf. induction l as [|x l IH]; intros acc s; [split; reflexivity|].
  cbn [Session.forEachS forEachM]. unfold Session.bindM.
  destruct (Hf acc x s) as [Hout Hinst].
  destruct (f acc x s) as [o s1]. cbn [fst snd] in Hout, Hinst.
  rewrite <- Hout.
  destruct o as [acc'| |]; cbn [bind fst snd]; auto.
  destruct (IH acc' s1) as [IH1 IH2]. rewrite IH1, IH2. auto.
Qed.

(** The object a [new RegExp] has just allocated is the one its reference
    names, whatever was allocated before. *)
Lemma nth_error_new {A : Type} (l : list A) (x : A) :
  nth_error (l ++ [x]) (length l) = Some x.
Proof.
  induction l as [|y l IH]; [reflexivity | exact IH].
Qed.

Lemma addBonuses_on_store (normalizedContent : string) (score : float)
  (skill : string) (s : Session.Store) :
  fst (Session.addBonuses normalizedContent score skill s)
  = ResumeParser.addBonuses normalizedContent score skill /\
  Session.instance (snd (Session.addBonuses normalizedContent score skill s))
  = Session.instance s.
Proof.
  unfold Session.addBonuses, ResumeParser.addBonuses, Session.bindM,
    Session.newRegExp.
  destruct (RegExp.compile (JSString.toLowerCase skill)) as [p| |];
    [|split; reflexivity|split; reflexivity].
  unfold Session.stringMatch. cbn [Session.regExps].
  rewrite nth_error_new. split; reflexivity.
Qed.

(** [parseResume] on a store: the outcome is that of the method on the
    instance; the analyzer has served one call, nothing else changed. *)
Lemma parseResume_on_store (content : string) (s : Session.Store) :
  Session.parseResume content s =
  (ResumeParser.parseResume (Session.instance s) content,
   Session.mkStore (Session.instance s)
     (snd (Session.nlpCall (Session.analyzer s) (JSString.toLowerCase content)))
     (Session.regExps s)).
Proof.
  unfold Session.parseResume, ResumeParser.parseResume.
  unfold Session.bindM at 1. unfold Session.callNlp.
  pose proof (nlp_stable (Session.analyzer s) (JSString.toLowerCase content))
    as Hdoc.
  destruct (Session.nlpCall (Session.analyzer s) (JSString.toLowerCase content))
    as [doc a].
  cbn [fst snd] in *. subst doc.
  unfold Session.bindM at 1.
  rewrite (forEachS_reads _
             (fun this acc word =>
                if JSSet.has (ResumeParser.commonTechTerms this) word
                then JSSet.add acc word else acc)) by reflexivity.
  unfold Session.bindM at 1.
  rewrite (forEachS_reads _
             (fun _ acc term =>
                JSSet.add acc (JSString.toLowerCase (Compromise.termText term))))
    by reflexivity.
  unfold Session.bindM at 1.
  rewrite (forEachS_reads _
             (fun this acc term =>
                if JSSet.has (ResumeParser.commonTechTerms this)
                     (JSString.toLowerCase (Compromise.termText term))
                then JSSet.add acc (JSString.toLowerCase (Compromise.termText term))
                else acc)) by reflexivity.
  reflexivity.
Qed.

(** [scoreResume] on a store: the outcome is that of the method on the
    instance, and the instance is the one it was. *)
Lemma scoreResume_on_store (content : string) (requiredSkills : list string)
  (s : Session.Store) :
  exists s' : Session.Store,
    Session.scoreResume content requiredSkills s
    = (ResumeParser.scoreResume (Session.instance s) content requiredSkills, s')
    /\ Session.instance s' = Session.instance s.
Proof.
  unfold Session.scoreResume, ResumeParser.scoreResume.
  unfold Session.bindM at 1. rewrite parseResume_on_store.
  unfold ResumeParser.parseResume at 1 2. cbn [bind].
  unfold Session.bindM.
  match goal with
  | |- context [Session.forEachS ?f ?l ?score ?s1] =>
      destruct (forEachS_outcome f
                  (ResumeParser.addBonuses (JSString.toLowerCase content)) l
                  (addBonuses_on_store (JSString.toLowerCase content)) score s1)
        as [Hout Hinst];
      destruct (Session.forEachS f l score s1) as [o s2]
  end.
  cbn [fst snd Session.instance] in Hout, Hinst. rewrite <- Hout.
  exists s2. destruct o; cbn [bind]; auto.
Qed.

(** No call changes the instance. *)
Lemma instance_after (history : list Session.Call) :
  forall s, Session.instance (Session.after history s) = Session.instance s.
Proof.
  unfold Session.after.
  induction history as [|call history IH]; intros s; [reflexivity|].
  cbn [fold_left]. rewrite IH.
  destruct call; cbn [Session.storeAfter];
    [rewrite parseResume_on_store; reflexivity|].
  destruct (scoreResume_on_store content requiredSkills s) as [s' [Hcall Hinst]].
  now rewrite Hcall.
Qed.

(** C5. Two calls of [parseResume] with the same content, and two calls
    of [scoreResume] with the same content and required skills, have the
    same outcome, whatever calls were made on the instance before each of
    them, whatever state the analyzer is in and whatever [RegExp] objects
    exist, as long as the analyzer gives the same document for the same
    text: no call leaves anything behind that a later call reads. *)
Theorem extraction_and_scoring_deterministic
  (this : ResumeParser.t) (analyzer1 analyzer2 : Session.AnalyzerState)
  (regExps1 regExps2 : list Session.RegExpObject)
  (history1 history2 : list Session.Call)
  (content : string) (requiredSkills : list string) :
  let store1 :=
    Session.after history1 (Session.mkStore this analyzer1 regExps1) in
  let store2 :=
    Session.after history2 (Session.mkStore this analyzer2 regExps2) in
  fst (Session.parseResume content store1)
  = fst (Session.parseResume content store2) /\
  fst (Session.scoreResume content requiredSkills store1)
  = fst (Session.scoreResume content requiredSkills store2).
Proof.
  intros store1 store2. rewrite !parseResume_on_store. cbn [fst].
  destruct (scoreResume_on_store content requiredSkills store1) as [s1 [-> _]].
  destruct (scoreResume_on_store content requiredSkills store2) as [s2 [-> _]].
  cbn [fst]. unfold store1, store2. now rewrite !instance_after.
Qed.

End Sessions.

Lemma extraction_and_scoring_deterministic_witness :
  Session.analyzer
    (Session.after
       [Session.ScoreResume "I know C++." ["c++"];
        Session.ScoreResume "Docker and React." ["docker"; "react"];
        Session.ParseResume "Docker and React."]
       (Session.mkStore ResumeParser.new 0 [])) = 3 /\
  length
    (Session.regExps
       (Session.after
          [Session.ScoreResume "I know C++." ["c++"];
           Session.ScoreResume "Docker and React." ["docker"; "react"];
           Session.ParseResume "Docker and React."]
          (Session.mkStore ResumeParser.new 0 []))) = 2 /\
  fst (Session.scoreResume "React developer." ["react"]
         (Session.mkStore ResumeParser.new 7 [])) = Return 7%float /\
  (fst (Session.parseResume "React developer."
          (Session.after
             [Session.ScoreResume "I know C++." ["c++"];
              Session.ScoreResume "Docker and React." ["docker"; "react"];
              Session.ParseResume "Docker and React."]
             (Session.mkStore ResumeParser.new 0 [])))
   = fst (Session.parseResume "React developer."
            (Session.after []
               (Session.mkStore ResumeParser.new 7
                  [Session.mkRegExp [(RegExp.Lit "a"%char, RegExp.One)] 1]))) /\
   fst (Session.scoreResume "React developer." ["react"]
          (Session.after
             [Session.ScoreResume "I know C++." ["c++"];
              Session.ScoreResume "Docker and React." ["docker"; "react"];
              Session.ParseResume "Docker and React."]
             (Session.mkStore ResumeParser.new 0 [])))
   = fst (Session.scoreResume "React developer." ["react"]
            (Session.after []
               (Session.mkStore ResumeParser.new 7
                  [Session.mkRegExp [(RegExp.Lit "a"%char, RegExp.One)] 1])))).
Proof.
  split; [vm_compute; reflexivity|]. split; [vm_compute; reflexivity|].
  split; [vm_compute; reflexivity|].
  exact (extraction_and_scoring_deterministic (SA := countingAnalyzer)
           (TA := wordAnalyzer) (fun a text => eq_refl)
           ResumeParser.new 0 7
           [] [Session.mkRegExp [(RegExp.Lit "a"%char, RegExp.One)] 1]
           [Session.ScoreResume "I know C++." ["c++"];
            Session.ScoreResume "Docker and React." ["docker"; "react"];
            Session.ParseResume "Docker and React."] []
           "React developer." ["react"]).
Defined.

(** ** Concrete runs *)

(** The scenario of the specification: two required skills of three are
    matched, "javascript" is repeated and follows "experience in". *)
Example scenario_score :
  ResumeParser.scoreResume (TA := wordAnalyzer) ResumeParser.new
    "Experienced JavaScript and React developer. 5 years experience in javascript. Experience in javascript experience in javascript."
    ["javascript"; "react"; "docker"]
  = Return 5.2%float.
Proof. vm_compute. reflexivity. Qed.

(** With an empty [requiredSkills] the score is returned, not thrown: it
    is NaN. *)
Lemma scoreResume_empty_returns_nan :
  ResumeParser.scoreResume (TA := wordAnalyzer) ResumeParser.new
    "JavaScript developer." [] = Return nan /\
  forall e,
    ResumeParser.scoreResume (TA := wordAnalyzer) ResumeParser.new
      "JavaScript developer." [] <> Throw e.
Proof. split; [reflexivity | discriminate]. Qed.

(** With the required skill "c++" the analyzer throws, and the error is
    not about an empty [requiredSkills]. *)
Lemma analyzeSuitability_throws_on_cpp :
  ResumeParser.analyzeSuitability (TA := wordAnalyzer) ResumeParser.new
    "I know C++." ["c++"] "Systems programmer"
  = Throw (RegExpSyntaxError "c++") /\
  ["c++"] <> @nil string.
Proof. split; [reflexivity | discriminate]. Qed.

Lemma no_error_on_plain_skills_witness :
  (exists profile,
      ResumeParser.parseResume (TA := wordAnalyzer) ResumeParser.new
        "JavaScript and React developer." = Return profile) /\
  (exists score,
      ResumeParser.scoreResume (TA := wordAnalyzer) ResumeParser.new
        "JavaScript and React developer." ["javascript"; "docker"]
      = Return score) /\
  (exists verdict,
      ResumeParser.analyzeSuitability (TA := wordAnalyzer) ResumeParser.new
        "JavaScript and React developer." ["javascript"; "docker"] "Web developer"
      = Return verdict) /\
  (exists score,
      ResumeParser.scoreResume (TA := wordAnalyzer) ResumeParser.new
        "JavaScript and React developer." [] = Return score) /\
  (exists verdict,
      ResumeParser.analyzeSuitability (TA := wordAnalyzer) ResumeParser.new
        "JavaScript and React developer." [] "Web developer" = Return verdict).
Proof.
  apply (no_error_on_plain_skills (TA := wordAnalyzer) ResumeParser.new
           "JavaScript and React developer." ["javascript"; "docker"]
           "Web developer").
  reflexivity.
Defined.

(** * Further properties of the code *)

(** ** Case of the letters *)

Section CaseInsensitive.

Context {TA : TextAnalyzer}.
Variable this : ResumeParser.t.
Import ResumeParser.

Lemma parseResume_toLowerCase (content : string) :
  parseResume this (JSString.toLowerCase content) = parseResume this content.
Proof.
  unfold parseResume, addDictionaryWords.
  now rewrite !toLowerCase_idempotent.
Qed.

Lemma scoreResume_toLowerCase (content : string) (requiredSkills : list string) :
  scoreResume this (JSString.toLowerCase content) requiredSkills
  = scoreResume this content requiredSkills.
Proof.
  unfold scoreResume.
  now rewrite parseResume_toLowerCase, !toLowerCase_idempotent.
Qed.

(** X1. Lower-casing the resume text changes nothing: the profile, the
    score and the verdict of a text are those of its lower-cased form. *)
Theorem content_case_is_ignored
  (content : string) (requiredSkills : list string) (jobDescription : string) :
  parseResume this (JSString.toLowerCase content) = parseResume this content /\
  scoreResume this (JSString.toLowerCase content) requiredSkills
  = scoreResume this content requiredSkills /\
  analyzeSuitability this (JSString.toLowerCase content) requiredSkills jobDescription
  = analyzeSuitability this content requiredSkills jobDescription.
Proof.
  split; [apply parseResume_toLowerCase|].
  split; [apply scoreResume_toLowerCase|].
  unfold analyzeSuitability.
  now rewrite parseResume_toLowerCase, scoreResume_toLowerCase.
Qed.

Lemma filter_map_length {A B : Type} (f : B -> bool) (g : A -> B) (l : list A) :
  length (filter f (map g l)) = length (filter (fun x => f (g x)) l).
Proof.
  induction l as [|x l IH]; [reflexivity|]. cbn [map filter].
  destruct (f (g x)); cbn [length]; now rewrite IH.
Qed.

Lemma forEachM_map {A B S : Type} (f : S -> B -> Outcome S) (g : A -> B)
  (l : list A) :
  forall acc, forEachM f (map g l) acc = forEachM (fun a x => f a (g x)) l acc.
Proof.
  induction l as [|x l IH]; intros acc; [reflexivity|].
  cbn [map forEachM]. destruct (f acc (g x)); cbn [bind]; auto.
Qed.

Lemma forEachM_ext {A S : Type} (f g : S -> A -> Outcome S) (l : list A) :
  (forall a x, f a x = g a x) ->
  forall acc, forEachM f l acc = forEachM g l acc.
Proof.
  intros H. induction l as [|x l IH]; intros acc; [reflexivity|].
  cbn [forEachM]. rewrite H. destruct (g acc x); cbn [bind]; auto.
Qed.

(** X2. The score does not depend on the case of the required skills:
    lower-casing each of them gives the same outcome. *)
Theorem scoreResume_skill_case_is_ignored
  (content : string) (requiredSkills : list string) :
  scoreResume this content (map JSString.toLowerCase requiredSkills)
  = scoreResume this content requiredSkills.
Proof.
  unfold scoreResume. cbn [parseResume bind].
  rewrite filter_map_length, length_map, forEachM_map.
  erewrite filter_ext.
  2:{ intros skill. unfold isMatched. rewrite toLowerCase_idempotent. reflexivity. }
  erewrite forEachM_ext; [reflexivity|].
  intros score skill. unfold addBonuses. now rewrite toLowerCase_idempotent.
Qed.

End CaseInsensitive.

(** ** The verdict *)

Section Verdict.

Context {TA : TextAnalyzer}.
Variable this : ResumeParser.t.
Import ResumeParser.

(** X3. [analyzeSuitability] ends as [scoreResume] does on the same
    arguments: it throws what [scoreResume] throws, and when [scoreResume]
    returns a score it returns a verdict whose recommendation is chosen by
    that score (at least 7, at least 5, or anything else, NaN included). *)
Theorem analyzeSuitability_follows_scoreResume
  (content : string) (requiredSkills : list string) (jobDescription : string) :
  match scoreResume this content requiredSkills with
  | Return score =>
      exists verdict,
        analyzeSuitability this content requiredSkills jobDescription
        = Return verdict /\
        recommendation verdict =
          if JSNumber.ge score 7 then highlyRecommended
          else if JSNumber.ge score 5 then considerForInterview
          else notRecommended
  | Throw e =>
      analyzeSuitability this content requiredSkills jobDescription = Throw e
  | Unmodelled =>
      analyzeSuitability this content requiredSkills jobDescription = Unmodelled
  end.
Proof.
  destruct (scoreResume this content requiredSkills) as [score|e|] eqn:E;
    unfold analyzeSuitability; rewrite E; cbn [parseResume bind];
    [|reflexivity|reflexivity].
  repeat match goal with
         | |- context [if ?c then (_, _) else _] => destruct c
         end;
    eexists; (split; [reflexivity|]); reflexivity.
Qed.

Lemma ltb_length_nil {A : Type} (l : list A) :
  (0 <? length l) = false <-> l = [].
Proof.
  destruct l; cbn; split; intros H; try reflexivity; try discriminate.
Qed.

(** X4. In a verdict, the gap "Limited professional experience" is
    reported exactly when the largest first number of the experience
    mentions is below 2, and the gap "No formal education details found"
    exactly when the profile has no education mention. *)
Theorem analyzeSuitability_gaps
  (content : string) (requiredSkills : list string) (jobDescription : string)
  (profile : Profile) (verdict : Verdict)
  (Hprofile : parseResume this content = Return profile)
  (Hverdict : analyzeSuitability this content requiredSkills jobDescription
              = Return verdict) :
  (In "Limited professional experience" (gaps verdict) <->
   (yearsOfExperience (experience profile) < 2)%Z) /\
  (In "No formal education details found" (gaps verdict) <->
   education profile = []).
Proof.
  revert Hverdict. unfold analyzeSuitability.
  destruct (scoreResume this content requiredSkills) as [score|e|];
    rewrite Hprofile; cbn [bind]; try discriminate.
  set (years := yearsOfExperience (experience profile)).
  destruct (0 <? length (filter _ requiredSkills));
    destruct (0 <? length (filter _ requiredSkills));
    destruct (5 <=? years)%Z eqn:E5; destruct (2 <=? years)%Z eqn:E2;
    destruct (0 <? length (education profile)) eqn:Eedu;
    try destruct (existsb _ (education profile));
    try destruct (existsb _ (education profile));
    intros [= <-]; cbn [gaps app In append];
    rewrite <- ?ltb_length_nil, ?Eedu;
    try apply Z.leb_le in E5; try apply Z.leb_gt in E5;
    try apply Z.leb_le in E2; try apply Z.leb_gt in E2;
    (split; split; intros H;
      repeat match goal with
             | H : _ \/ _ |- _ => destruct H
             | H : False |- _ => destruct H
             end;
      try discriminate; try lia; auto).
Qed.

Lemma filter_partition_permutation {A : Type} (f : A -> bool) (l : list A) :
  Permutation (filter f l ++ filter (fun x => negb (f x)) l) l.
Proof.
  induction l as [|x l IH]; [constructor|]. cbn [filter].
  destruct (f x); cbn [negb app].
  - now constructor.
  - symmetry. apply Permutation_cons_app. now symmetry.
Qed.

(** X5. The required skills are reported once each, split in two: those
    whose lower-cased form is a skill of the profile and the others.  The
    strengths name the first group in one line exactly when it is not
    empty, and the gaps the second group in one line exactly when it is
    not empty. *)
Theorem analyzeSuitability_skill_lines
  (content : string) (requiredSkills : list string) (jobDescription : string)
  (profile : Profile) (verdict : Verdict)
  (Hprofile : parseResume this content = Return profile)
  (Hverdict : analyzeSuitability this content requiredSkills jobDescription
              = Return verdict) :
  let found := fun skill =>
    JSArray.includes (skills profile) (JSString.toLowerCase skill) in
  let matched := filter found requiredSkills in
  let missing := filter (fun skill => negb (found skill)) requiredSkills in
  (In ("Strong match in key skills: " ++ JSString.join ", " matched)%string
      (strengths verdict) <-> matched <> []) /\
  (In ("Missing required skills: " ++ JSString.join ", " missing)%string
      (gaps verdict) <-> missing <> []) /\
  Permutation (matched ++ missing) requiredSkills.
Proof.
  cbv beta zeta.
  set (matched := filter _ requiredSkills).
  set (missing := filter _ requiredSkills).
  split; [|split; [|apply filter_partition_permutation]];
    revert Hverdict; unfold analyzeSuitability;
    (destruct (scoreResume this content requiredSkills) as [score|e|];
     rewrite Hprofile; cbn [bind]; try discriminate);
    fold matched; fold missing;
    set (years := yearsOfExperience (experience profile));
    destruct (0 <? length matched) eqn:Ematched;
    destruct (0 <? length missing) eqn:Emissing;
    destruct (5 <=? years)%Z; destruct (2 <=? years)%Z;
    destruct (0 <? length (education profile));
    try destruct (existsb _ (education profile));
    try destruct (existsb _ (education profile));
    intros [= <-]; cbn [gaps strengths app In];
    try (apply ltb_length_nil in Ematched; rewrite Ematched);
    try (apply ltb_length_nil in Emissing; rewrite Emissing);
    cbn [JSString.join append];
    (split; intros H;
      repeat match goal with
             | H : _ \/ _ |- _ => destruct H
             | H : False |- _ => destruct H
             end;
      try discriminate; try congruence; auto;
      try (intros Hnil; rewrite Hnil in *; discriminate)).
Qed.


End Verdict.

(** ** The tokenizer *)

Lemma list_ascii_of_string_app (a b : string) :
  list_ascii_of_string (a ++ b) = list_ascii_of_string a ++ list_ascii_of_string b.
Proof. induction a as [|c a IH]; cbn; [reflexivity | now rewrite IH]. Qed.

Lemma splitFrom_spec (s : string) :
  forall cur inSep,
    separatorFree cur = true ->
    (inSep = true -> cur = EmptyString) ->
    Forall (fun w => separatorFree w = true) (JSString.splitFrom s cur inSep) /\
    flat_map list_ascii_of_string (JSString.splitFrom s cur inSep)
    = list_ascii_of_string cur
      ++ filter (fun c => negb (JSString.isSeparator c)) (list_ascii_of_string s).
Proof.
  induction s as [|c s IH]; intros cur inSep Hcur Hsep; cbn [JSString.splitFrom].
  - split; [now repeat constructor|]. cbn. reflexivity.
  - cbn [list_ascii_of_string filter].
    destruct (JSString.isSeparator c) eqn:Ec; cbn [negb].
    + destruct (IH EmptyString true eq_refl (fun _ => eq_refl)) as [Hall Hcat].
      destruct inSep.
      * split; [assumption|]. rewrite Hcat, (Hsep eq_refl). reflexivity.
      * split; [now constructor|]. cbn [flat_map]. now rewrite Hcat.
    + assert (Hcur' : separatorFree (cur ++ String c EmptyString) = true).
      { unfold separatorFree. rewrite list_ascii_of_string_app, forallb_app.
        fold (separatorFree cur). rewrite Hcur. cbn. now rewrite Ec. }
      destruct (IH (cur ++ String c EmptyString)%string false Hcur'
                  ltac:(discriminate)) as [Hall Hcat].
      split; [assumption|]. rewrite Hcat, list_ascii_of_string_app.
      cbn. now rewrite <- app_assoc.
Qed.

(** X7. The tokens of [split] contain no white space, comma or full
    stop, and put end to end they are the text with exactly those
    characters removed: tokenizing loses nothing else. *)
Theorem split_tokens (s : string) :
  Forall (fun w => separatorFree w = true) (JSString.split s) /\
  flat_map list_ascii_of_string (JSString.split s)
  = filter (fun c => negb (JSString.isSeparator c)) (list_ascii_of_string s).
Proof. exact (splitFrom_spec s EmptyString false eq_refl ltac:(discriminate)). Qed.

(** ** Where the skills come from *)

Lemma JSSet_add_In (s : JSSet.t) (x y : string) :
  In x (JSSet.add s y) <-> In x s \/ x = y.
Proof.
  unfold JSSet.add, JSSet.has.
  destruct (JSArray.includes s y) eqn:E.
  - apply includes_In in E. split; [tauto|]. intros [H| ->]; assumption.
  - rewrite in_app_iff. cbn. split; intros [H|H]; auto.
    destruct H as [H|[]]; auto.
Qed.

Lemma fold_add_In {A : Type} (test : A -> bool) (key : A -> string) (l : list A) :
  forall (s : JSSet.t) (x : string),
    In x (fold_left
            (fun acc a => if test a then JSSet.add acc (key a) else acc) l s)
    <-> In x s \/ exists a, In a l /\ test a = true /\ x = key a.
Proof.
  induction l as [|a l IH]; intros s x; cbn [fold_left].
  - split; [tauto|]. intros [H|(a & [] & _)]. assumption.
  - rewrite IH. split.
    + intros [H|(b & Hb & Ht & Hx)].
      * destruct (test a) eqn:Ea.
        -- apply JSSet_add_In in H as [H| ->]; [now left|].
           right. exists a. cbn. auto.
        -- now left.
      * right. exists b. cbn. auto.
    + intros [H|(b & [<-|Hb] & Ht & Hx)].
      * left. destruct (test a); [apply JSSet_add_In|]; auto.
      * left. rewrite Ht. apply JSSet_add_In. now right.
      * right. exists b. auto.
Qed.

Section Skills.

Context {TA : TextAnalyzer}.
Variable this : ResumeParser.t.
Import ResumeParser Compromise.

(** X8. The skills of a profile are exactly: the dictionary words among
    the tokens of the lower-cased text; the lower-cased texts of the nouns
    that are cue words; and the lower-cased texts of the proper nouns
    tagged neither person, place nor organization that the dictionary has. *)
Theorem parseResume_skills_membership
  (content : string) (profile : Profile)
  (Hprofile : parseResume this content = Return profile) (x : string) :
  let doc := nlp (JSString.toLowerCase content) in
  In x (skills profile) <->
  (JSSet.has (commonTechTerms this) x = true /\
   In x (JSString.split (JSString.toLowerCase content))) \/
  (exists t, In t (flat_map terms doc) /\
             hasTag Noun t = true /\
             JSArray.includes cueWords (normal t) = true /\
             x = JSString.toLowerCase (termText t)) \/
  (exists t, In t (flat_map terms doc) /\
             hasTag ProperNoun t = true /\
             hasTag Person t = false /\
             hasTag Place t = false /\
             hasTag Organization t = false /\
             JSSet.has (commonTechTerms this) x = true /\
             x = JSString.toLowerCase (termText t)).
Proof.
  cbv zeta. revert Hprofile. unfold parseResume. intros [= <-].
  cbn [skills]. unfold JSSet.toArray, addCapitalizedTerms, addTechTerms,
    addDictionaryWords.
  rewrite fold_add_In.
  rewrite (fold_add_In (fun _ => true) (fun term => JSString.toLowerCase (termText term))).
  rewrite fold_add_In.
  unfold Compromise.not, keep, matchTerms, hasTag. cbn [In JSSet.empty].
  split.
  - intros [[[[]|(w & Hw & Hd & ->)]|(t & Ht & _ & ->)]|(t & Ht & Hd & ->)].
    + left. auto.
    + right. left. exists t.
      apply filter_In in Ht as [Ht Hcue]. apply filter_In in Ht as [Ht Hnoun].
      auto.
    + right. right. exists t.
      apply filter_In in Ht as [Ht Horg]. apply filter_In in Ht as [Ht Hplace].
      apply filter_In in Ht as [Ht Hperson]. apply filter_In in Ht as [Ht Hproper].
      apply negb_true_iff in Horg, Hplace, Hperson.
      repeat split; auto.
  - intros [[Hd Hw]|[(t & Ht & Hnoun & Hcue & ->)|(t & Ht & Hp & H1 & H2 & H3 & Hd & ->)]].
    + left. left. right. exists x. auto.
    + left. right. exists t. split; [|auto].
      apply filter_In. split; [|exact Hcue]. apply filter_In. auto.
    + right. exists t. split; [|auto].
      repeat (apply filter_In; split); auto; now apply negb_true_iff.
Qed.

End Skills.

(** ** Substrings *)

Lemma append_assoc (a b c : string) : ((a ++ b) ++ c = a ++ b ++ c)%string.
Proof. induction a as [|x a IH]; cbn; [reflexivity | now rewrite IH]. Qed.

Lemma append_length (a b : string) :
  String.length (a ++ b) = String.length a + String.length b.
Proof. induction a as [|x a IH]; cbn; [reflexivity | now rewrite IH]. Qed.

Lemma startsWith_iff (p s : string) :
  JSString.startsWith p s = true <-> exists r, s = (p ++ r)%string.
Proof.
  revert s. induction p as [|a p IH]; intros s; cbn.
  - split; [intros _; now exists s | reflexivity].
  - destruct s as [|b s]; [split; [discriminate | intros [r Hr]; discriminate]|].
    rewrite andb_true_iff, Ascii.eqb_eq, IH. split.
    + intros [-> [r ->]]. now exists r.
    + intros [r [= -> ->]]. split; [reflexivity | now exists r].
Qed.

Lemma includes_iff (s p : string) :
  JSString.includes s p = true <-> exists a c, s = (a ++ p ++ c)%string.
Proof.
  induction s as [|x s IH]; cbn [JSString.includes];
    rewrite orb_true_iff, startsWith_iff.
  - split.
    + intros [[r Hr]|H]; [|discriminate]. now exists EmptyString, r.
    + intros (a & c & H). left. destruct a; [now exists c | discriminate].
  - rewrite IH. split.
    + intros [[r Hr]|(a & c & ->)]; [now exists EmptyString, r|].
      now exists (String x a), c.
    + intros (a & c & H). destruct a as [|y a].
      * left. now exists c.
      * right. injection H as -> ->. now exists a, c.
Qed.

(** ** A skill without syntax characters, as a regular expression *)

Lemma matchHere_literal (p s r : string) :
  lowerString p -> lowerString s ->
  RegExp.matchHere (literalPattern p) s = Some r <-> s = (p ++ r)%string.
Proof.
  unfold lowerString, literalPattern. revert s.
  induction p as [|a p IH]; intros s Hp Hs; cbn.
  - split; [now intros [= ->] | now intros ->].
  - injection Hp as Ha Hp.
    destruct s as [|b s]; [split; discriminate|].
    injection Hs as Hb Hs. rewrite Ha, Hb.
    destruct (Ascii.eqb a b) eqn:E.
    + apply Ascii.eqb_eq in E as ->. rewrite (IH s Hp Hs).
      split; [now intros -> | now intros [= ->]].
    + apply Ascii.eqb_neq in E. split; [discriminate | intros [= -> _]; contradiction].
Qed.

Lemma matchHere_literal_dec (p s : string) :
  lowerString p -> lowerString s ->
  (exists r, RegExp.matchHere (literalPattern p) s = Some r /\ s = (p ++ r)%string) \/
  (RegExp.matchHere (literalPattern p) s = None /\
   forall r, s <> (p ++ r)%string).
Proof.
  intros Hp Hs. destruct (RegExp.matchHere (literalPattern p) s) as [r|] eqn:E.
  - left. exists r. split; [reflexivity | now apply matchHere_literal].
  - right. split; [reflexivity|]. intros r Hr.
    apply (matchHere_literal p s r Hp Hs) in Hr. congruence.
Qed.

Lemma countMatches_skip (P : RegExp.Pattern) (s : string) :
  forall k, k <= String.length s ->
            RegExp.countMatches P s k = RegExp.countMatches P (skipString k s) 0.
Proof.
  induction s as [|c s IH]; intros k Hk.
  - cbn in Hk. now replace k with 0 by lia.
  - destruct k as [|k]; [reflexivity|]. cbn [RegExp.countMatches skipString].
    apply IH. cbn in Hk. lia.
Qed.

Lemma skipString_append (p r : string) : skipString (String.length p) (p ++ r) = r.
Proof. induction p as [|a p IH]; cbn; [now destruct r | assumption]. Qed.

Lemma lowerString_suffix (p r : string) : lowerString (p ++ r) -> lowerString r.
Proof.
  unfold lowerString. induction p as [|a p IH]; cbn; [trivial|].
  intros [= _ H]. auto.
Qed.

(** The scan, one step: a match at the head is counted and skipped,
    otherwise the scan moves on by one code unit. *)
Lemma matchCount_literal_step (p s : string) :
  p <> EmptyString -> lowerString p -> lowerString s ->
  (exists r, s = (p ++ r)%string /\
             RegExp.matchCount (literalPattern p) s
             = S (RegExp.matchCount (literalPattern p) r)) \/
  ((forall r, s <> (p ++ r)%string) /\
   RegExp.matchCount (literalPattern p) s =
     match s with
     | String _ s' => RegExp.matchCount (literalPattern p) s'
     | EmptyString => 0
     end).
Proof.
  intros Hne Hp Hs. unfold RegExp.matchCount.
  destruct (matchHere_literal_dec p s Hp Hs) as [(r & E & ->)|[E Hno]].
  - left. exists r. split; [reflexivity|].
    destruct p as [|a p]; [contradiction|].
    cbn [append RegExp.countMatches]. cbn [append] in E. rewrite E.
    change (1 + ?x) with (S x). f_equal.
    cbn [String.length]. rewrite append_length.
    replace (S (String.length p + String.length r) - String.length r)
      with (S (String.length p)) by lia.
    cbn [Nat.pred]. rewrite countMatches_skip by (rewrite append_length; lia).
    now rewrite skipString_append.
  - right. split; [assumption|]. destruct s; cbn [RegExp.countMatches]; now rewrite E.
Qed.

Lemma append_split_prefix (p : string) :
  forall u w r : string,
    (u ++ w = p ++ r)%string -> String.length p <= String.length u ->
    exists u', r = (u' ++ w)%string.
Proof.
  induction p as [|a p IH]; intros u w r H Hlen.
  - exists u. symmetry. exact H.
  - destruct u as [|b u]; [cbn in Hlen; lia|].
    cbn in H. injection H as _ H. apply (IH u w r H). cbn in Hlen. lia.
Qed.

Lemma matchCount_literal_includes (p : string) :
  p <> EmptyString -> lowerString p ->
  forall n s, String.length s <= n -> lowerString s ->
    (1 <= RegExp.matchCount (literalPattern p) s <->
     exists a c, s = (a ++ p ++ c)%string).
Proof.
  intros Hne Hp. induction n as [|n IH]; intros s Hlen Hs.
  - destruct s; [|cbn in Hlen; lia].
    destruct (matchCount_literal_step p EmptyString Hne Hp Hs)
      as [(r & Hr & _)|[Hno E]].
    + destruct p; [contradiction | discriminate].
    + rewrite E. split; [lia|]. intros (a & c & H).
      destruct a; [|discriminate]. destruct p; [contradiction | discriminate].
  - destruct (matchCount_literal_step p s Hne Hp Hs) as [(r & Hr & E)|[Hno E]].
    + rewrite E. split; [|lia]. intros _. exists EmptyString, r. exact Hr.
    + rewrite E. destruct s as [|x s].
      * split; [lia|]. intros (a & c & H). destruct a; [|discriminate].
        destruct p; [contradiction | discriminate].
      * assert (Hs' : lowerString s) by (now injection Hs).
        rewrite (IH s ltac:(cbn in Hlen; lia) Hs'). split.
        -- intros (a & c & ->). now exists (String x a), c.
        -- intros (a & c & H). destruct a as [|y a].
           ++ exfalso. apply (Hno c). exact H.
           ++ injection H as _ ->. now exists a, c.
Qed.

Lemma matchCount_literal_twice (p : string) :
  p <> EmptyString -> lowerString p ->
  forall n s, String.length s <= n -> lowerString s ->
    (2 <= RegExp.matchCount (literalPattern p) s <-> occursTwice p s).
Proof.
  intros Hne Hp. unfold occursTwice.
  induction n as [|n IH]; intros s Hlen Hs.
  - destruct s; [|cbn in Hlen; lia].
    destruct (matchCount_literal_step p EmptyString Hne Hp Hs)
      as [(r & Hr & _)|[Hno E]].
    + destruct p; [contradiction | discriminate].
    + rewrite E. split; [lia|].
      intros (a & b & c & H). destruct a; [|discriminate].
      destruct p; [contradiction | discriminate].
  - destruct (matchCount_literal_step p s Hne Hp Hs) as [(r & Hr & E)|[Hno E]].
    + rewrite E. subst s.
      assert (Hr : lowerString r) by (eapply lowerString_suffix; eassumption).
      rewrite <- Nat.succ_le_mono.
      rewrite (matchCount_literal_includes p Hne Hp (String.length r) r (le_n _) Hr).
      split.
      * intros (b & c & ->). now exists EmptyString, b, c.
      * intros (a & b & c & H).
        assert (H' : (((a ++ p) ++ b) ++ (p ++ c))%string = (p ++ r)%string)
          by (rewrite !append_assoc; symmetry; exact H).
        destruct (append_split_prefix p ((a ++ p) ++ b) (p ++ c) r H') as [u Hu].
        -- rewrite !append_length. lia.
        -- now exists u, c.
    + rewrite E. destruct s as [|x s].
      * split; [lia|]. intros (a & b & c & H). destruct a; [|discriminate].
        destruct p; [contradiction | discriminate].
      * assert (Hs' : lowerString s) by (now injection Hs).
        rewrite (IH s ltac:(cbn in Hlen; lia) Hs'). split.
        -- intros (a & b & c & ->). now exists (String x a), b, c.
        -- intros (a & b & c & H). destruct a as [|y a].
           ++ exfalso. apply (Hno (b ++ p ++ c)%string). exact H.
           ++ injection H as _ ->. now exists a, b, c.
Qed.

(** ** Bonuses of a plain skill, and the score with no match *)

Section PlainSkills.

Context {TA : TextAnalyzer}.
Variable this : ResumeParser.t.
Import ResumeParser.

Lemma lowerString_toLowerCase (s : string) : lowerString (JSString.toLowerCase s).
Proof. apply toLowerCase_idempotent. Qed.

Lemma toLowerCase_nonempty (s : string) :
  s <> EmptyString -> JSString.toLowerCase s <> EmptyString.
Proof. destruct s; [contradiction | discriminate]. Qed.

(** X9. For a content and a required skill made of code units below 256
    (Latin-1, the strings of this development; beyond them the [i] flag
    also identifies letters that [toLowerCase] keeps apart), the skill not
    empty and without syntax character of regular expressions: the
    callback of the bonus loop returns, and it adds 0.2 exactly when the
    lower-cased skill occurs twice, without overlap, in the lower-cased
    content; 0.3 is then added when "experience in <skill>" occurs. *)
Theorem addBonuses_plain_skill
  (content : string) (score : float) (skill : string)
  (Hplain : Spec.plainSkill skill = true) (Hskill : skill <> EmptyString) :
  let normalizedContent := JSString.toLowerCase content in
  exists repeated : bool,
    (repeated = true <->
     occursTwice (JSString.toLowerCase skill) normalizedContent) /\
    addBonuses normalizedContent score skill =
      Return
        (let score := if repeated then (score + 0.2)%float else score in
         if JSString.includes normalizedContent
              ("experience in " ++ JSString.toLowerCase skill)%string
         then (score + 0.3)%float else score).
Proof.
  cbv zeta. unfold addBonuses.
  rewrite compile_plain by now rewrite plainSkill_toLowerCase.
  exists (1 <? RegExp.matchCount (literalPattern (JSString.toLowerCase skill))
                 (JSString.toLowerCase content)).
  split; [|reflexivity].
  rewrite Nat.ltb_lt.
  apply (matchCount_literal_twice (JSString.toLowerCase skill)
           (toLowerCase_nonempty skill Hskill) (lowerString_toLowerCase skill)
           (String.length (JSString.toLowerCase content))
           (JSString.toLowerCase content) (le_n _)
           (lowerString_toLowerCase content)).
Qed.

End PlainSkills.

Section NoMatch.

Context {TA : TextAnalyzer}.
Variable this : ResumeParser.t.
Import ResumeParser.

Lemma zero_div_positiveFinite (y : float) :
  positiveFinite y -> (0 / y)%float = 0%float.
Proof.
  unfold positiveFinite. intros Hy. apply Prim2SF_inj.
  rewrite FloatAxioms.div_spec.
  change (Prim2SF 0) with (S754_zero false).
  now destruct (Prim2SF y) as [s|s| |[] m e].
Qed.

Lemma includes_suffix (s a p : string) :
  JSString.includes s (a ++ p) = true -> JSString.includes s p = true.
Proof.
  rewrite !includes_iff. intros (u & c & ->).
  exists (u ++ a)%string, c. now rewrite !append_assoc.
Qed.

Lemma addBonuses_unmatched (content : string) (skills : list string)
  (score : float) (skill : string) :
  Spec.plainSkill skill = true ->
  isMatched skills (JSString.toLowerCase content) skill = false ->
  addBonuses (JSString.toLowerCase content) score skill = Return score.
Proof.
  intros Hplain Hun. unfold isMatched in Hun.
  apply orb_false_iff in Hun as [_ Hinc].
  assert (Hne : skill <> EmptyString).
  { intros ->. cbn in Hinc. destruct (JSString.toLowerCase content); discriminate. }
  unfold addBonuses.
  rewrite compile_plain by now rewrite plainSkill_toLowerCase.
  assert (Hcount : RegExp.matchCount (literalPattern (JSString.toLowerCase skill))
                     (JSString.toLowerCase content) = 0).
  { destruct (RegExp.matchCount _ _) as [|n] eqn:En; [reflexivity|]. exfalso.
    assert (Hocc : exists a c,
               JSString.toLowerCase content
               = (a ++ JSString.toLowerCase skill ++ c)%string).
    { apply (matchCount_literal_includes (JSString.toLowerCase skill)
               (toLowerCase_nonempty skill Hne) (lowerString_toLowerCase skill)
               (String.length (JSString.toLowerCase content))
               (JSString.toLowerCase content) (le_n _)
               (lowerString_toLowerCase content)).
      rewrite En. lia. }
    apply includes_iff in Hocc. congruence. }
  rewrite Hcount. cbn [Nat.ltb Nat.leb].
  destruct (JSString.includes _ ("experience in " ++ _)) eqn:E; [|reflexivity].
  apply includes_suffix in E. congruence.
Qed.

Lemma forEach_addBonuses_unmatched (content : string) (skills : list string)
  (score : float) (requiredSkills : list string) :
  forallb Spec.plainSkill requiredSkills = true ->
  forallb (fun skill => negb (isMatched skills (JSString.toLowerCase content) skill))
    requiredSkills = true ->
  forEachM (addBonuses (JSString.toLowerCase content)) requiredSkills score
  = Return score.
Proof.
  induction requiredSkills as [|skill l IH]; [reflexivity|].
  cbn [forallb]. rewrite !andb_true_iff, negb_true_iff.
  intros [Hp Hps] [Hu Hus]. cbn [forEachM].
  rewrite (addBonuses_unmatched content skills score skill Hp Hu). cbn [bind].
  now apply IH.
Qed.

Lemma filter_none {A : Type} (f : A -> bool) (l : list A) :
  forallb (fun x => negb (f x)) l = true -> filter f l = [].
Proof.
  induction l as [|x l IH]; [reflexivity|]. cbn [forallb filter].
  rewrite andb_true_iff, negb_true_iff. intros [-> H]. auto.
Qed.

(** X10. For a content and required skills made of code units below 256
    (Latin-1, the strings of this development): when no required skill is
    matched (none is a skill of the profile or a substring of the
    lower-cased content), the list is not empty and its skills have no
    syntax character of regular expressions, the score is 0: no bonus can
    be earned by a skill that does not occur. *)
Theorem scoreResume_no_match
  (content : string) (requiredSkills : list string) (profile : Profile)
  (Hprofile : parseResume this content = Return profile)
  (Hnonempty : requiredSkills <> [])
  (Hlength : (Z.of_nat (length requiredSkills) < 2 ^ 32)%Z)
  (Hplain : forallb Spec.plainSkill requiredSkills = true)
  (Hnone : forallb
             (fun skill =>
                negb (isMatched (skills profile) (JSString.toLowerCase content) skill))
             requiredSkills = true) :
  scoreResume this content requiredSkills = Return 0%float.
Proof.
  unfold scoreResume. rewrite Hprofile. cbn [bind].
  rewrite (filter_none _ _ Hnone). cbn [length].
  change (JSNumber.ofNat 0) with 0%float.
  rewrite zero_div_positiveFinite.
  2:{ apply positiveFinite_ofNat; [|assumption].
      destruct requiredSkills; [contradiction | cbn; lia]. }
  change (0 + 0 * 7)%float with 0%float.
  rewrite (forEach_addBonuses_unmatched content (skills profile) 0 requiredSkills
             Hplain Hnone).
  cbn [bind]. f_equal.
Qed.

End NoMatch.

(** ** The form of the job requirements *)

Section Form.
Import JobRequirementsForm FormEvents.

Lemma trimStart_head (s : string) :
  trimStart s = EmptyString \/
  exists c r, trimStart s = String c r /\ JSString.isWhiteSpace c = false.
Proof.
  induction s as [|c s IH]; cbn; [now left|].
  destruct (JSString.isWhiteSpace c) eqn:E; [assumption|].
  right. now exists c, s.
Qed.

Lemma trimEnd_idempotent (s : string) : trimEnd (trimEnd s) = trimEnd s.
Proof.
  induction s as [|c s IH]; cbn; [reflexivity|].
  destruct (JSString.isWhiteSpace c && String.eqb (trimEnd s) EmptyString) eqn:E;
    [reflexivity|].
  cbn. rewrite IH, E. reflexivity.
Qed.

Lemma trim_idempotent (s : string) : trim (trim s) = trim s.
Proof.
  unfold trim. destruct (trimStart_head s) as [->|(c & r & -> & Hc)]; [reflexivity|].
  cbn [trimEnd]. rewrite Hc. cbn [andb trimStart]. rewrite Hc.
  cbn [trimEnd]. rewrite Hc. cbn [andb]. now rewrite trimEnd_idempotent.
Qed.

Lemma removeAt_incl (l : list string) :
  forall from index x, In x (removeAt from index l) -> In x l.
Proof.
  induction l as [|y l IH]; intros from index x; cbn; [trivial|].
  destruct (from =? index); cbn; intros H.
  - right. eapply IH, H.
  - destruct H as [H|H]; [now left | right; eapply IH, H].
Qed.

Lemma handle_trimmed (st : State) (ev : Event) :
  Forall trimmed (skills st) -> Forall trimmed (skills (handle st ev)).
Proof.
  intros H. destruct ev; cbn [handle skills]; try assumption.
  - unfold addSkill.
    destruct (negb (String.eqb (trim (skill st)) EmptyString)) eqn:E;
      [|assumption].
    cbn [skills]. apply Forall_app. split; [assumption|].
    constructor; [|constructor]. split.
    + apply negb_true_iff, String.eqb_neq in E. exact E.
    + apply trim_idempotent.
  - rewrite Forall_forall in *. intros x Hx. eapply H, removeAt_incl, Hx.
Qed.

(** X11. Whatever the user types, adds and removes, every skill held by
    the form is not empty and has no white space at either end: blank
    input is never added and added input is trimmed. *)
Theorem form_skills_trimmed (events : list Event) :
  Forall trimmed (skills (run events)).
Proof.
  unfold run.
  assert (H : Forall trimmed (skills initial)) by constructor.
  revert H. generalize initial.
  induction events as [|ev events IH]; intros st H; cbn [fold_left];
    [assumption|].
  apply IH, handle_trimmed, H.
Qed.

Lemma removeAt_spec (l : list string) :
  forall from index,
    removeAt from index l =
      if index <? from then l
      else firstn (index - from) l ++ skipn (S (index - from)) l.
Proof.
  induction l as [|x l IH]; intros from index; cbn [removeAt].
  - destruct (index <? from); [reflexivity|].
    now rewrite firstn_nil, skipn_nil.
  - rewrite IH. destruct (from =? index) eqn:E.
    + apply Nat.eqb_eq in E. subst.
      replace (index <? S index) with true by (symmetry; apply Nat.ltb_lt; lia).
      replace (index <? index) with false by (symmetry; apply Nat.ltb_ge; lia).
      now rewrite Nat.sub_diag.
    + apply Nat.eqb_neq in E.
      destruct (index <? from) eqn:E1.
      * apply Nat.ltb_lt in E1.
        now replace (index <? S from) with true by (symmetry; apply Nat.ltb_lt; lia).
      * apply Nat.ltb_ge in E1.
        replace (index <? S from) with false by (symmetry; apply Nat.ltb_ge; lia).
        replace (index - from) with (S (index - S from)) by lia.
        reflexivity.
Qed.

(** X12. [removeSkill(index)] removes the skill at position [index] and
    no other: the skills before and after it are kept in order; an index
    past the end removes nothing. *)
Theorem removeSkill_removes_one (index : nat) (st : State) :
  skills (removeSkill index st)
  = firstn index (skills st) ++ skipn (S index) (skills st) /\
  (index < length (skills st) ->
   S (length (skills (removeSkill index st))) = length (skills st)) /\
  (length (skills st) <= index -> skills (removeSkill index st) = skills st).
Proof.
  cbn [removeSkill skills]. rewrite removeAt_spec. cbn [Nat.ltb Nat.leb].
  rewrite Nat.sub_0_r.
  split; [reflexivity|]. split.
  - intros H. rewrite length_app, length_firstn, length_skipn. lia.
  - intros H. rewrite firstn_all2 by lia. rewrite skipn_all2 by lia.
    apply app_nil_r.
Qed.

(** X13. Removing the skill at the position where a skill was just added
    gives back the list of skills as it was; when the input was blank and
    nothing was added, that position is past the end and the list is
    unchanged too. *)
Theorem addSkill_then_removeSkill (st : State) :
  skills (removeSkill (length (skills st)) (addSkill st)) = skills st.
Proof.
  cbn [removeSkill skills]. rewrite removeAt_spec. cbn [Nat.ltb Nat.leb].
  rewrite Nat.sub_0_r. unfold addSkill.
  destruct (negb (String.eqb (trim (skill st)) EmptyString)); cbn [skills].
  - rewrite firstn_app, Nat.sub_diag, firstn_all. cbn [firstn].
    rewrite skipn_app, skipn_all2 by lia.
    replace (S (length (skills st)) - length (skills st)) with 1 by lia.
    cbn. now rewrite !app_nil_r.
  - rewrite firstn_all, skipn_all2 by lia. apply app_nil_r.
Qed.

End Form.

(** ** The page: uploads and badges *)

Lemma SFleb_same_exponent (m1 m2 : positive) (e : Z) (x : spec_float) :
  (m1 <= m2)%positive ->
  SFleb (S754_finite false m2 e) x = true ->
  SFleb (S754_finite false m1 e) x = true.
Proof.
  unfold SFleb. intros Hm.
  destruct x as [s|[]| |[] mx ex]; cbn [SFcompare]; try discriminate; auto.
  destruct (e ?= ex)%Z; try discriminate; auto.
  change (Pos.compare_cont Eq) with Pos.compare.
  destruct (m2 ?= mx)%positive eqn:E2; try discriminate; intros _.
  - apply Pos.compare_eq in E2. subst mx.
    destruct (m1 ?= m2)%positive eqn:E1; try reflexivity.
    apply Pos.compare_gt_iff, Pos.lt_nle in E1. contradiction.
  - apply Pos.compare_lt_iff in E2.
    destruct (m1 ?= mx)%positive eqn:E1; try reflexivity.
    apply Pos.compare_gt_iff in E1. exfalso.
    apply (Pos.lt_irrefl m2).
    eapply Pos.lt_trans; [exact E2|]. eapply Pos.lt_le_trans; eassumption.
Qed.

Lemma ge_five_ge_four (score : float) :
  JSNumber.ge score 5 = true -> JSNumber.ge score 4 = true.
Proof.
  unfold JSNumber.ge. rewrite !FloatAxioms.leb_spec.
  assert (E5 : Prim2SF 5 = S754_finite false 5629499534213120 (-50))
    by (vm_compute; reflexivity).
  assert (E4 : Prim2SF 4 = S754_finite false 4503599627370496 (-50))
    by (vm_compute; reflexivity).
  rewrite E5, E4. apply SFleb_same_exponent. discriminate.
Qed.

Section Page.

Context {TA : TextAnalyzer}.
Import ResumeParser.

Lemma analyzeSuitability_of_score (this : ResumeParser.t)
  (content : string) (requiredSkills : list string) (jobDescription : string)
  (score : float) :
  scoreResume this content requiredSkills = Return score ->
  exists verdict,
    analyzeSuitability this content requiredSkills jobDescription = Return verdict /\
    recommendation verdict = recommendationFor score.
Proof.
  intros E. unfold analyzeSuitability. rewrite E. cbn [parseResume bind].
  repeat match goal with
         | |- context [if ?c then (_, _) else _] => destruct c
         end;
    eexists; (split; [reflexivity|]); reflexivity.
Qed.

(** X14. What [handleResumeUpload] does.  Without job requirements it
    alerts and sets nothing.  With job requirements it ends as
    [scoreResume] does on their required skills: an exception of
    [scoreResume] leaves the list of resumes as it was, and a score makes
    it append exactly one resume, complete, holding the content, that
    score, the profile of the content, the job title and the verdict. *)
Theorem handleResumeUpload_outcome (st : App.State) (now content : string) :
  match App.jobRequirements st with
  | None =>
      App.handleResumeUpload st now content
      = Return (App.Alert "Please set job requirements first")
  | Some job =>
      match scoreResume new content (Types.requiredSkills job) with
      | Throw e => App.handleResumeUpload st now content = Throw e
      | Unmodelled => App.handleResumeUpload st now content = Unmodelled
      | Return score =>
          exists profile verdict,
            parseResume new content = Return profile /\
            analyzeSuitability new content (Types.requiredSkills job)
              (Types.description job) = Return verdict /\
            App.handleResumeUpload st now content =
              Return (App.SetResumes
                        (App.resumes st ++
                         [Types.mkResume now content score (skills profile)
                            (Types.title job) (experience profile)
                            (education profile) Types.Complete verdict]))
      end
  end.
Proof.
  unfold App.handleResumeUpload.
  destruct (App.jobRequirements st) as [job|]; [|reflexivity].
  destruct (scoreResume new content (Types.requiredSkills job)) as [score|e|] eqn:E;
    cbn [parseResume bind]; try reflexivity.
  destruct (analyzeSuitability_of_score new content (Types.requiredSkills job)
              (Types.description job) score E) as (verdict & Ev & _).
  eexists. exists verdict. split; [reflexivity|]. split; [exact Ev|].
  now rewrite Ev.
Qed.

(** X15. The badge and the recommendation of an uploaded resume agree:
    the badge is green exactly when the candidate is highly recommended, a
    candidate to consider for interview has the yellow badge, and the red
    badge is only given to a candidate who is not recommended. *)
Theorem badge_agrees_with_recommendation
  (st : App.State) (now content : string) (resumes : list Types.Resume)
  (resume : Types.Resume)
  (Hupload : App.handleResumeUpload st now content
             = Return (App.SetResumes (resumes ++ [resume]))) :
  let badge := App.scoreBadge (Types.score resume) in
  let advice := recommendation (Types.suitabilityAnalysis resume) in
  (badge = "bg-green-100 text-green-800" <-> advice = highlyRecommended) /\
  (advice = considerForInterview -> badge = "bg-yellow-100 text-yellow-800") /\
  (badge = "bg-red-100 text-red-800" -> advice = notRecommended).
Proof.
  revert Hupload. unfold App.handleResumeUpload.
  destruct (App.jobRequirements st) as [job|]; [|discriminate].
  destruct (scoreResume new content (Types.requiredSkills job)) as [score|e|] eqn:E;
    cbn [parseResume bind]; try discriminate.
  destruct (analyzeSuitability_of_score new content (Types.requiredSkills job)
              (Types.description job) score E) as (verdict & Ev & Hrec).
  rewrite Ev. cbn [bind]. intros [= H]. apply app_inj_tail in H as [_ <-].
  cbn [Types.score Types.suitabilityAnalysis]. rewrite Hrec.
  unfold App.scoreBadge, recommendationFor, highlyRecommended,
    considerForInterview, notRecommended.
  destruct (JSNumber.ge score 7) eqn:E7.
  - repeat split; intros; try reflexivity; discriminate.
  - destruct (JSNumber.ge score 5) eqn:E5.
    + rewrite (ge_five_ge_four score E5).
      repeat split; intros; try reflexivity; discriminate.
    + destruct (JSNumber.ge score 4);
        repeat split; intros; try reflexivity; discriminate.
Qed.

(** X16. A form saved without any skill gives job requirements with an
    empty list, and every upload against them appends a resume whose score
    is NaN, with the red badge and the verdict "not recommended": nothing
    on the way rejects the empty list. *)
Theorem upload_without_skills
  (form : JobRequirementsForm.State) (st : App.State) (now content : string)
  (Hform : JobRequirementsForm.skills form = [])
  (Hjob : App.jobRequirements st = Some (JobRequirementsForm.submitted form)) :
  exists resume,
    App.handleResumeUpload st now content
    = Return (App.SetResumes (App.resumes st ++ [resume])) /\
    Types.score resume = nan /\
    App.scoreBadge (Types.score resume) = "bg-red-100 text-red-800" /\
    recommendation (Types.suitabilityAnalysis resume) = notRecommended.
Proof.
  unfold App.handleResumeUpload. rewrite Hjob.
  cbn [JobRequirementsForm.submitted Types.requiredSkills Types.description
       Types.title]. rewrite Hform.
  assert (E : scoreResume new content [] = Return nan) by reflexivity.
  destruct (analyzeSuitability_of_score new content []
              (JobRequirementsForm.description form) nan E) as (verdict & Ev & Hrec).
  rewrite E, Ev. cbn [parseResume bind].
  eexists. split; [reflexivity|]. cbn [Types.score Types.suitabilityAnalysis].
  split; [reflexivity|]. split; [reflexivity|]. exact Hrec.
Qed.

End Page.

(** ** When the score is returned and when it is thrown *)

Section ScoreOutcome.

Context {TA : TextAnalyzer}.
Variable this : ResumeParser.t.
Import ResumeParser.

Lemma addBonuses_outcome (normalizedContent : string) (score : float) (skill : string) :
  match RegExp.compile (JSString.toLowerCase skill) with
  | RegExp.Regex _ => exists score', addBonuses normalizedContent score skill = Return score'
  | RegExp.SyntaxError =>
      addBonuses normalizedContent score skill
      = Throw (RegExpSyntaxError (JSString.toLowerCase skill))
  | RegExp.OutsideFragment => addBonuses normalizedContent score skill = Unmodelled
  end.
Proof.
  unfold addBonuses. destruct (RegExp.compile _); try reflexivity.
  eexists. reflexivity.
Qed.

Lemma forEach_addBonuses_returns (normalizedContent : string) (l : list string) :
  forall score,
    (exists score', forEachM (addBonuses normalizedContent) l score = Return score')
    <-> Forall compiles l.
Proof.
  induction l as [|skill l IH]; intros score; cbn [forEachM].
  - split; [constructor | intros _; now eexists].
  - pose proof (addBonuses_outcome normalizedContent score skill) as H.
    unfold compiles at 1. split.
    + intros [s' E].
      destruct (RegExp.compile (JSString.toLowerCase skill)) as [re| |] eqn:Ec.
      * destruct H as [s1 H1]. rewrite H1 in E. cbn [bind] in E.
        constructor; [now exists re | apply (IH s1); now exists s'].
      * rewrite H in E. discriminate.
      * rewrite H in E. discriminate.
    + intros Hall. inversion Hall as [|? ? [re Hre] Hrest]; subst.
      rewrite Hre in H. destruct H as [s1 H1]. rewrite H1. cbn [bind].
      now apply IH.
Qed.

Lemma forEach_addBonuses_throws (normalizedContent : string)
  (before : list string) (skill : string) (after : list string) :
  Forall compiles before -> rejected skill ->
  forall score,
    forEachM (addBonuses normalizedContent) (before ++ skill :: after) score
    = Throw (RegExpSyntaxError (JSString.toLowerCase skill)).
Proof.
  intros Hbefore Hskill. induction Hbefore as [|x l [re Hre] _ IH]; intros score.
  - cbn [app forEachM].
    pose proof (addBonuses_outcome normalizedContent score skill) as H.
    unfold rejected in Hskill. rewrite Hskill in H. now rewrite H.
  - cbn [app forEachM].
    pose proof (addBonuses_outcome normalizedContent score x) as H.
    rewrite Hre in H. destruct H as [s1 ->]. cbn [bind]. apply IH.
Qed.

(** X17. [scoreResume] returns a score exactly when the lower-cased text
    of every required skill is accepted by the [RegExp] constructor; and
    it throws the syntax error of the first required skill whose text the
    constructor rejects, when the skills before it are accepted. *)
Theorem scoreResume_outcome (content : string) (requiredSkills : list string) :
  ((exists score, scoreResume this content requiredSkills = Return score)
   <-> Forall compiles requiredSkills) /\
  (forall before skill after,
      requiredSkills = before ++ skill :: after ->
      Forall compiles before -> rejected skill ->
      scoreResume this content requiredSkills
      = Throw (RegExpSyntaxError (JSString.toLowerCase skill))).
Proof.
  unfold scoreResume. cbn [parseResume bind]. split.
  - match goal with
    | |- context [forEachM ?f ?l ?a] =>
        rewrite <- (forEach_addBonuses_returns (JSString.toLowerCase content) l a);
        destruct (forEachM f l a) as [s| |]
    end; cbn [bind]; split; intros [s' E]; try discriminate; eexists; reflexivity.
  - intros before skill after -> Hbefore Hskill.
    now rewrite forEach_addBonuses_throws.
Qed.

End ScoreOutcome.

(** ** Education *)


Section Education.

Context {TA : TextAnalyzer}.
Variable this : ResumeParser.t.
Import ResumeParser Compromise.

(** X18. The education mentions of a profile are, in document order, the
    sentences of the lower-cased content that have one of the words
    degree, bachelor, master, phd, diploma as a term; and a verdict
    reports advanced qualifications exactly when a mention contains
    "master" or "phd", a relevant background exactly when none does and
    one contains "bachelor". *)
Theorem education_mentions_and_strengths
  (content : string) (requiredSkills : list string) (jobDescription : string)
  (profile : Profile) (verdict : Verdict)
  (Hprofile : parseResume this content = Return profile)
  (Hverdict : analyzeSuitability this content requiredSkills jobDescription
              = Return verdict) :
  let advanced :=
    existsb (fun edu => mentions "master" edu || mentions "phd" edu)
      (education profile) in
  education profile =
    map sentenceText
      (filter (fun s => existsb (fun t => JSArray.includes educationWords (normal t))
                          (terms s))
         (nlp (JSString.toLowerCase content))) /\
  (In "Advanced academic qualifications" (strengths verdict) <-> advanced = true) /\
  (In "Relevant academic background" (strengths verdict) <->
   advanced = false /\ existsb (mentions "bachelor") (education profile) = true).
Proof.
  cbv zeta. split.
  - revert Hprofile. unfold parseResume. intros [= <-]. cbn [education app].
    unfold educationSentences, outArray, if_, sentences. f_equal.
    apply filter_ext. intros s.
    induction (terms s) as [|t ts IH]; [reflexivity|].
    cbn [has existsb]. rewrite <- IH. cbn. now rewrite andb_true_r.
  - revert Hverdict. unfold analyzeSuitability.
    destruct (scoreResume this content requiredSkills) as [score|e|];
      rewrite Hprofile; cbn [bind]; try discriminate.
    set (years := yearsOfExperience (experience profile)).
    destruct (0 <? length (filter _ requiredSkills));
      destruct (0 <? length (filter _ requiredSkills));
      destruct (5 <=? years)%Z; destruct (2 <=? years)%Z;
      destruct (0 <? length (education profile)) eqn:Eedu;
      try (apply ltb_length_nil in Eedu; rewrite Eedu; cbn [existsb]);
      try destruct (existsb (fun edu => _ || _) (education profile)) eqn:Eadv;
      try destruct (existsb (mentions "bachelor") (education profile)) eqn:Ebach;
      intros [= <-]; cbn [strengths app In append];
      (split; split; intros H;
        repeat match goal with
               | H : _ \/ _ |- _ => destruct H
               | H : _ /\ _ |- _ => destruct H
               | H : False |- _ => destruct H
               end;
        try discriminate; auto 6).
Qed.

End Education.

(** ** Experience tiers *)

Section Tiers.

Context {TA : TextAnalyzer}.
Variable this : ResumeParser.t.
Import ResumeParser.

(** X19. For years of experience below 2^53 (every number a mention
    starts with is then a Number held exactly, and printed by its decimal
    digits), a verdict reports strong industry experience, with the
    years, exactly when the years of experience are 5 or more, and
    relevant experience exactly when they are 2, 3 or 4. *)
Theorem analyzeSuitability_experience_strengths
  (content : string) (requiredSkills : list string) (jobDescription : string)
  (profile : Profile) (verdict : Verdict)
  (Hprofile : parseResume this content = Return profile)
  (Hverdict : analyzeSuitability this content requiredSkills jobDescription
              = Return verdict)
  (Hexact : (yearsOfExperience (experience profile) < 2 ^ 53)%Z) :
  let years := yearsOfExperience (experience profile) in
  (In ("Strong industry experience with " ++ showInt years ++ " years")%string
      (strengths verdict) <-> (5 <= years)%Z) /\
  (In ("Relevant experience with " ++ showInt years ++ " years in the field")%string
      (strengths verdict) <-> (2 <= years < 5)%Z).
Proof.
  cbv zeta. clear Hexact. revert Hverdict. unfold analyzeSuitability.
  destruct (scoreResume this content requiredSkills) as [score|e|];
    rewrite Hprofile; cbn [bind]; try discriminate.
  set (years := yearsOfExperience (experience profile)).
  destruct (0 <? length (filter _ requiredSkills));
    destruct (0 <? length (filter _ requiredSkills));
    destruct (5 <=? years)%Z eqn:E5; destruct (2 <=? years)%Z eqn:E2;
    destruct (0 <? length (education profile));
    try destruct (existsb _ (education profile));
    try destruct (existsb _ (education profile));
    intros [= <-]; cbn [strengths app In append];
    try apply Z.leb_le in E5; try apply Z.leb_gt in E5;
    try apply Z.leb_le in E2; try apply Z.leb_gt in E2;
    (split; split; intros H;
      repeat match goal with
             | H : _ \/ _ |- _ => destruct H
             | H : False |- _ => destruct H
             end;
      try discriminate; try lia; auto 6).
Qed.

End Tiers.

(** ** Concrete runs of the further properties *)

Section Runs.

Import ResumeParser.

Lemma analyzeSuitability_gaps_witness :
  exists profile verdict,
    parseResume (TA := wordAnalyzer) new resume1 = Return profile /\
    analyzeSuitability (TA := wordAnalyzer) new resume1 ["react"] "Web developer"
    = Return verdict /\
    (In "Limited professional experience" (gaps verdict) <->
     (yearsOfExperience (experience profile) < 2)%Z) /\
    (In "No formal education details found" (gaps verdict) <->
     education profile = []).
Proof.
  eexists. eexists. split; [reflexivity|]. split; [vm_compute; reflexivity|].
  apply (analyzeSuitability_gaps (TA := wordAnalyzer) new resume1 ["react"]
           "Web developer");
    vm_compute; reflexivity.
Defined.

Lemma analyzeSuitability_skill_lines_witness :
  exists profile verdict,
    parseResume (TA := wordAnalyzer) new resume1 = Return profile /\
    analyzeSuitability (TA := wordAnalyzer) new resume1 ["react"; "docker"]
      "Web developer" = Return verdict /\
    let found := fun skill =>
      JSArray.includes (skills profile) (JSString.toLowerCase skill) in
    let matched := filter found ["react"; "docker"] in
    let missing := filter (fun skill => negb (found skill)) ["react"; "docker"] in
    (In ("Strong match in key skills: " ++ JSString.join ", " matched)%string
        (strengths verdict) <-> matched <> []) /\
    (In ("Missing required skills: " ++ JSString.join ", " missing)%string
        (gaps verdict) <-> missing <> []) /\
    Permutation (matched ++ missing) ["react"; "docker"].
Proof.
  eexists. eexists. split; [reflexivity|]. split; [vm_compute; reflexivity|].
  apply (analyzeSuitability_skill_lines (TA := wordAnalyzer) new resume1
           ["react"; "docker"] "Web developer");
    vm_compute; reflexivity.
Defined.

Lemma parseResume_skills_membership_witness :
  exists profile,
    parseResume (TA := wordAnalyzer) new resume1 = Return profile /\
    (In "react" (skills profile) <->
     (JSSet.has (commonTechTerms new) "react" = true /\
      In "react" (JSString.split (JSString.toLowerCase resume1))) \/
     (exists t, In t (flat_map Compromise.terms (nlp (JSString.toLowerCase resume1))) /\
                hasTag Compromise.Noun t = true /\
                JSArray.includes cueWords (Compromise.normal t) = true /\
                "react" = JSString.toLowerCase (Compromise.termText t)) \/
     (exists t, In t (flat_map Compromise.terms (nlp (JSString.toLowerCase resume1))) /\
                hasTag Compromise.ProperNoun t = true /\
                hasTag Compromise.Person t = false /\
                hasTag Compromise.Place t = false /\
                hasTag Compromise.Organization t = false /\
                JSSet.has (commonTechTerms new) "react" = true /\
                "react" = JSString.toLowerCase (Compromise.termText t))).
Proof.
  eexists. split; [reflexivity|].
  apply (parseResume_skills_membership (TA := wordAnalyzer) new resume1).
  reflexivity.
Defined.

Lemma addBonuses_plain_skill_witness :
  exists repeated : bool,
    (repeated = true <->
     occursTwice (JSString.toLowerCase "Java") (JSString.toLowerCase resume2)) /\
    addBonuses (JSString.toLowerCase resume2) 7 "Java" =
      Return
        (let score := if repeated then (7 + 0.2)%float else 7%float in
         if JSString.includes (JSString.toLowerCase resume2)
              ("experience in " ++ JSString.toLowerCase "Java")%string
         then (score + 0.3)%float else score).
Proof.
  apply (addBonuses_plain_skill resume2 7 "Java"); [reflexivity | discriminate].
Defined.

Lemma scoreResume_no_match_witness :
  scoreResume (TA := wordAnalyzer) new resume1 ["docker"; "python"] = Return 0%float.
Proof.
  eapply (scoreResume_no_match (TA := wordAnalyzer) new resume1 ["docker"; "python"]).
  - reflexivity.
  - discriminate.
  - vm_compute. reflexivity.
  - vm_compute. reflexivity.
  - vm_compute. reflexivity.
Defined.

Lemma badge_agrees_with_recommendation_witness :
  exists resume,
    App.handleResumeUpload (TA := wordAnalyzer) (App.mkState (Some job1) [])
      "1700000000000" resume1
    = Return (App.SetResumes ([] ++ [resume])) /\
    ((App.scoreBadge (Types.score resume) = "bg-green-100 text-green-800" <->
      recommendation (Types.suitabilityAnalysis resume) = highlyRecommended) /\
     (recommendation (Types.suitabilityAnalysis resume) = considerForInterview ->
      App.scoreBadge (Types.score resume) = "bg-yellow-100 text-yellow-800") /\
     (App.scoreBadge (Types.score resume) = "bg-red-100 text-red-800" ->
      recommendation (Types.suitabilityAnalysis resume) = notRecommended)).
Proof.
  eexists. split; [cbn [app]; vm_compute; reflexivity|].
  apply (badge_agrees_with_recommendation (TA := wordAnalyzer)
           (App.mkState (Some job1) []) "1700000000000" resume1 []).
  vm_compute. reflexivity.
Defined.

Lemma upload_without_skills_witness :
  exists resume,
    App.handleResumeUpload (TA := wordAnalyzer)
      (App.mkState (Some (JobRequirementsForm.submitted JobRequirementsForm.initial)) [])
      "1700000000000" resume1
    = Return (App.SetResumes ([] ++ [resume])) /\
    Types.score resume = nan /\
    App.scoreBadge (Types.score resume) = "bg-red-100 text-red-800" /\
    recommendation (Types.suitabilityAnalysis resume) = notRecommended.
Proof.
  apply (upload_without_skills (TA := wordAnalyzer) JobRequirementsForm.initial
           (App.mkState (Some (JobRequirementsForm.submitted JobRequirementsForm.initial)) [])
           "1700000000000" resume1);
    reflexivity.
Defined.

Lemma education_mentions_and_strengths_witness :
  exists profile verdict,
    parseResume (TA := wordAnalyzer) new resume2 = Return profile /\
    analyzeSuitability (TA := wordAnalyzer) new resume2 ["java"] "Developer"
    = Return verdict /\
    (education profile =
       map Compromise.sentenceText
         (filter (fun s => existsb (fun t => JSArray.includes educationWords
                                               (Compromise.normal t))
                             (Compromise.terms s))
            (nlp (JSString.toLowerCase resume2))) /\
     (In "Advanced academic qualifications" (strengths verdict) <->
      existsb (fun edu => mentions "master" edu || mentions "phd" edu)
        (education profile) = true) /\
     (In "Relevant academic background" (strengths verdict) <->
      existsb (fun edu => mentions "master" edu || mentions "phd" edu)
        (education profile) = false /\
      existsb (mentions "bachelor") (education profile) = true)).
Proof.
  eexists. eexists. split; [reflexivity|]. split; [vm_compute; reflexivity|].
  apply (education_mentions_and_strengths (TA := wordAnalyzer) new resume2 ["java"]
           "Developer");
    vm_compute; reflexivity.
Defined.

Lemma analyzeSuitability_experience_strengths_witness :
  exists profile verdict,
    parseResume (TA := wordAnalyzer) new resume2 = Return profile /\
    analyzeSuitability (TA := wordAnalyzer) new resume2 ["java"] "Developer"
    = Return verdict /\
    (yearsOfExperience (experience profile) < 2 ^ 53)%Z /\
    (In ("Strong industry experience with "
         ++ showInt (yearsOfExperience (experience profile)) ++ " years")%string
        (strengths verdict) <-> (5 <= yearsOfExperience (experience profile))%Z) /\
    (In ("Relevant experience with "
         ++ showInt (yearsOfExperience (experience profile))
         ++ " years in the field")%string
        (strengths verdict) <-> (2 <= yearsOfExperience (experience profile) < 5)%Z).
Proof.
  eexists. eexists. split; [reflexivity|]. split; [vm_compute; reflexivity|].
  split; [vm_compute; reflexivity|].
  apply (analyzeSuitability_experience_strengths (TA := wordAnalyzer) new resume2
           ["java"] "Developer");
    vm_compute; reflexivity.
Defined.

End Runs.
